(** * Release scheduling of py_gnome ([gnome/spill/release.py])

    A shallow embedding of the [Release] and [SpatialRelease] classes and the
    properties their specification states about them.

    Conventions of the embedding.
    - Python [int] is [Z]; Python and numpy floating-point numbers are the
      exact rationals [Q] (rounding is not modelled, and equality of two
      floats is [Qeq]).  A mass, which the caller supplies, is a [pyfloat]:
      such a number or NaN.  The one place where rounding decides an
      integer result, the samples [np.linspace(...).astype(int)] of the
      release time series, is modelled a second time with every operation
      rounded to binary64 ([Binary64], [Np.linspace_binary64],
      [Release.release_timeseries_binary64]).
    - A [datetime] is a number of microseconds since a fixed epoch, a
      [timedelta] a number of microseconds.
    - A method is a program of the monad [M S]: it maps the object's state to
      the state it leaves behind and either the value it returns or the
      exception it raises.  A raised exception does not undo the
      attribute assignments made before it, exactly as in Python.
    - [warnings.warn] is a no-op. *)

From Stdlib Require Import String ZArith QArith Qround Qabs Qpower List Bool Lia Lqa.
From Stdlib Require Import Sorted.
Import ListNotations.
Local Open Scope Z_scope.

(** ** Exceptions and the object monad *)

Inductive exception : Type :=
| TypeError (msg : string)
| ValueError (msg : string)
| AssertionError
| ZeroDivisionError
| IndexError
| AttributeError.

Definition result (A : Type) : Type := (exception + A)%type.

Definition rbind {A B : Type} (r : result A) (k : A -> result B) : result B :=
  match r with
  | inl e => inl e
  | inr a => k a
  end.

Definition M (S A : Type) : Type := S -> S * result A.

Definition ret {S A : Type} (a : A) : M S A := fun s => (s, inr a).

Definition raise {S A : Type} (e : exception) : M S A := fun s => (s, inl e).

Definition bind {S A B : Type} (m : M S A) (k : A -> M S B) : M S B :=
  fun s =>
    match m s with
    | (s', inl e) => (s', inl e)
    | (s', inr a) => k a s'
    end.

Definition gets {S A : Type} (f : S -> A) : M S A := fun s => (s, inr (f s)).

Definition modify {S : Type} (f : S -> S) : M S unit := fun s => (f s, inr tt).

(** A property or a method that only reads the object. *)
Definition lift {S A : Type} (f : S -> result A) : M S A := fun s => (s, f s).

(** A method of the base class run on the base part of a larger object. *)
Definition zoom {S T A : Type} (get : S -> T) (set : T -> S -> S)
  (m : M T A) : M S A :=
  fun s => let (t', r) := m (get s) in (set t' s, r).

Definition when {S : Type} (b : bool) (m : M S unit) : M S unit :=
  if b then m else ret tt.

Declare Scope py_scope.
Delimit Scope py_scope with py.
Notation "x <- m ;; k" := (bind m (fun x => k))
  (at level 61, m at next level, right associativity) : py_scope.
Notation "m ;; k" := (bind m (fun _ => k))
  (at level 61, right associativity) : py_scope.
Notation "x <~ r ;; k" := (rbind r (fun x => k))
  (at level 61, r at next level, right associativity) : py_scope.
Local Open Scope py_scope.

(** ** Numbers, times and numpy helpers *)

Definition datetime : Type := Z.
Definition timedelta : Type := Z.

(** [timedelta(seconds=s)] for an integer number of seconds. *)
Definition timedelta_seconds (s : Z) : timedelta := s * 1000000.

(** [timedelta.total_seconds()]. *)
Definition total_seconds (d : timedelta) : Q := d # 1000000.

Definition Qlt_bool (x y : Q) : bool := negb (Qle_bool y x).

(** [sum] of a list of floats. *)
Definition Qsum (l : list Q) : Q := fold_right Qplus 0%Q l.

(** [range(0, n)]. *)
Definition range (n : Z) : list Z := map Z.of_nat (seq 0 (Z.to_nat n)).

(** A float as a caller can pass it: a number or NaN.  Every comparison
    with NaN is false, and arithmetic on NaN gives NaN. *)
Inductive pyfloat : Type :=
| Fin (q : Q)
| NaN.

Coercion Fin : Q >-> pyfloat.
Bind Scope Q_scope with pyfloat.

Module Float.

(** [a < b] and [a >= b]. *)
Definition ltb (a b : pyfloat) : bool :=
  match a, b with
  | Fin x, Fin y => Qlt_bool x y
  | _, _ => false
  end.

Definition geb (a b : pyfloat) : bool :=
  match a, b with
  | Fin x, Fin y => Qle_bool y x
  | _, _ => false
  end.

(** [a * b] and [a / b], the divisor being checked for zero by the
    caller. *)
Definition mul (a b : pyfloat) : pyfloat :=
  match a, b with
  | Fin x, Fin y => Fin (x * y)
  | _, _ => NaN
  end.

Definition div (a b : pyfloat) : pyfloat :=
  match a, b with
  | Fin x, Fin y => Fin (x / y)
  | _, _ => NaN
  end.

End Float.

(** IEEE 754 binary64 arithmetic, rounding to nearest, ties to even, on the
    rationals.  The exponent is unbounded: overflow, subnormal numbers,
    infinities and NaN are left out. *)
Module Binary64.

Definition pow2 (e : Z) : Q := Qpower 2 e.

(** Half the distance, relative to [2^e], between the neighbours of a
    number with exponent [e]: [2^-53]. *)
Definition unit_roundoff : Q := 1 # 9007199254740992.

(** The nearest integer, a tie going to the even one. *)
Definition nearest_even (x : Q) : Z :=
  let f := Qfloor x in
  match Qcompare (x - inject_Z f) (1 # 2) with
  | Lt => f
  | Gt => f + 1
  | Eq => if Z.even f then f else f + 1
  end.

(** The exponent [e] of a number other than 0: [2^e <= |x| < 2^(e+1)]. *)
Definition exponent (x : Q) : Z :=
  let e := Z.log2 (Z.abs (Qnum x)) - Z.log2 (Zpos (Qden x)) in
  if Qle_bool (pow2 e) (Qabs x) then e else e - 1.

(** The nearest number with a significand of 53 bits. *)
Definition round (x : Q) : Q :=
  if Qeq_bool x 0 then 0%Q
  else
    let e := exponent x - 52 in
    (inject_Z (nearest_even (x / pow2 e)) * pow2 e)%Q.

Definition add (x y : Q) : Q := round (x + y).
Definition mul (x y : Q) : Q := round (x * y).
Definition div (x y : Q) : Q := round (x / y).

End Binary64.

Module Np.

(** [ndarray.astype(int)] on one float: truncation toward zero.  The
    result is an unbounded integer: the range of int64 is not modelled. *)
Definition astype_int (q : Q) : Z := Z.quot (Qnum q) (Zpos (Qden q)).

(** [np.linspace(start, stop, num)]: [num] samples, the last one set to
    [stop]; a single sample is [start]. *)
Definition linspace (start stop : Q) (num : Z) : list Q :=
  if num <=? 0 then []
  else if num =? 1 then [start]
  else
    let step := ((stop - start) / inject_Z (num - 1))%Q in
    map (fun i => (inject_Z i * step + start)%Q) (range (num - 1)) ++ [stop].


(** [np.full(shape, v)] for a one-dimensional shape. *)
Definition full {A : Type} (n : nat) (v : A) : list A := repeat v n.

(** [np.isclose(a, b)] with numpy's default tolerances
    [rtol = 1e-05] and [atol = 1e-08]. *)
Definition rtol : Q := 1 # 100000.
Definition atol : Q := 1 # 100000000.
Definition isclose (a b : Q) : bool :=
  Qle_bool (Qabs (a - b)) (atol + rtol * Qabs b).

(** [np.tile(rows, (qt, 1))]: the rows repeated [qt] times. *)
Definition tile {A : Type} (rows : list A) (qt : nat) : list A :=
  concat (repeat rows qt).

End Np.

(** ** Time series ([gnome.environment.timeseries_objects_base]) *)

Record TimeseriesData : Type := mkTimeseriesData {
  ts_time : list datetime;
  ts_data : list Z
}.

Module Ts.

(** Modelled from the spec: [TimeseriesData.at(None, t, extrapolate=True)]
    is defined in [timeseries_objects_base], not in [release.py].  The
    specification describes the release
    time series as ordered (time, cumulative count) samples that are
    "flat-extrapolated beyond range"; between two samples the value is
    interpolated linearly. *)
Fixpoint interp (pts : list (datetime * Z)) (t : datetime) : Q :=
  match pts with
  | [] => 0%Q
  | (t0, v0) :: rest =>
      if t <=? t0 then inject_Z v0
      else
        match rest with
        | [] => inject_Z v0
        | (t1, v1) :: _ =>
            if t <? t1
            then (inject_Z v0
                  + inject_Z (v1 - v0) * (inject_Z (t - t0) / inject_Z (t1 - t0)))%Q
            else interp rest t
        end
  end.

Definition at_ (s : TimeseriesData) (t : datetime) : Q :=
  interp (combine (ts_time s) (ts_data s)) t.

End Ts.

(** ** class Release *)

Definition position : Type := (Q * Q * Q)%type.

(** The class of the instance, as [self.__class__] sees it. *)
Inductive class_tag : Type :=
| cls_Release
| cls_PointLineRelease
| cls_SpatialRelease.

Definition is_cls_Release (c : class_tag) : bool :=
  match c with
  | cls_Release => true
  | _ => false
  end.

Module Release.

(** The attributes of an instance.  [_pos_ts] is written by [rewind] only
    in this class; its content (a position series of [PointLineRelease])
    is kept abstract as a list of key frames. *)
Record t : Type := mk {
  klass : class_tag;
  release_time : option datetime;
  _end_release_time : option datetime;
  _num_elements : option Z;
  _num_per_timestep : option Z;
  _release_mass : pyfloat;
  custom_positions : option (list position);
  _prepared : bool;
  _mass_per_le : pyfloat;
  _release_ts : option TimeseriesData;
  _pos_ts : option (list (datetime * position))
}.

Definition set_release_time (v : option datetime) (r : t) : t :=
  mk (klass r) v (_end_release_time r) (_num_elements r) (_num_per_timestep r)
     (_release_mass r) (custom_positions r) (_prepared r) (_mass_per_le r)
     (_release_ts r) (_pos_ts r).

Definition set_end_release_time (v : option datetime) (r : t) : t :=
  mk (klass r) (release_time r) v (_num_elements r) (_num_per_timestep r)
     (_release_mass r) (custom_positions r) (_prepared r) (_mass_per_le r)
     (_release_ts r) (_pos_ts r).

Definition set_num_elements (v : option Z) (r : t) : t :=
  mk (klass r) (release_time r) (_end_release_time r) v (_num_per_timestep r)
     (_release_mass r) (custom_positions r) (_prepared r) (_mass_per_le r)
     (_release_ts r) (_pos_ts r).

Definition set_num_per_timestep (v : option Z) (r : t) : t :=
  mk (klass r) (release_time r) (_end_release_time r) (_num_elements r) v
     (_release_mass r) (custom_positions r) (_prepared r) (_mass_per_le r)
     (_release_ts r) (_pos_ts r).

Definition set_release_mass (v : pyfloat) (r : t) : t :=
  mk (klass r) (release_time r) (_end_release_time r) (_num_elements r)
     (_num_per_timestep r) v (custom_positions r) (_prepared r)
     (_mass_per_le r) (_release_ts r) (_pos_ts r).

Definition set_custom_positions (v : option (list position)) (r : t) : t :=
  mk (klass r) (release_time r) (_end_release_time r) (_num_elements r)
     (_num_per_timestep r) (_release_mass r) v (_prepared r)
     (_mass_per_le r) (_release_ts r) (_pos_ts r).

Definition set_prepared (v : bool) (r : t) : t :=
  mk (klass r) (release_time r) (_end_release_time r) (_num_elements r)
     (_num_per_timestep r) (_release_mass r) (custom_positions r) v
     (_mass_per_le r) (_release_ts r) (_pos_ts r).

Definition set_mass_per_le (v : pyfloat) (r : t) : t :=
  mk (klass r) (release_time r) (_end_release_time r) (_num_elements r)
     (_num_per_timestep r) (_release_mass r) (custom_positions r)
     (_prepared r) v (_release_ts r) (_pos_ts r).

Definition set_release_ts (v : option TimeseriesData) (r : t) : t :=
  mk (klass r) (release_time r) (_end_release_time r) (_num_elements r)
     (_num_per_timestep r) (_release_mass r) (custom_positions r)
     (_prepared r) (_mass_per_le r) v (_pos_ts r).

Definition set_pos_ts (v : option (list (datetime * position))) (r : t) : t :=
  mk (klass r) (release_time r) (_end_release_time r) (_num_elements r)
     (_num_per_timestep r) (_release_mass r) (custom_positions r)
     (_prepared r) (_mass_per_le r) (_release_ts r) v.

(** [rewind]. *)
Definition rewind : M t unit :=
  modify (set_prepared false) ;;
  modify (set_mass_per_le 0%Q) ;;
  modify (set_release_ts None) ;;
  modify (set_pos_ts None).

(** Property [release_mass] and its setter.  The guard
    [val is None or val < 0] is false for a NaN, which is stored. *)
Definition release_mass (r : t) : pyfloat := _release_mass r.

Definition release_mass_setter (val : option pyfloat) : M t unit :=
  let val :=
    match val with
    | None => Fin 0
    | Some v => if Float.ltb v 0 then Fin 0 else v
    end in
  modify (set_release_mass val).

(** Property [num_per_timestep] and its setter.  The guard
    [val is not None or val < 0] evaluates [None < 0] when [val] is
    [None], which Python 3 refuses with a [TypeError]; the attribute has
    been assigned by then. *)
Definition num_per_timestep (r : t) : option Z := _num_per_timestep r.

Definition num_per_timestep_setter (val : option Z) : M t unit :=
  modify (set_num_per_timestep val) ;;
  match val with
  | Some _ => modify (set_num_elements None)
  | None =>
      raise (TypeError "'<' not supported between instances of 'NoneType' and 'int'")
  end.

(** Property [num_elements] and its setter. *)
Definition num_elements (r : t) : option Z := _num_elements r.

Definition num_elements_setter (val : option Z) : M t unit :=
  match val with
  | None =>
      modify (set_num_elements val) ;;
      npt <- gets _num_per_timestep ;;
      match npt with
      | None => modify (set_num_per_timestep (Some 1))
      | Some _ => ret tt
      end
  | Some v =>
      if v <? 0
      then raise (ValueError "number of elements cannot be less than 0")
      else modify (set_num_elements val)
  end ;;
  match val with
  | Some _ => modify (set_num_per_timestep None)
  | None => ret tt
  end.

(** Property [end_release_time] and its setter.  Comparing or subtracting
    [None] and a [datetime] is a [TypeError]. *)
Definition end_release_time (r : t) : option datetime :=
  match _end_release_time r with
  | None => release_time r
  | Some e => Some e
  end.

(** Modelled from the spec: [gnome.utilities.time_utils.asdatetime] is
    defined outside [release.py]; release times are [datetime] values or
    [None], and on a [datetime] or [None] it returns its
    argument. *)
Definition asdatetime (v : option datetime) : option datetime := v.

Definition end_release_time_setter (val : option datetime) : M t unit :=
  let val := asdatetime val in
  match val with
  | None => ret tt
  | Some e =>
      rt <- gets release_time ;;
      match rt with
      | None =>
          raise (TypeError "'>' not supported between instances of 'NoneType' and 'datetime.datetime'")
      | Some s =>
          when (e <? s)
            (raise (ValueError "end_release_time must be greater than release_time"))
      end
  end ;;
  modify (set_end_release_time val).

(** Property [release_duration], in seconds. *)
Definition release_duration (r : t) : result Q :=
  match end_release_time r with
  | None => inr 0%Q
  | Some e =>
      match release_time r with
      | None =>
          inl (TypeError "unsupported operand type(s) for -: 'datetime.datetime' and 'NoneType'")
      | Some s => inr (total_seconds (e - s))
      end
  end.

(** [get_num_release_time_steps(ts)]. *)
Definition get_num_release_time_steps (ts : Z) (r : t) : result Z :=
  d <~ release_duration r ;;
  if ts =? 0 then inl ZeroDivisionError
  else
    let rts := Qceiling (d / inject_Z ts) in
    inr (if rts =? 0 then 1 else rts).

(** [LE_timestep_ratio(ts)]. *)
Definition LE_timestep_ratio (ts : Z) (r : t) : result Q :=
  match num_elements r, num_per_timestep r with
  | None, Some npt => inr (inject_Z npt)
  | None, None =>
      inl (TypeError "unsupported operand type(s) for *: 'float' and 'NoneType'")
  | Some n, _ =>
      steps <~ get_num_release_time_steps ts r ;;
      inr (1 * inject_Z n / inject_Z steps)%Q
  end.

Definition need_datetime (what : string) (o : option datetime) : result datetime :=
  match o with
  | Some d => inr d
  | None => inl (TypeError what)
  end.

(** [generate_release_timeseries(num_ts, max_release, ts)] reads the
    object, builds the sample times [t] and values, and ends with the one
    assignment to [self._release_ts].  [release_timeseries] is the value
    it assigns.  [Time] and [TimeseriesData] are containers of the sample
    times and values; the name given to the series is left out. *)
Definition sample_times (num_ts ts : Z) (r : t) : result (list datetime) :=
  if num_ts =? 1 then
    d <~ release_duration r ;;
    s <~ need_datetime "release_time is None" (release_time r) ;;
    e <~ need_datetime "end_release_time is None" (end_release_time r) ;;
    if Qeq_bool d 0
    then inr [s; e + timedelta_seconds 1]
    else inr [s; e]
  else
    match range (num_ts + 1) with
    | [] => inl IndexError
    | steps =>
        s <~ need_datetime "release_time is None" (release_time r) ;;
        e <~ need_datetime "end_release_time is None" (end_release_time r) ;;
        inr (removelast (map (fun step => s + timedelta_seconds (ts * step)) steps)
               ++ [e])
    end.

Definition release_timeseries (num_ts max_release ts : Z) (r : t)
  : result TimeseriesData :=
  times <~ sample_times num_ts ts r ;;
  d <~ release_duration r ;;
  if Qeq_bool d 0
  then inr (mkTimeseriesData times (Np.full (length times) max_release))
  else inr (mkTimeseriesData times
              (map Np.astype_int
                 (Np.linspace 0 (inject_Z max_release) (num_ts + 1)))).


Definition generate_release_timeseries (num_ts max_release ts : Z) : M t unit :=
  series <- lift (release_timeseries num_ts max_release ts) ;;
  modify (set_release_ts (Some series)).

(** [num_elements_after_time(current_time, time_step)]. *)
Definition num_elements_after_time (current_time : datetime) (time_step : Z)
  (r : t) : result Z :=
  if negb (_prepared r) then inr 0
  else
    s <~ need_datetime "'<' not supported between instances of 'datetime.datetime' and 'NoneType'"
           (release_time r) ;;
    if current_time <? s then inr 0
    else
      match _release_ts r with
      | None => inl AttributeError
      | Some series =>
          inr (Qceiling (Ts.at_ series (current_time + timedelta_seconds time_step)))
      end.

(** The message of the [ValueError] below.  Its literal runs over a
    backslash and a line break, so the indentation of the second line is
    part of it. *)
Definition msg_not_enough_LEs : string :=
  "Not enough LEs: Number of LEs must at least                 be equal to the number of timesteps in the release".

(** The local [max_release] of [prepare_for_model_run].  When
    [num_per_timestep] is [None] the ratio check has already required
    [num_elements]; the [TypeError] of the last case is never reached. *)
Definition max_release (num_ts : Z) (r : t) : result Z :=
  match num_per_timestep r, num_elements r with
  | Some n, _ => inr (n * num_ts)
  | None, Some n => inr n
  | None, None => inl (TypeError "max_release is None")
  end.

(** [prepare_for_model_run(ts)], after its first statement
    [if self._prepared: self.rewind()].  The split lets a subclass run the
    same body after its own [rewind]. *)
Definition prepare_after_rewind (ts : Z) : M t unit :=
  ratio <- lift (LE_timestep_ratio ts) ;;
  when (Qlt_bool ratio 1) (raise (ValueError msg_not_enough_LEs)) ;;
  num_ts <- lift (get_num_release_time_steps ts) ;;
  max_release <- lift (max_release num_ts) ;;
  generate_release_timeseries num_ts max_release ts ;;
  rm <- gets release_mass ;;
  (if max_release =? 0 then raise ZeroDivisionError
   else modify (set_mass_per_le (Float.div (Float.mul rm 1) (inject_Z max_release)))) ;;
  k <- gets klass ;;
  when (is_cls_Release k) (modify (set_prepared true)).

Definition prepare_for_model_run (ts : Z) : M t unit :=
  p <- gets _prepared ;;
  when p rewind ;;
  prepare_after_rewind ts.

(** The object before [__init__] has assigned anything. *)
Definition blank (k : class_tag) : t :=
  mk k None None None None 0%Q None false 0%Q None None.

(** [__init__].  [now] is what [datetime.now()] returns if it is called.
    The call to the initialiser of [GnomeId] and the registration of array
    types do not touch the attributes modelled here. *)
Definition __init__ (now : datetime) (release_time : option datetime)
  (num_elements_arg num_per_timestep_arg : option Z)
  (end_release_time : option datetime)
  (custom_positions : option (list position)) (release_mass_arg : option pyfloat)
  : M t unit :=
  modify (set_num_per_timestep None) ;;
  modify (set_num_elements None) ;;
  let num_elements_arg :=
    match num_elements_arg, num_per_timestep_arg with
    | None, None => Some 1000
    | _, _ => num_elements_arg
    end in
  match num_elements_arg, num_per_timestep_arg with
  | Some _, Some _ =>
      raise (TypeError "Either num_elements released or a release rate, defined by num_per_timestep must be given, not both")
  | _, _ => ret tt
  end ;;
  modify (set_num_per_timestep num_per_timestep_arg) ;;
  num_elements_setter num_elements_arg ;;
  modify (set_release_time (asdatetime release_time)) ;;
  end_release_time_setter (asdatetime end_release_time) ;;
  rt <- gets Release.release_time ;;
  match rt with
  | None => modify (set_release_time (Some now))
  | Some _ => ret tt
  end ;;
  release_mass_setter release_mass_arg ;;
  modify (set_custom_positions custom_positions) ;;
  rewind.

(** [Release(...)]: the new instance, unless [__init__] raises. *)
Definition new (now : datetime) (release_time : option datetime)
  (num_elements_arg num_per_timestep_arg : option Z)
  (end_release_time : option datetime)
  (custom_positions : option (list position)) (release_mass_arg : option pyfloat)
  : result t :=
  match __init__ now release_time num_elements_arg num_per_timestep_arg
          end_release_time custom_positions release_mass_arg (blank cls_Release) with
  | (r, inr _) => inr r
  | (_, inl e) => inl e
  end.

(** *** [initialize_LEs] *)

(** The arrays of the spill container the release fills in. *)
Record ElementBatch : Type := mkBatch {
  positions : list position;
  mass : list pyfloat;
  init_mass : list pyfloat
}.

(** First index of [slice(-to_rel, None, 1)] on an array of [len] rows. *)
Definition slice_start (to_rel : Z) (len : nat) : nat :=
  if 0 <? to_rel then len - Z.to_nat to_rel
  else Nat.min (Z.to_nat (- to_rel)) len.

(** [a[sl] = rows]: the shapes must agree, a single row is broadcast. *)
Definition assign_rows {A : Type} (to_rel : Z) (a rows : list A) : result (list A) :=
  let start := slice_start to_rel (length a) in
  let n := (length a - start)%nat in
  if (length rows =? n)%nat then inr (firstn start a ++ rows)
  else
    match rows with
    | [x] => inr (firstn start a ++ repeat x n)
    | _ => inl (ValueError "could not broadcast input array")
    end.

(** [a[sl] = v] for a scalar. *)
Definition assign_scalar {A : Type} (to_rel : Z) (a : list A) (v : A) : list A :=
  let start := slice_start to_rel (length a) in
  firstn start a ++ repeat v (length a - start).

(** [initialize_LEs(to_rel, data, current_time, time_step)].
    [rand i] is the [i]-th number the random source hands out;
    [np.random.randint(0, n, rem)] reduces [rem] of them modulo [n].
    [custom_positions] is read as the method uses it: a sequence of rows
    that is false when empty, has a [len], can be tiled and can be indexed
    by an array of indices.  (A plain Python list refuses the last, an
    [ndarray] of several rows the first; either way the method raises
    before it writes anything, which is also what the model says whenever
    [to_rel] is not the number of positions.) *)
Definition initialize_LEs (rand : nat -> nat) (to_rel : Z) (data : ElementBatch)
  (current_time : datetime) (time_step : Z) (r : t) : result ElementBatch :=
  match custom_positions r with
  | None | Some [] => inl (ValueError "No positions to release particles from")
  | Some locs =>
      let num_locs := Z.of_nat (length locs) in
      if to_rel =? 0 then inl ZeroDivisionError
      else
        let qt := num_locs / to_rel in
        let rem := num_locs mod to_rel in
        if qt <? 0 then inl (ValueError "negative dimensions are not allowed")
        else
          let qt_pos := Np.tile locs (Z.to_nat qt) in
          let rem_pos :=
            map (fun i => nth (rand i mod length locs)%nat locs (0, 0, 0)%Q)
                (seq 0 (Z.to_nat rem)) in
          let pos := qt_pos ++ rem_pos in
          if negb (Z.of_nat (length pos) =? to_rel) then inl AssertionError
          else
            p <~ assign_rows to_rel (positions data) pos ;;
            inr (mkBatch p
                   (assign_scalar to_rel (mass data) (_mass_per_le r))
                   (assign_scalar to_rel (init_mass data) (_mass_per_le r)))
  end.

End Release.

(** ** class SpatialRelease *)

(** The functions of [gnome.utilities.geometry.geo_routines] that the class
    calls.  The module is defined outside [release.py], so the development is
    parametric in it: any triangulation and any area functions will do.
    [geo_area_of_polygon] returns [None] where the Python function returns
    NaN; [check_valid_polygon] returns the exception it raises, if any. *)
Class GeoRoutines : Type := {
  polygon : Type;
  triangle : Type;
  triangulate_poly : polygon -> list triangle;
  triangle_area : triangle -> Q;
  geo_area_of_polygon : polygon -> option Q;
  check_valid_polygon : polygon -> result unit
}.

Definition is_None {A : Type} (o : option A) : bool :=
  match o with
  | None => true
  | Some _ => false
  end.

(** Truth value of a list-or-[None] in a condition. *)
Definition truthy {A : Type} (o : option (list A)) : bool :=
  match o with
  | Some (_ :: _) => true
  | _ => false
  end.

(** [for x in xs: f(x)] for an [f] that may raise. *)
Fixpoint for_each {A : Type} (f : A -> result unit) (xs : list A) : result unit :=
  match xs with
  | [] => inr tt
  | x :: rest => _ <~ f x ;; for_each f rest
  end.

(** [[f(x) for x in xs]] for an [f] that may raise. *)
Fixpoint map_result {A B : Type} (f : A -> result B) (xs : list A) : result (list B) :=
  match xs with
  | [] => inr []
  | x :: rest => y <~ f x ;; ys <~ map_result f rest ;; inr (y :: ys)
  end.

Module SpatialRelease.
Section WithGeoRoutines.

Context {G : GeoRoutines}.

(** A feature of the collection: a geometry and the two properties the
    class reads, ['weight'] and ['thickness'] ([None] when absent). *)
Record Feature : Type := mkFeature {
  geometry : polygon;
  weight : option Q;
  thickness : option Q
}.

Record t : Type := mk {
  base : Release.t;
  features : list Feature;
  _tris : option (list triangle);
  _weights : option (list Q)
}.

Definition set_base (b : Release.t) (s : t) : t :=
  mk b (features s) (_tris s) (_weights s).

Definition set_tris (v : option (list triangle)) (s : t) : t :=
  mk (base s) (features s) v (_weights s).

Definition set_weights (v : option (list Q)) (s : t) : t :=
  mk (base s) (features s) (_tris s) v.

(** Properties [polygons], [thicknesses] and [weights]. *)
Definition polygons (s : t) : list polygon := map geometry (features s).

Definition thicknesses (s : t) : option (list (option Q)) :=
  let rv := map thickness (features s) in
  if forallb is_None rv then None else Some rv.

Definition weights (s : t) : option (list (option Q)) :=
  let rv := map weight (features s) in
  if forallb is_None rv then None else Some rv.

(** [rewind] of this class ([_pos_ts] is left alone). *)
Definition rewind : M t unit :=
  modify (fun s => set_base (Release.set_prepared false (base s)) s) ;;
  modify (fun s => set_base (Release.set_mass_per_le 0%Q (base s)) s) ;;
  modify (fun s => set_base (Release.set_release_ts None (base s)) s) ;;
  modify (set_tris None) ;;
  modify (set_weights None).

(** Modelled from the spec: [geo_routines.poly_area_weight] is defined
    outside [release.py].  By the specification a triangle's weight is its parent's
    weight times "triangle_area/polygon_area": the function returns each
    triangle's share of the total area of the triangles it is given. *)
Definition poly_area_weight (tris : list triangle) : list Q :=
  let total := Qsum (map triangle_area tris) in
  map (fun tri => (triangle_area tri / total)%Q) tris.

(** The per-polygon loop of [get_polys_as_tris]: [w * tri_weight] is a
    [TypeError] when the weight is [None]. *)
Fixpoint scale_tris (pws : list (polygon * option Q))
  : result (list triangle * list Q) :=
  match pws with
  | [] => inr ([], [])
  | (p, w) :: rest =>
      let tris := triangulate_poly p in
      ws <~ map_result
              (fun tri_weight =>
                 match w with
                 | Some w => inr (w * tri_weight)%Q
                 | None =>
                     inl (TypeError "unsupported operand type(s) for *: 'NoneType' and 'float'")
                 end)
              (poly_area_weight tris) ;;
      acc <~ scale_tris rest ;;
      inr (tris ++ fst acc, ws ++ snd acc)
  end.

(** [get_polys_as_tris(polys, weights)]. *)
Definition get_polys_as_tris (polys : list polygon)
  (weights : option (list (option Q))) (s : t) : result (list triangle * list Q) :=
  res <~
    match weights with
    | Some ws =>
        if negb (length ws =? length polys)%nat
        then inl (ValueError "Number of weights and polygons are not equal")
        else scale_tris (combine polys ws)
    | None =>
        let tris := concat (map triangulate_poly (polygons s)) in
        inr (tris, poly_area_weight tris)
    end ;;
  if Np.isclose (Qsum (snd res)) 1 then inr res else inl AssertionError.

(** [compute_distribution()].  Dividing by a zero total volume is the
    [ZeroDivisionError] of Python floats. *)
Definition compute_distribution (s : t) : result (list Q) :=
  let areas := map geo_area_of_polygon (polygons s) in
  if existsb is_None areas
  then inl (ValueError "Invalid polygon. Area computed is NaN")
  else
    match thicknesses s with
    | None => inl (TypeError "zip argument #2 must support iteration")
    | Some ths =>
        volumes <~ map_result
                     (fun at_ : option Q * option Q =>
                        match at_ with
                        | (Some a, Some th) => inr (a * th)%Q
                        | _ =>
                            inl (TypeError "unsupported operand type(s) for *: 'float' and 'NoneType'")
                        end)
                     (combine areas ths) ;;
        let total_vol := Qsum volumes in
        map_result
          (fun v => if Qeq_bool total_vol 0 then inl ZeroDivisionError
                    else inr (v / total_vol)%Q)
          volumes
    end.

(** The part of [prepare_for_model_run] that follows the call to the
    method of the base class: the polygons are checked and triangulated
    under the weights that apply. *)
Definition triangulate_features : M t unit :=
  polys <- gets polygons ;;
  lift (fun _ => for_each check_valid_polygon polys) ;;
  th <- gets thicknesses ;;
  ws <- (if truthy th
         then d <- lift compute_distribution ;; ret (Some (map Some d))
         else gets weights) ;;
  polys <- gets polygons ;;
  res <- lift (get_polys_as_tris polys ws) ;;
  modify (set_tris (Some (fst res))) ;;
  modify (set_weights (Some (snd res))) ;;
  modify (fun s => set_base (Release.set_prepared true (base s)) s).

(** [prepare_for_model_run(ts)]: the method of the base class, with
    [self.rewind] bound to [rewind] above, then the triangulation. *)
Definition prepare_for_model_run (ts : Z) : M t unit :=
  p <- gets (fun s => Release._prepared (base s)) ;;
  when p rewind ;;
  zoom base set_base (Release.prepare_after_rewind ts) ;;
  triangulate_features.

End WithGeoRoutines.
End SpatialRelease.

(** ** Clients of a Release

    What a caller can do to an instance through its public interface: assign
    its attributes and properties, rewind it, prepare it.  A caller may catch
    the exception a call raises and go on; the instance is then in the state
    the failed call left it in. *)

Inductive call : Type :=
| assign_release_time (v : option datetime)
| assign_end_release_time (v : option datetime)
| assign_num_elements (v : option Z)
| assign_num_per_timestep (v : option Z)
| assign_release_mass (v : option pyfloat)
| assign_custom_positions (v : option (list position))
| call_rewind
| call_prepare_for_model_run (ts : Z).

Definition run_call (c : call) : M Release.t unit :=
  match c with
  | assign_release_time v => modify (Release.set_release_time v)
  | assign_end_release_time v => Release.end_release_time_setter v
  | assign_num_elements v => Release.num_elements_setter v
  | assign_num_per_timestep v => Release.num_per_timestep_setter v
  | assign_release_mass v => Release.release_mass_setter v
  | assign_custom_positions v => modify (Release.set_custom_positions v)
  | call_rewind => Release.rewind
  | call_prepare_for_model_run ts => Release.prepare_for_model_run ts
  end.

Definition run_calls (cs : list call) (r : Release.t) : Release.t :=
  fold_left (fun r c => fst (run_call c r)) cs r.

(** ** Vocabulary of the properties *)

(** The instance [prepare_for_model_run] starts from once its first
    statement has run: rewound if it was prepared. *)
Definition rewound (r : Release.t) : Release.t :=
  if Release._prepared r then fst (Release.rewind r) else r.

(** The instance a successful [prepare_for_model_run] leaves, given the time
    series and the [max_release] it computed. *)
Definition after_prepare (series : TimeseriesData) (m : Z) (r : Release.t) : Release.t :=
  let r1 := Release.set_mass_per_le
              (Float.div (Float.mul (Release.release_mass r) 1) (inject_Z m))
              (Release.set_release_ts (Some series) r) in
  if is_cls_Release (Release.klass r) then Release.set_prepared true r1 else r1.

Definition raises_ValueError {A : Type} (res : result A) : Prop :=
  exists msg, res = inl (ValueError msg).

(** The instance of the scenario: ten elements released over the hour that
    starts at [T]. *)
Definition scenario (T : datetime) : Release.t :=
  Release.mk cls_Release (Some T) (Some (T + timedelta_seconds 3600)) (Some 10) None 0
    None false 0 None None.



Definition uneven_release : Release.t :=
  Release.mk cls_Release (Some 0) (Some (timedelta_seconds 5000)) (Some 10) None 0
    None false 0 None None.


(** A prepared instance with two custom positions. *)
Definition two_positions : Release.t :=
  Release.mk cls_Release (Some 0) None (Some 1000) None 0
    (Some [(0, 0, 0)%Q; (1, 1, 0)%Q]) true 0 None None.

(** ** Vocabulary for spatial releases *)

(** Area times thickness of a feature, the volume of oil it stands for. *)
Definition volume `{G : GeoRoutines} (f : SpatialRelease.Feature) : Q :=
  match geo_area_of_polygon (SpatialRelease.geometry f), SpatialRelease.thickness f with
  | Some a, Some th => (a * th)%Q
  | _, _ => 0%Q
  end.

(** Total area of the triangles a polygon is cut into. *)
Definition triangulated_area `{G : GeoRoutines} (p : polygon) : Q :=
  Qsum (map triangle_area (triangulate_poly p)).

(** The spatial release once the first statement of
    [prepare_for_model_run] has run. *)
Definition srewound `{G : GeoRoutines} (s : SpatialRelease.t) : SpatialRelease.t :=
  if Release._prepared (SpatialRelease.base s) then fst (SpatialRelease.rewind s) else s.

(** A valid polygon set, in each of the three weighting modes: every
    polygon carries a thickness (and the total volume is not zero); or none
    does and every polygon carries an explicit weight, the weights adding
    up to 1; or the polygons carry neither.  Triangulated areas are not
    zero, so that the shares of the triangles are defined. *)
Inductive valid_polygon_set `{G : GeoRoutines} (s : SpatialRelease.t) : Prop :=
| valid_by_thickness :
    SpatialRelease.features s <> [] ->
    (forall f, In f (SpatialRelease.features s) ->
               SpatialRelease.thickness f <> None
               /\ geo_area_of_polygon (SpatialRelease.geometry f) <> None
               /\ ~ (triangulated_area (SpatialRelease.geometry f) == 0)%Q) ->
    ~ (Qsum (map volume (SpatialRelease.features s)) == 0)%Q ->
    valid_polygon_set s
| valid_by_weights (qs : list Q) :
    SpatialRelease.features s <> [] ->
    (forall f, In f (SpatialRelease.features s) ->
               SpatialRelease.thickness f = None
               /\ ~ (triangulated_area (SpatialRelease.geometry f) == 0)%Q) ->
    map SpatialRelease.weight (SpatialRelease.features s) = map Some qs ->
    (Qsum qs == 1)%Q ->
    valid_polygon_set s
| valid_by_area :
    (forall f, In f (SpatialRelease.features s) ->
               SpatialRelease.thickness f = None /\ SpatialRelease.weight f = None) ->
    ~ (Qsum (map triangle_area
               (concat (map triangulate_poly (SpatialRelease.polygons s)))) == 0)%Q ->
    valid_polygon_set s.

(** The same instance with the explicit weights removed from its features. *)
Definition erase_weights `{G : GeoRoutines} (s : SpatialRelease.t) : SpatialRelease.t :=
  SpatialRelease.mk (SpatialRelease.base s)
    (map (fun f => SpatialRelease.mkFeature (SpatialRelease.geometry f) None
                     (SpatialRelease.thickness f))
         (SpatialRelease.features s))
    (SpatialRelease._tris s) (SpatialRelease._weights s).

(** An instance of the geometry routines to compute with: a polygon is the
    list of the areas of its triangles. *)
Definition area_lists : GeoRoutines :=
  {| polygon := list Q;
     triangle := Q;
     triangulate_poly := fun p => p;
     triangle_area := fun a => a;
     geo_area_of_polygon := fun p => Some (Qsum p);
     check_valid_polygon := fun _ => inr tt |}.

(** Two polygons of area 2, of thickness 2 and 1, which also carry
    explicit weights of one half each. *)
Definition two_slicks : @SpatialRelease.t area_lists :=
  SpatialRelease.mk
    (Release.mk cls_SpatialRelease (Some 0) None (Some 1000) None 30 None false 0 None None)
    [SpatialRelease.mkFeature ([1; 1]%Q : @polygon area_lists) (Some (1 # 2)) (Some 2%Q);
     SpatialRelease.mkFeature ([2]%Q : @polygon area_lists) (Some (1 # 2)) (Some 1%Q)]
    None None.

(** ** class PointLineRelease *)

(** The rows of an array built column by column. *)
Definition zip3 (xs ys zs : list Q) : list position :=
  map (fun c => (fst (fst c), snd (fst c), snd c)) (combine (combine xs ys) zs).

(** [np.all(a == b)] on two points. *)
Definition position_eqb (a b : position) : bool :=
  Qeq_bool (fst (fst a)) (fst (fst b))
  && Qeq_bool (snd (fst a)) (snd (fst b))
  && Qeq_bool (snd a) (snd b).

Module PointLineRelease.

(** The attributes the class adds to those of [Release].  The setter of
    [start_position] reshapes its argument into a point, so that an
    instance always has one. *)
Record t : Type := mk {
  base : Release.t;
  _start_position : position;
  _end_position : option position
}.

Definition set_base (b : Release.t) (s : t) : t :=
  mk b (_start_position s) (_end_position s).

(** Properties [start_position], [end_position] and [is_pointsource]. *)
Definition start_position (s : t) : position := _start_position s.

Definition end_position (s : t) : position :=
  match _end_position s with
  | None => start_position s
  | Some p => p
  end.

Definition is_pointsource (s : t) : bool :=
  position_eqb (end_position s) (start_position s).

(** [PointLineRelease(...)].  [__init__] calls the initialiser of the base
    class without its [num_per_timestep] argument, then assigns the two
    positions; [np.array(None, dtype=float).reshape((3, ))] is a
    [ValueError].  [custom_positions] can reach the base class through
    the keyword arguments left over. *)
Definition new (now : datetime) (release_time : option datetime)
  (start_position : option position)
  (num_elements num_per_timestep : option Z) (end_release_time : option datetime)
  (end_position : option position) (release_mass : option pyfloat)
  (custom_positions : option (list position)) : result t :=
  match Release.__init__ now release_time num_elements None end_release_time
          custom_positions release_mass (Release.blank cls_PointLineRelease) with
  | (_, inl e) => inl e
  | (b, inr _) =>
      match start_position with
      | None => inl (ValueError "cannot reshape array of size 1 into shape (3,)")
      | Some p => inr (mk b p end_position)
      end
  end.

(** [rewind], the same statements as in the base class. *)
Definition rewind : M t unit := zoom base set_base Release.rewind.

(** [generate_release_timeseries(num_ts, max_release, ts)]: the method of
    the base class, then the position series over the same sample times,
    one [np.linspace] per coordinate. *)
Definition generate_release_timeseries (num_ts max_release ts : Z) : M t unit :=
  zoom base set_base (Release.generate_release_timeseries num_ts max_release ts) ;;
  series <- lift (fun s => match Release._release_ts (base s) with
                           | Some series => inr series
                           | None => inl AttributeError
                           end) ;;
  let t := ts_time series in
  sp <- gets start_position ;;
  ep <- gets end_position ;;
  let lon_ts := Np.linspace (fst (fst sp)) (fst (fst ep)) (num_ts + 1) in
  let lat_ts := Np.linspace (snd (fst sp)) (snd (fst ep)) (num_ts + 1) in
  let z_ts := Np.linspace (snd sp) (snd ep) (num_ts + 1) in
  modify (fun s =>
            set_base (Release.set_pos_ts (Some (combine t (zip3 lon_ts lat_ts z_ts)))
                        (base s)) s).

(** [prepare_for_model_run(ts)]: the method of the base class, in which
    [self.rewind] and [self.generate_release_timeseries] are the methods
    above, then [self._prepared = True]. *)
Definition prepare_for_model_run (ts : Z) : M t unit :=
  p <- gets (fun s => Release._prepared (base s)) ;;
  when p rewind ;;
  ratio <- lift (fun s => Release.LE_timestep_ratio ts (base s)) ;;
  when (Qlt_bool ratio 1) (raise (ValueError Release.msg_not_enough_LEs)) ;;
  num_ts <- lift (fun s => Release.get_num_release_time_steps ts (base s)) ;;
  max_release <- lift (fun s => Release.max_release num_ts (base s)) ;;
  generate_release_timeseries num_ts max_release ts ;;
  rm <- gets (fun s => Release.release_mass (base s)) ;;
  (if max_release =? 0 then raise ZeroDivisionError
   else modify (fun s =>
                  set_base (Release.set_mass_per_le
                              (Float.div (Float.mul rm 1) (inject_Z max_release))
                              (base s)) s)) ;;
  k <- gets (fun s => Release.klass (base s)) ;;
  when (is_cls_Release k)
    (modify (fun s => set_base (Release.set_prepared true (base s)) s)) ;;
  modify (fun s => set_base (Release.set_prepared true (base s)) s).

Section WithPositionSeries.

(** [TimeseriesVector.at(None, t, extrapolate=True)], defined outside
    [release.py]: the position a series of key frames gives at a time. *)
Variable pos_at : list (datetime * position) -> datetime -> position.

(** [initialize_LEs(to_rel, data, current_time, time_step)]: the new
    elements are spread evenly between the positions of the source at the
    start and at the end of the time step.  [np.linspace] refuses a
    negative number of samples; the three columns are assigned from arrays
    of the same length, so that the first assignment fails if any does. *)
Definition initialize_LEs (to_rel : Z) (data : Release.ElementBatch)
  (current_time : datetime) (time_step : Z) (s : t) : result Release.ElementBatch :=
  let time_step := if time_step =? 0 then 1 else time_step in
  match Release._pos_ts (base s) with
  | None => inl AttributeError
  | Some pos_ts =>
      let start_position := pos_at pos_ts current_time in
      let end_position := pos_at pos_ts (current_time + timedelta_seconds time_step) in
      if to_rel <? 0 then inl (ValueError "Number of samples must be non-negative")
      else
        let rows :=
          zip3 (Np.linspace (fst (fst start_position)) (fst (fst end_position)) to_rel)
               (Np.linspace (snd (fst start_position)) (snd (fst end_position)) to_rel)
               (Np.linspace (snd start_position) (snd end_position) to_rel) in
        p <~ Release.assign_rows to_rel (Release.positions data) rows ;;
        inr (Release.mkBatch p
               (Release.assign_scalar to_rel (Release.mass data)
                  (Release._mass_per_le (base s)))
               (Release.assign_scalar to_rel (Release.init_mass data)
                  (Release._mass_per_le (base s))))
  end.

End WithPositionSeries.

End PointLineRelease.

(** ** Functions that build a Release *)

(** [GridRelease(release_time, bounds, resolution)]: a Release whose custom
    positions are the points of a [resolution] by [resolution] grid over
    the bounding box, at [z = 0]; [np.meshgrid] and [.flat] enumerate them
    latitude by latitude.  [np.linspace] refuses a negative number of
    samples. *)
Definition GridRelease (now : datetime) (release_time : option datetime)
  (bounds : (Q * Q) * (Q * Q)) (resolution : Z) : result Release.t :=
  if resolution <? 0
  then inl (ValueError "Number of samples must be non-negative")
  else
    let lon := Np.linspace (fst (fst bounds)) (fst (snd bounds)) resolution in
    let lat := Np.linspace (snd (fst bounds)) (snd (snd bounds)) resolution in
    let positions :=
      flat_map (fun la => map (fun lo => (lo, la, 0%Q)) lon) lat in
    Release.new now release_time (Some (Z.of_nat (length positions))) None None
      (Some positions) (Some (Fin 0)).

(** [release_from_splot_data(release_time, filename)], from the rows of
    three columns that the file holds.  [np.loadtxt(filename)] returns a
    two-dimensional array only for two rows or more: for a single row, or
    none, the array has one dimension and [pos[:, 2]] is an [IndexError].
    Otherwise each position is repeated as often as its third column says,
    at [z = 0]; [np.repeat] refuses a negative count.  The number of
    elements is left to the default of [Release]. *)
Definition release_from_splot_data (now : datetime) (release_time : option datetime)
  (rows : list position) : result Release.t :=
  if (length rows <? 2)%nat then inl IndexError
  else
    let num_per_pos := map (fun p => Np.astype_int (snd p)) rows in
    let pos := map (fun p => (fst (fst p), snd (fst p), 0%Q)) rows in
    if existsb (fun n => n <? 0) num_per_pos
    then inl (ValueError "repeats may not contain negative values.")
    else
      let start_positions :=
        flat_map (fun pn => repeat (fst pn) (Z.to_nat (snd pn))) (combine pos num_per_pos) in
      Release.new now release_time None None None (Some start_positions) (Some (Fin 0)).

(** ** Construction of a SpatialRelease *)

Module SpatialReleaseInit.
Section WithGeoRoutines.

Context {G : GeoRoutines}.

(** [geo_routines.load_shapefile], defined outside [release.py]: the
    features of the shapefile bundle, or the exception raised on reading
    it. *)
Variable load_shapefile : string -> result (list SpatialRelease.Feature).

(** [for f, val in zip(feats, vals): f.properties['thickness'] = val]. *)
Fixpoint zip_thickness (feats : list SpatialRelease.Feature) (vals : list Q)
  : list SpatialRelease.Feature :=
  match feats, vals with
  | f :: fs, v :: vs =>
      SpatialRelease.mkFeature (SpatialRelease.geometry f) (SpatialRelease.weight f)
        (Some v) :: zip_thickness fs vs
  | _, _ => feats
  end.

(** [for f, val in zip(feats, vals): f.properties['weight'] = val]. *)
Fixpoint zip_weight (feats : list SpatialRelease.Feature) (vals : list Q)
  : list SpatialRelease.Feature :=
  match feats, vals with
  | f :: fs, v :: vs =>
      SpatialRelease.mkFeature (SpatialRelease.geometry f) (Some v)
        (SpatialRelease.thickness f) :: zip_weight fs vs
  | _, _ => feats
  end.

(** [gen_fc_from_kwargs(kwargs)]: one feature per polygon; the thicknesses,
    then the weights, are attached to the features in order, for as long as
    there are both, when the list given is not empty ([kwargs.get(k,
    False)]).  No names are passed by [__init__]. *)
Definition gen_fc_from_kwargs (polygons : list polygon)
  (weights thicknesses : option (list Q)) : list SpatialRelease.Feature :=
  let feats := map (fun p => SpatialRelease.mkFeature p None None) polygons in
  let feats := if truthy thicknesses
               then zip_thickness feats (match thicknesses with Some v => v | None => [] end)
               else feats in
  if truthy weights
  then zip_weight feats (match weights with Some v => v | None => [] end)
  else feats.

Definition set_features (fc : list SpatialRelease.Feature) (s : SpatialRelease.t)
  : SpatialRelease.t :=
  SpatialRelease.mk (SpatialRelease.base s) fc (SpatialRelease._tris s)
    (SpatialRelease._weights s).

(** The object before [__init__] has assigned anything. *)
Definition blank : SpatialRelease.t :=
  SpatialRelease.mk (Release.blank cls_SpatialRelease) [] None None.

(** [SpatialRelease.__init__].  The keyword arguments left over go to the
    initialiser of the base class; its closing [self.rewind()] is the
    [rewind] of this class, run here after it (on a new object the two
    leave the same attributes). *)
Definition __init__ (filename : option string)
  (features : option (list SpatialRelease.Feature))
  (polygons : option (list polygon)) (weights thicknesses : option (list Q))
  (now : datetime) (release_time : option datetime)
  (num_elements num_per_timestep : option Z) (end_release_time : option datetime)
  (custom_positions : option (list position)) (release_mass : option pyfloat)
  : M SpatialRelease.t unit :=
  match filename, features with
  | Some _, Some _ =>
      raise (ValueError "Cannot pass both a filename and FeatureCollection to SpatialRelease")
  | Some f, None =>
      file_fc <- lift (fun _ => load_shapefile f) ;;
      modify (set_features file_fc)
  | None, Some fc => modify (set_features fc)
  | None, None =>
      match polygons with
      | Some polys =>
          match weights with
          | Some ws =>
              match thicknesses with
              | Some _ =>
                  raise (ValueError "Cannot use both thicknesses and weights in SpatialRelease")
              | None =>
                  when (negb (length ws =? length polys)%nat)
                    (raise (ValueError "Weights must be equal in length to provided Polygons"))
              end
          | None => ret tt
          end ;;
          modify (set_features (gen_fc_from_kwargs polys weights thicknesses))
      | None => raise (ValueError "Must provide polygons to SpatialRelease")
      end
  end ;;
  zoom SpatialRelease.base SpatialRelease.set_base
    (Release.__init__ now release_time num_elements num_per_timestep end_release_time
       custom_positions release_mass) ;;
  SpatialRelease.rewind.

(** [SpatialRelease(...)]: the new instance, unless [__init__] raises. *)
Definition new (filename : option string)
  (features : option (list SpatialRelease.Feature))
  (polygons : option (list polygon)) (weights thicknesses : option (list Q))
  (now : datetime) (release_time : option datetime)
  (num_elements num_per_timestep : option Z) (end_release_time : option datetime)
  (custom_positions : option (list position)) (release_mass : option pyfloat)
  : result SpatialRelease.t :=
  match __init__ filename features polygons weights thicknesses now release_time
          num_elements num_per_timestep end_release_time custom_positions release_mass
          blank with
  | (s, inr _) => inr s
  | (_, inl e) => inl e
  end.

End WithGeoRoutines.
End SpatialReleaseInit.

(** ** Vocabulary of the further properties *)

(** The configuration of a release: what its constructor and setters
    store, as opposed to what [prepare_for_model_run] derives from it. *)
Definition config (r : Release.t)
  : class_tag * option datetime * option datetime * option Z * option Z * pyfloat
    * option (list position) :=
  (Release.klass r, Release.release_time r, Release._end_release_time r,
   Release._num_elements r, Release._num_per_timestep r, Release._release_mass r,
   Release.custom_positions r).

(** The two counts of a release exclude each other, and the total count is
    not negative. *)
Definition counts_consistent (r : Release.t) : Prop :=
  (Release.num_elements r = None \/ Release.num_per_timestep r = None)
  /\ (forall n, Release.num_elements r = Some n -> 0 <= n).

(** The release times are in order: there is a release time, and an end of
    release, if set, does not precede it. *)
Definition times_in_order (r : Release.t) : Prop :=
  exists s, Release.release_time r = Some s
            /\ (forall e, Release._end_release_time r = Some e -> s <= e).

(** ** Instances to compute with *)

(** Twelve elements and 30 kg of oil released over one hour. *)
Definition oil_release : Release.t :=
  Release.mk cls_Release (Some 0) (Some (timedelta_seconds 3600)) (Some 12) None 30
    None false 0 None None.

(** A single element for a release of one hour: too few for time steps
    shorter than the hour. *)
Definition starved_release : Release.t :=
  Release.mk cls_Release (Some 0) (Some (timedelta_seconds 3600)) (Some 1) None 0
    None false 0 None None.

(** A source that moves from the origin to [(2, 4, 0)] during one hour. *)
Definition line_release : PointLineRelease.t :=
  PointLineRelease.mk
    (Release.mk cls_PointLineRelease (Some 0) (Some (timedelta_seconds 3600)) (Some 12)
       None 30 None false 0 None None)
    (0, 0, 0)%Q (Some (2, 4, 0)%Q).

(** A position series read at its first key frame, whatever the time. *)
Definition first_frame (frames : list (datetime * position)) (t : datetime) : position :=
  match frames with
  | (_, p) :: _ => p
  | [] => (0, 0, 0)%Q
  end.

(** Three rows of a spill container, filled with zeros. *)
Definition three_rows : Release.ElementBatch :=
  Release.mkBatch [(0, 0, 0)%Q; (0, 0, 0)%Q; (0, 0, 0)%Q] [Fin 0; Fin 0; Fin 0]
    [Fin 0; Fin 0; Fin 0].

(** Geometry routines for which a polygon without triangles has no area
    (its area is NaN). *)
Definition degenerate_areas : GeoRoutines :=
  {| polygon := list Q;
     triangle := Q;
     triangulate_poly := fun p => p;
     triangle_area := fun a => a;
     geo_area_of_polygon := fun p => match p with
                                     | [] => None
                                     | _ => Some (Qsum p)
                                     end;
     check_valid_polygon := fun _ => inr tt |}.

(** Two slicks of which the second has no measured thickness, and two of
    which the second has no area. *)
Definition patchy_slicks : @SpatialRelease.t area_lists :=
  SpatialRelease.mk
    (Release.mk cls_SpatialRelease (Some 0) None (Some 1000) None 30 None false 0 None None)
    [SpatialRelease.mkFeature ([1; 1]%Q : @polygon area_lists) None (Some 2%Q);
     SpatialRelease.mkFeature ([2]%Q : @polygon area_lists) None None]
    None None.

Definition empty_slick : @SpatialRelease.t degenerate_areas :=
  SpatialRelease.mk
    (Release.mk cls_SpatialRelease (Some 0) None (Some 1000) None 30 None false 0 None None)
    [SpatialRelease.mkFeature ([1; 1]%Q : @polygon degenerate_areas) None (Some 2%Q);
     SpatialRelease.mkFeature ([] : @polygon degenerate_areas) None (Some 1%Q)]
    None None.

(** No shapefile can be read. *)
Definition no_shapefile {G : GeoRoutines} (filename : string)
  : result (list SpatialRelease.Feature) :=
  inl (ValueError "cannot read the shapefile").

(** * Properties *)

(** ** Construction and the setters *)

Ltac run_monad :=
  unfold bind, ret, raise, gets, modify, lift, when, rbind; simpl.

Ltac run_init :=
  unfold Release.__init__, Release.end_release_time_setter,
    Release.num_elements_setter, Release.release_mass_setter, Release.rewind,
    Release.asdatetime;
  run_monad.

Lemma new_inr (now : datetime) (rt : option datetime) (n m : option Z)
  (e : option datetime) (cp : option (list position)) (rm : option pyfloat) (r : Release.t) :
  Release.__init__ now rt n m e cp rm (Release.blank cls_Release) = (r, inr tt) ->
  Release.new now rt n m e cp rm = inr r.
Proof. unfold Release.new. intros ->. reflexivity. Qed.

(** C3, first half: a Release given both [num_elements] and
    [num_per_timestep] is refused, whatever the other arguments are.  The
    exception the code raises for this configuration error is a
    [TypeError]. *)
Lemma init_both_counts_rejected (now : datetime) (rt : option datetime) (n m : Z)
  (e : option datetime) (cp : option (list position)) (rm : option pyfloat) :
  Release.new now rt (Some n) (Some m) e cp rm
  = inl (TypeError "Either num_elements released or a release rate, defined by num_per_timestep must be given, not both").
Proof. reflexivity. Qed.

(** C3, second half: with neither count given and an end of release that
    does not precede its start, construction succeeds and the instance
    releases 1000 elements in total. *)
Lemma init_no_count_defaults (now : datetime) (rt e : option datetime)
  (cp : option (list position)) (rm : option pyfloat) :
  (forall e', e = Some e' -> exists s, rt = Some s /\ s <= e') ->
  exists r, Release.new now rt None None e cp rm = inr r
            /\ Release.num_elements r = Some 1000
            /\ Release.num_per_timestep r = None.
Proof.
  intros Hthen.
  destruct e as [e'|].
  - destruct (Hthen e' eq_refl) as (s & -> & Hle).
    apply Z.ltb_ge in Hle.
    eexists. split.
    + apply new_inr. run_init. rewrite Hle. simpl. reflexivity.
    + split; reflexivity.
  - destruct rt; eexists;
      (split; [apply new_inr; run_init; reflexivity | split; reflexivity]).
Qed.

(** C3: constructing a Release with both [num_elements] and
    [num_per_timestep] raises (the configuration error is Python's
    [TypeError]); with both absent, and consistent release times,
    construction succeeds with [num_elements = 1000]. *)
Theorem C3_construction_counts :
  (forall now rt n m e cp rm,
     exists msg, Release.new now rt (Some n) (Some m) e cp rm = inl (TypeError msg))
  /\ (forall now rt e cp rm,
        (forall e', e = Some e' -> exists s, rt = Some s /\ s <= e') ->
        exists r, Release.new now rt None None e cp rm = inr r
                  /\ Release.num_elements r = Some 1000
                  /\ Release.num_per_timestep r = None).
Proof.
  split.
  - intros. eexists. apply init_both_counts_rejected.
  - intros. now apply init_no_count_defaults.
Qed.

(** C3 at work: no count given, a release from time 3 to time 9. *)
Lemma C3_witness :
  exists r, Release.new 7 (Some 3) None None (Some 9) None None = inr r
            /\ Release.num_elements r = Some 1000
            /\ Release.num_per_timestep r = None.
Proof.
  apply (proj2 C3_construction_counts 7 (Some 3) (Some 9) None None).
  intros e' [= <-]. exists 3. split; [reflexivity|lia].
Defined.

Lemma Qlt_bool_iff (x y : Q) : Qlt_bool x y = true <-> (x < y)%Q.
Proof.
  unfold Qlt_bool. rewrite negb_true_iff.
  split; intros H.
  - apply Qnot_le_lt. intros Hle. apply Qle_bool_iff in Hle. congruence.
  - apply not_true_is_false. intros Hle. apply Qle_bool_iff in Hle.
    exact (Qlt_not_le _ _ H Hle).
Qed.

Lemma Qlt_bool_false_iff (x y : Q) : Qlt_bool x y = false <-> (y <= x)%Q.
Proof.
  unfold Qlt_bool. rewrite negb_false_iff. apply Qle_bool_iff.
Qed.

Lemma geb_zero_iff (v : pyfloat) :
  Float.geb v 0 = true <-> exists q, v = Fin q /\ (0 <= q)%Q.
Proof.
  destruct v as [q|]; simpl.
  - rewrite Qle_bool_iff. split.
    + intros H. now exists q.
    + intros (q' & [= <-] & H). exact H.
  - split; [discriminate|]. intros (q & H & _). discriminate.
Qed.

Lemma release_mass_setter_run (val : option pyfloat) (r : Release.t) :
  exists v, Release.release_mass_setter val r = (Release.set_release_mass v r, inr tt)
            /\ (val <> Some NaN -> Float.geb v 0 = true)
            /\ (val = None \/ (exists q, val = Some (Fin q) /\ (q < 0)%Q) -> v = Fin 0)
            /\ (val = Some NaN -> v = NaN)
            /\ (forall q, v = Fin q -> (0 <= q)%Q).
Proof.
  unfold Release.release_mass_setter.
  destruct val as [[q|]|]; simpl.
  - destruct (Qlt_bool q 0) eqn:E.
    + exists (Fin 0). repeat split; try discriminate. intros q' [= <-]. apply Qle_refl.
    + exists (Fin q). split; [reflexivity|].
      assert (Hq : (0 <= q)%Q) by now apply Qlt_bool_false_iff.
      split; [intros _; simpl; now apply Qle_bool_iff|].
      split; [|split; [discriminate|now intros q' [= <-]]].
      intros [H | (q' & [= <-] & Hlt)]; [discriminate|].
      apply Qlt_bool_iff in Hlt. congruence.
  - exists NaN. repeat split; try discriminate.
    + intros H. now contradiction H.
    + intros [H | (q' & H & _)]; discriminate.
  - exists (Fin 0). repeat split; try discriminate. intros q' [= <-]. apply Qle_refl.
Qed.

Ltac destruct_innermost x :=
  lazymatch x with
  | context [match ?y with _ => _ end] => destruct_innermost y
  | _ => destruct x eqn:?
  end.

(** One step of case analysis on what the program under study branches on. *)
Ltac destruct_scrutinee :=
  match goal with
  | |- context [match ?x with _ => _ end] => destruct_innermost x
  end.

Lemma prepare_keeps_release_mass (ts : Z) (r : Release.t) :
  Release._release_mass (fst (Release.prepare_for_model_run ts r))
  = Release._release_mass r.
Proof.
  unfold Release.prepare_for_model_run, Release.prepare_after_rewind,
    Release.generate_release_timeseries, Release.rewind.
  run_monad.
  repeat (destruct_scrutinee; simpl; try reflexivity).
Qed.

Lemma run_call_release_mass_nonneg (c : call) (r : Release.t) :
  c <> assign_release_mass (Some NaN) ->
  Float.geb (Release._release_mass r) 0 = true ->
  Float.geb (Release._release_mass (fst (run_call c r))) 0 = true.
Proof.
  intros Hc H. destruct c; cbn [run_call]; try exact H.
  - unfold Release.end_release_time_setter. run_monad.
    repeat (destruct_scrutinee; simpl; try exact H).
  - unfold Release.num_elements_setter. run_monad.
    repeat (destruct_scrutinee; simpl; try exact H).
  - unfold Release.num_per_timestep_setter. run_monad.
    repeat (destruct_scrutinee; simpl; try exact H).
  - destruct (release_mass_setter_run v r) as (q & -> & Hq & _). apply Hq. congruence.
  - now rewrite prepare_keeps_release_mass.
Qed.

Lemma run_calls_release_mass_nonneg (cs : list call) (r : Release.t) :
  (forall c, In c cs -> c <> assign_release_mass (Some NaN)) ->
  Float.geb (Release._release_mass r) 0 = true ->
  Float.geb (Release._release_mass (run_calls cs r)) 0 = true.
Proof.
  revert r. induction cs as [|c cs IH]; intros r Hcs H; simpl.
  - exact H.
  - apply IH; [intros c' Hc'; apply Hcs; now right|].
    apply run_call_release_mass_nonneg; [apply Hcs; now left|exact H].
Qed.

Lemma run_call_release_mass_never_negative (c : call) (r : Release.t) :
  (forall q, Release._release_mass r = Fin q -> (0 <= q)%Q) ->
  forall q, Release._release_mass (fst (run_call c r)) = Fin q -> (0 <= q)%Q.
Proof.
  intros H. destruct c; cbn [run_call]; try exact H.
  - unfold Release.end_release_time_setter. run_monad.
    repeat (destruct_scrutinee; simpl; try exact H).
  - unfold Release.num_elements_setter. run_monad.
    repeat (destruct_scrutinee; simpl; try exact H).
  - unfold Release.num_per_timestep_setter. run_monad.
    repeat (destruct_scrutinee; simpl; try exact H).
  - destruct (release_mass_setter_run v r) as (q & -> & _ & _ & _ & Hq). exact Hq.
  - now rewrite prepare_keeps_release_mass.
Qed.

Lemma run_calls_release_mass_never_negative (cs : list call) (r : Release.t) :
  (forall q, Release._release_mass r = Fin q -> (0 <= q)%Q) ->
  forall q, Release._release_mass (run_calls cs r) = Fin q -> (0 <= q)%Q.
Proof.
  revert r. induction cs as [|c cs IH]; intros r H; simpl.
  - exact H.
  - apply IH. now apply run_call_release_mass_never_negative.
Qed.

Lemma init_release_mass (now : datetime) (rt : option datetime) (n m : option Z)
  (e : option datetime) (cp : option (list position)) (rm : option pyfloat) (r : Release.t) :
  Release.new now rt n m e cp rm = inr r ->
  (rm <> Some NaN -> Float.geb (Release._release_mass r) 0 = true)
  /\ (forall q, Release._release_mass r = Fin q -> (0 <= q)%Q).
Proof.
  unfold Release.new, Release.__init__, Release.end_release_time_setter,
    Release.num_elements_setter, Release.rewind, Release.asdatetime,
    Release.release_mass_setter.
  run_monad.
  destruct rm as [[q|]|]; simpl;
    repeat (destruct_scrutinee; simpl; try discriminate);
    intros [= <-]; simpl;
    (split;
     [intros Hrm; try reflexivity; try (exfalso; apply Hrm; reflexivity);
      try (apply Qle_bool_iff; apply Qlt_bool_false_iff; assumption)
     |intros q' Hq'; try discriminate; injection Hq' as <-;
      first [apply Qle_refl | apply Qlt_bool_false_iff; assumption]]).
Qed.

(** C9 as stated does not hold for every value: a NaN is neither [None]
    nor less than 0, so the setter stores it, and the mass read back is
    not [>= 0]. *)
Lemma C9_counterexample :
  snd (Release.release_mass_setter (Some NaN) (scenario 0)) = inr tt
  /\ Release.release_mass (fst (Release.release_mass_setter (Some NaN) (scenario 0))) = NaN
  /\ Float.geb (Release.release_mass (fst (Release.release_mass_setter (Some NaN) (scenario 0))))
       0 = false.
Proof. repeat split. Qed.

(** C9, amended: the setter of [release_mass] never raises; it stores 0 for
    [None] or a negative number and keeps a number that is not negative, so
    what it stores for any value but NaN is [>= 0]; a NaN is stored as it
    is.  So every later read of
    [release_mass] on an instance, whatever its clients did to it in
    between, is [>= 0] as long as no NaN was given to the constructor or
    assigned; and it is never a negative number in any case. *)
Theorem C9_release_mass_nonneg :
  (forall val r,
     snd (Release.release_mass_setter val r) = inr tt
     /\ (val <> Some NaN ->
         Float.geb (Release.release_mass (fst (Release.release_mass_setter val r))) 0 = true)
     /\ (val = None \/ (exists v, val = Some (Fin v) /\ (v < 0)%Q) ->
         Release.release_mass (fst (Release.release_mass_setter val r)) = Fin 0)
     /\ (forall v, val = Some (Fin v) -> (0 <= v)%Q ->
         Release.release_mass (fst (Release.release_mass_setter val r)) = Fin v)
     /\ (val = Some NaN ->
         Release.release_mass (fst (Release.release_mass_setter val r)) = NaN))
  /\ (forall now rt n m e cp rm r cs,
        Release.new now rt n m e cp rm = inr r ->
        rm <> Some NaN ->
        (forall c, In c cs -> c <> assign_release_mass (Some NaN)) ->
        Float.geb (Release.release_mass (run_calls cs r)) 0 = true)
  /\ (forall now rt n m e cp rm r cs,
        Release.new now rt n m e cp rm = inr r ->
        forall q, Release.release_mass (run_calls cs r) = Fin q -> (0 <= q)%Q).
Proof.
  split; [|split].
  - intros val r.
    assert (Hkeep : forall v, val = Some (Fin v) -> (0 <= v)%Q ->
              Release.release_mass (fst (Release.release_mass_setter val r)) = Fin v).
    { intros v -> Hv. unfold Release.release_mass_setter. simpl.
      apply Qlt_bool_false_iff in Hv. now rewrite Hv. }
    destruct (release_mass_setter_run val r) as (q & Hrun & Hq & H0 & Hnan & _).
    rewrite Hrun in Hkeep |- *.
    simpl. split; [reflexivity|]. split; [exact Hq|]. split; [exact H0|].
    split; [exact Hkeep|exact Hnan].
  - intros now rt n m e cp rm r cs Hnew Hrm Hcs.
    apply run_calls_release_mass_nonneg; [exact Hcs|].
    exact (proj1 (init_release_mass _ _ _ _ _ _ _ _ Hnew) Hrm).
  - intros now rt n m e cp rm r cs Hnew.
    apply run_calls_release_mass_never_negative.
    exact (proj2 (init_release_mass _ _ _ _ _ _ _ _ Hnew)).
Qed.

(** C9 at work: built with a mass of -5, then assigned -3, prepared for a
    run and assigned [None], the instance reports a mass that is [>= 0]. *)
Lemma C9_witness :
  Float.geb
    (Release.release_mass
       (run_calls [assign_release_mass (Some (Fin (-3 # 1))); call_prepare_for_model_run 900;
                   assign_release_mass None]
          (Release.mk cls_Release (Some 0) None (Some 1000) None 0 None false 0 None None)))
    0 = true.
Proof.
  apply (proj1 (proj2 C9_release_mass_nonneg) 0 (Some 0) None None None None
           (Some (Fin (-5 # 1)))).
  - reflexivity.
  - discriminate.
  - intros c [<-|[<-|[<-|[]]]]; discriminate.
Defined.

(** C10 as stated does not hold: on a rate-based instance the assignment
    [num_per_timestep = None] raises, and yet the attribute reads [None]
    afterwards; it has been cleared. *)
Lemma C10_counterexample :
  let r := Release.mk cls_Release (Some 0) None None (Some 5) 0 None false 0 None None in
  Release.new 0 (Some 0) None (Some 5) None None None = inr r
  /\ Release.num_per_timestep r = Some 5
  /\ (exists msg, snd (Release.num_per_timestep_setter None r) = inl (TypeError msg))
  /\ Release.num_per_timestep (fst (Release.num_per_timestep_setter None r)) = None.
Proof.
  cbv zeta. repeat split; try reflexivity. eexists. reflexivity.
Qed.

(** C10, amended: assigning [None] to [num_per_timestep] raises a
    [TypeError] from the guard's [None < 0], after the attribute has been
    overwritten: the instance is left with [num_per_timestep = None] and
    everything else, [num_elements] included, as it was. *)
Theorem C10_num_per_timestep_None (r : Release.t) :
  (exists msg, snd (Release.num_per_timestep_setter None r) = inl (TypeError msg))
  /\ fst (Release.num_per_timestep_setter None r) = Release.set_num_per_timestep None r
  /\ Release.num_per_timestep (fst (Release.num_per_timestep_setter None r)) = None
  /\ Release.num_elements (fst (Release.num_per_timestep_setter None r))
     = Release.num_elements r.
Proof.
  repeat split. eexists. reflexivity.
Qed.

(** ** Preparing a run *)

Ltac zcmp :=
  repeat match goal with
    | |- context [?a <? ?b] => destruct (Z.ltb_spec a b); try lia
    | |- context [?a <=? ?b] => destruct (Z.leb_spec a b); try lia
    | |- context [?a =? ?b] => destruct (Z.eqb_spec a b); try lia
    end.

Lemma prepare_after_rewind_run (ts : Z) (r : Release.t) (q : Q) (N m : Z)
  (series : TimeseriesData) :
  Release.LE_timestep_ratio ts r = inr q ->
  (1 <= q)%Q ->
  Release.get_num_release_time_steps ts r = inr N ->
  Release.max_release N r = inr m ->
  Release.release_timeseries N m ts r = inr series ->
  m <> 0 ->
  Release.prepare_after_rewind ts r = (after_prepare series m r, inr tt).
Proof.
  intros Hq Hge HN Hm Hs Hm0.
  apply Qlt_bool_false_iff in Hge. apply Z.eqb_neq in Hm0.
  unfold Release.prepare_after_rewind, Release.generate_release_timeseries, after_prepare.
  run_monad. rewrite Hq, Hge. simpl. rewrite HN. simpl. rewrite Hm. simpl.
  rewrite Hs. simpl. rewrite Hm0. simpl.
  destruct (Release.klass r); reflexivity.
Qed.

Lemma prepare_after_rewind_inv (ts : Z) (r r' : Release.t) :
  Release.prepare_after_rewind ts r = (r', inr tt) ->
  exists q N m series,
    Release.LE_timestep_ratio ts r = inr q /\ (1 <= q)%Q
    /\ Release.get_num_release_time_steps ts r = inr N
    /\ Release.max_release N r = inr m
    /\ Release.release_timeseries N m ts r = inr series
    /\ m <> 0
    /\ r' = after_prepare series m r.
Proof.
  unfold Release.prepare_after_rewind, Release.generate_release_timeseries, after_prepare.
  run_monad.
  destruct (Release.LE_timestep_ratio ts r) as [|q] eqn:Hq; [discriminate|].
  destruct (Qlt_bool q 1) eqn:Hge; [discriminate|]. simpl.
  destruct (Release.get_num_release_time_steps ts r) as [|N] eqn:HN; [discriminate|].
  destruct (Release.max_release N r) as [|m] eqn:Hm; [discriminate|].
  destruct (Release.release_timeseries N m ts r) as [|series] eqn:Hs; [discriminate|].
  simpl. destruct (m =? 0) eqn:Hm0; [discriminate|]. simpl.
  intros H. exists q, N, m, series.
  apply Qlt_bool_false_iff in Hge. apply Z.eqb_neq in Hm0.
  repeat split; try assumption.
  destruct (Release.klass r); simpl in H; now injection H as <-.
Qed.


Lemma prepare_unfold (ts : Z) (r : Release.t) :
  Release.prepare_for_model_run ts r = Release.prepare_after_rewind ts (rewound r).
Proof.
  unfold Release.prepare_for_model_run, rewound. run_monad.
  destruct (Release._prepared r); reflexivity.
Qed.

Lemma rewound_ratio (ts : Z) (r : Release.t) :
  Release.LE_timestep_ratio ts (rewound r) = Release.LE_timestep_ratio ts r.
Proof. unfold rewound. destruct (Release._prepared r); reflexivity. Qed.

Lemma release_duration_no_ValueError (r : Release.t) :
  ~ raises_ValueError (Release.release_duration r).
Proof.
  unfold Release.release_duration. intros [msg H]. revert H.
  repeat (destruct_scrutinee; try discriminate).
Qed.

Lemma steps_no_ValueError (ts : Z) (r : Release.t) :
  ~ raises_ValueError (Release.get_num_release_time_steps ts r).
Proof.
  unfold Release.get_num_release_time_steps, rbind. intros [msg H]. revert H.
  destruct (Release.release_duration r) eqn:E.
  - intros [= ->]. apply (release_duration_no_ValueError r). rewrite E. now exists msg.
  - destruct (ts =? 0); discriminate.
Qed.

Lemma max_release_no_ValueError (N : Z) (r : Release.t) :
  ~ raises_ValueError (Release.max_release N r).
Proof.
  unfold Release.max_release. intros [msg H]. revert H.
  repeat (destruct_scrutinee; try discriminate).
Qed.

Lemma release_timeseries_no_ValueError (N m ts : Z) (r : Release.t) :
  ~ raises_ValueError (Release.release_timeseries N m ts r).
Proof.
  unfold Release.release_timeseries, Release.sample_times, Release.need_datetime, rbind.
  intros [msg H]. revert H.
  destruct (Release.release_duration r) eqn:E.
  - repeat (destruct_scrutinee; try discriminate);
      intros [= ->]; apply (release_duration_no_ValueError r); rewrite E; now exists msg.
  - repeat (destruct_scrutinee; try discriminate).
Qed.

(** C6: when the ratio of elements to time steps is below 1,
    [prepare_for_model_run] fails with the [ValueError] of the ratio check
    (the insufficient-resource error of the taxonomy); when the ratio is at
    least 1 it raises no [ValueError] at all. *)
Theorem C6_ratio_check (ts : Z) (r : Release.t) (q : Q) :
  Release.LE_timestep_ratio ts r = inr q ->
  ((q < 1)%Q ->
   snd (Release.prepare_for_model_run ts r) = inl (ValueError Release.msg_not_enough_LEs))
  /\ ((1 <= q)%Q ->
      ~ raises_ValueError (snd (Release.prepare_for_model_run ts r))).
Proof.
  intros Hq. rewrite prepare_unfold. rewrite <- rewound_ratio in Hq.
  generalize dependent (rewound r). clear r. intros r Hq.
  unfold Release.prepare_after_rewind, Release.generate_release_timeseries.
  run_monad. rewrite Hq. split; intros Hcmp.
  - apply Qlt_bool_iff in Hcmp. rewrite Hcmp. reflexivity.
  - apply Qlt_bool_false_iff in Hcmp. rewrite Hcmp. simpl.
    destruct (Release.get_num_release_time_steps ts r) as [e|N] eqn:HN; simpl.
    { intros [msg [= ->]]. apply (steps_no_ValueError ts r). now exists msg. }
    destruct (Release.max_release N r) as [e|m] eqn:Hm; simpl.
    { intros [msg [= ->]]. apply (max_release_no_ValueError N r). now exists msg. }
    destruct (Release.release_timeseries N m ts r) as [e|series] eqn:Hs; simpl.
    { intros [msg [= ->]]. apply (release_timeseries_no_ValueError N m ts r).
      now exists msg. }
    destruct (m =? 0); simpl.
    { intros [msg H]; discriminate. }
    destruct (is_cls_Release (Release.klass r)); simpl; intros [msg H]; discriminate.
Qed.


(** C8: a second [prepare_for_model_run(ts)] right after a successful first
    one succeeds too and leaves the same release time series, the same mass
    per element and the same prepared flag; the whole instance is the
    same, given that no position series was attached to it before. *)
Theorem C8_prepare_idempotent (ts : Z) (r r1 : Release.t) :
  Release.prepare_for_model_run ts r = (r1, inr tt) ->
  exists r2,
    Release.prepare_for_model_run ts r1 = (r2, inr tt)
    /\ Release._release_ts r2 = Release._release_ts r1
    /\ Release._mass_per_le r2 = Release._mass_per_le r1
    /\ Release._prepared r2 = Release._prepared r1
    /\ (Release._pos_ts r = None -> r2 = r1).
Proof.
  rewrite prepare_unfold. intros H.
  destruct (prepare_after_rewind_inv _ _ _ H)
    as (q & N & m & series & Hq & Hge & HN & Hm & Hs & Hm0 & ->).
  exists (after_prepare series m (rewound (after_prepare series m (rewound r)))).
  split.
  - rewrite prepare_unfold. clear H.
    apply (prepare_after_rewind_run ts _ q N m series); try assumption.
    + rewrite <- Hq. unfold rewound, after_prepare.
      repeat (destruct_scrutinee; try reflexivity).
    + rewrite <- HN. unfold rewound, after_prepare.
      repeat (destruct_scrutinee; try reflexivity).
    + rewrite <- Hm. unfold rewound, after_prepare.
      repeat (destruct_scrutinee; try reflexivity).
    + rewrite <- Hs. unfold rewound, after_prepare.
      repeat (destruct_scrutinee; try reflexivity).
  - clear. unfold rewound, after_prepare.
    destruct r as [k rt e n npt rm cp p mle rts pts]. simpl.
    destruct p, k; simpl; repeat split; intros ->; reflexivity.
Qed.

Lemma scenario_new (now T : datetime) :
  Release.new now (Some T) (Some 10) None (Some (T + timedelta_seconds 3600)) None (Some (Fin 0))
  = inr (scenario T).
Proof.
  apply new_inr. run_init. zcmp. reflexivity.
Qed.

Lemma scenario_duration (T : datetime) :
  Release.release_duration (scenario T) = inr (total_seconds 3600000000).
Proof.
  unfold Release.release_duration. simpl.
  now rewrite Z.add_simpl_l.
Qed.

Lemma scenario_steps T : Release.get_num_release_time_steps 1800 (scenario T) = inr 2.
Proof.
  unfold Release.get_num_release_time_steps. rewrite scenario_duration. reflexivity.
Qed.

Lemma scenario_ratio T : Release.LE_timestep_ratio 1800 (scenario T) = inr (1 * inject_Z 10 / inject_Z 2)%Q.
Proof.
  unfold Release.LE_timestep_ratio. simpl Release.num_elements. cbv iota beta.
  rewrite scenario_steps. reflexivity.
Qed.

Lemma scenario_series T :
  Release.release_timeseries 2 10 1800 (scenario T)
  = inr (mkTimeseriesData [T; T + timedelta_seconds 1800; T + timedelta_seconds 3600]
           [0; 5; 10]).
Proof.
  unfold Release.release_timeseries, Release.sample_times.
  rewrite scenario_duration. simpl.
  now rewrite Z.add_0_r.
Qed.

Lemma scenario_prepare T :
  Release.prepare_for_model_run 1800 (scenario T)
  = (after_prepare (mkTimeseriesData [T; T + timedelta_seconds 1800; T + timedelta_seconds 3600]
           [0; 5; 10]) 10 (scenario T), inr tt).
Proof.
  unfold Release.prepare_for_model_run. run_monad.
  eapply prepare_after_rewind_run.
  - apply scenario_ratio.
  - discriminate.
  - apply scenario_steps.
  - reflexivity.
  - apply scenario_series.
  - discriminate.
Qed.

(** C1: the scenario.  A Release of 10 elements from [T] to [T + 3600 s],
    with a time step of 1800 s, spans 2 time steps with a ratio of 5
    elements per step; once prepared, it has released 0 elements at [T],
    5 at [T + 1800 s] and 10 at [T + 3600 s]. *)
Theorem C1_scenario (now T : datetime) :
  exists r r',
    Release.new now (Some T) (Some 10) None (Some (T + timedelta_seconds 3600)) None (Some (Fin 0))
    = inr r
    /\ Release.get_num_release_time_steps 1800 r = inr 2
    /\ (exists q, Release.LE_timestep_ratio 1800 r = inr q /\ (q == 5)%Q)
    /\ Release.prepare_for_model_run 1800 r = (r', inr tt)
    /\ Release.num_elements_after_time T 0 r' = inr 0
    /\ Release.num_elements_after_time T 1800 r' = inr 5
    /\ Release.num_elements_after_time T 3600 r' = inr 10.
Proof.
  eexists. eexists. split; [apply scenario_new|].
  split; [apply scenario_steps|].
  split; [eexists; split; [apply scenario_ratio|reflexivity]|].
  split; [apply scenario_prepare|].
  unfold Release.num_elements_after_time, Ts.at_. simpl.
  rewrite Z.ltb_irrefl. 
  repeat split.
  - zcmp. reflexivity.
  - zcmp. reflexivity.
  - zcmp. reflexivity.
Qed.

(** ** The release time series *)

Lemma quot_cross (n1 d1 n2 d2 : Z) :
  0 < d1 -> 0 < d2 -> n1 * d2 = n2 * d1 -> Z.quot n1 d1 = Z.quot n2 d2.
Proof.
  intros H1 H2 H.
  rewrite <- (Z.quot_mul_cancel_r n1 d1 d2) by lia.
  rewrite <- (Z.quot_mul_cancel_r n2 d2 d1) by lia.
  rewrite H. f_equal. lia.
Qed.

Lemma astype_int_frac (q : Q) (a b : Z) :
  0 < b -> (q == inject_Z a / inject_Z b)%Q -> Np.astype_int q = Z.quot a b.
Proof.
  intros Hb Hq. unfold Np.astype_int.
  destruct b as [|p|p]; try lia.
  unfold Qeq in Hq. simpl in Hq.
  apply quot_cross; lia.
Qed.

Lemma astype_int_inject (z : Z) : Np.astype_int (inject_Z z) = z.
Proof. unfold Np.astype_int. simpl. apply Z.quot_1_r. Qed.

Lemma range_succ (n : Z) : 0 <= n -> range (n + 1) = range n ++ [n].
Proof.
  intros Hn. unfold range.
  replace (Z.to_nat (n + 1)) with (S (Z.to_nat n)) by lia.
  rewrite seq_S, map_app. simpl. now rewrite Z2Nat.id.
Qed.

Lemma linspace_astype (m N : Z) :
  1 <= N ->
  map Np.astype_int (Np.linspace 0 (inject_Z m) (N + 1))
  = map (fun i => Z.quot (i * m) N) (range (N + 1)).
Proof.
  intros HN. unfold Np.linspace.
  destruct (Z.leb_spec (N + 1) 0); [lia|].
  destruct (Z.eqb_spec (N + 1) 1); [lia|].
  replace (N + 1 - 1) with N by lia.
  rewrite range_succ by lia.
  rewrite !map_app, map_map. simpl. f_equal.
  - apply map_ext_in. intros i Hi.
    apply astype_int_frac; [lia|].
    rewrite inject_Z_mult. field.
    intros H0. unfold Qeq in H0. simpl in H0. lia.
  - rewrite astype_int_inject. f_equal. rewrite Z.mul_comm. symmetry. apply Z.quot_mul. lia.
Qed.


Lemma removelast_map_range {A : Type} (f : Z -> A) (n : Z) :
  0 <= n -> removelast (map f (range (n + 1))) = map f (range n).
Proof.
  intros Hn. rewrite range_succ by lia. rewrite map_app. simpl.
  apply removelast_last.
Qed.

Lemma range_nonempty (n : Z) : 0 < n -> range n <> [].
Proof.
  intros Hn. unfold range.
  replace (Z.to_nat n) with (S (Z.to_nat (n - 1))) by lia. discriminate.
Qed.

Lemma duration_zero_steps (ts : Z) (r : Release.t) (d : Q) (N : Z) :
  Release.release_duration r = inr d -> (d == 0)%Q ->
  Release.get_num_release_time_steps ts r = inr N -> N = 1.
Proof.
  intros Hd H0. unfold Release.get_num_release_time_steps. rewrite Hd. simpl.
  destruct (ts =? 0); [discriminate|].
  rewrite H0. intros [= <-]. reflexivity.
Qed.

(** The series a successful [release_timeseries] builds. *)
Lemma release_timeseries_inv (N m ts : Z) (r : Release.t) (series : TimeseriesData) :
  1 <= N ->
  Release.release_timeseries N m ts r = inr series ->
  exists d s e,
    Release.release_duration r = inr d
    /\ Release.release_time r = Some s
    /\ Release.end_release_time r = Some e
    /\ ((d == 0)%Q -> N = 1 ->
        series = mkTimeseriesData [s; e + timedelta_seconds 1] [m; m])
    /\ (~ (d == 0)%Q ->
        series = mkTimeseriesData
                   (map (fun i => s + timedelta_seconds (ts * i)) (range N) ++ [e])
                   (map (fun i => Z.quot (i * m) N) (range (N + 1)))).
Proof.
  intros HN.
  unfold Release.release_timeseries, Release.sample_times, Release.need_datetime, rbind.
  destruct (Release.release_duration r) as [|d] eqn:Hd.
  { repeat (destruct_scrutinee; try discriminate). }
  destruct (Release.release_time r) as [s|] eqn:Hs;
    [|repeat (destruct_scrutinee; try discriminate)].
  destruct (Release.end_release_time r) as [e|] eqn:He;
    [|repeat (destruct_scrutinee; try discriminate)].
  intros H. exists d, s, e. repeat split.
  - intros H0 ->. apply Qeq_bool_iff in H0. rewrite H0 in H. cbv beta match in H.
    change (1 =? 1) with true in H. cbv beta match in H.
    now injection H as <-.
  - intros H0.
    assert (Hb : Qeq_bool d 0 = false).
    { destruct (Qeq_bool d 0) eqn:E; [|reflexivity]. apply Qeq_bool_iff in E. contradiction. }
    rewrite Hb in H.
    rewrite linspace_astype in H by exact HN.
    destruct (Z.eqb_spec N 1) as [->|Hne].
    + cbv beta match in H. injection H as <-. simpl.
      unfold timedelta_seconds. now rewrite Z.mul_0_r, Z.add_0_r.
    + destruct (range (N + 1)) eqn:Hr.
      { exfalso. apply (range_nonempty (N + 1)); [lia|exact Hr]. }
      cbv beta match in H. rewrite <- Hr in H |- *.
      rewrite removelast_map_range in H by lia.
      now injection H as <-.
Qed.

Lemma steps_nonzero (ts : Z) (r : Release.t) (N : Z) :
  Release.get_num_release_time_steps ts r = inr N -> N <> 0.
Proof.
  unfold Release.get_num_release_time_steps, rbind.
  destruct (Release.release_duration r); [discriminate|].
  destruct (ts =? 0); [discriminate|].
  destruct (Z.eqb_spec (Qceiling (q / inject_Z ts)) 0); intros [= <-]; lia.
Qed.

Lemma release_timeseries_steps (N m ts : Z) (r : Release.t) (series : TimeseriesData) :
  Release.release_timeseries N m ts r = inr series -> N <> 0 -> 1 <= N.
Proof.
  unfold Release.release_timeseries, Release.sample_times, rbind.
  destruct (Z.eqb_spec N 1); [lia|].
  destruct (range (N + 1)) eqn:Hr; [discriminate|].
  intros _ HN.
  destruct (Z.le_gt_cases 1 N) as [|Hlt]; [assumption|].
  unfold range in Hr. replace (Z.to_nat (N + 1)) with 0%nat in Hr by lia.
  discriminate.
Qed.

Lemma rewound_pure {A : Type} (f : Release.t -> A) (r : Release.t) :
  (forall x, f (fst (Release.rewind x)) = f x) -> f (rewound r) = f r.
Proof. intros H. unfold rewound. destruct (Release._prepared r); [apply H|reflexivity]. Qed.

Lemma prepare_inv (ts : Z) (r r' : Release.t) :
  Release.prepare_for_model_run ts r = (r', inr tt) ->
  exists q N m series,
    Release.LE_timestep_ratio ts r = inr q /\ (1 <= q)%Q
    /\ Release.get_num_release_time_steps ts r = inr N
    /\ Release.max_release N r = inr m
    /\ Release.release_timeseries N m ts r = inr series
    /\ m <> 0
    /\ r' = after_prepare series m (rewound r).
Proof.
  rewrite prepare_unfold. intros H.
  destruct (prepare_after_rewind_inv _ _ _ H)
    as (q & N & m & series & Hq & Hge & HN & Hm & Hs & Hm0 & ->).
  exists q, N, m, series.
  rewrite (rewound_pure (Release.LE_timestep_ratio ts)) in Hq by reflexivity.
  rewrite (rewound_pure (Release.get_num_release_time_steps ts)) in HN by reflexivity.
  rewrite (rewound_pure (Release.max_release N)) in Hm by reflexivity.
  rewrite (rewound_pure (Release.release_timeseries N m ts)) in Hs by reflexivity.
  repeat split; assumption.
Qed.


Lemma duration_nonneg (r : Release.t) (s : datetime) :
  Release.release_time r = Some s ->
  (forall e, Release._end_release_time r = Some e -> s <= e) ->
  exists d e, Release.release_duration r = inr d /\ (0 <= d)%Q
              /\ Release.end_release_time r = Some e.
Proof.
  intros Hs He. unfold Release.release_duration, Release.end_release_time.
  rewrite Hs.
  destruct (Release._end_release_time r) as [e|].
  - exists (total_seconds (e - s)), e. repeat split.
    specialize (He e eq_refl). unfold total_seconds, Qle. simpl. lia.
  - exists (total_seconds (s - s)), s. repeat split.
    unfold total_seconds, Qle. simpl. lia.
Qed.

Lemma steps_positive (ts : Z) (r : Release.t) (d : Q) :
  0 < ts -> Release.release_duration r = inr d -> (0 <= d)%Q ->
  exists N, Release.get_num_release_time_steps ts r = inr N /\ 1 <= N.
Proof.
  intros Hts Hd Hpos. unfold Release.get_num_release_time_steps. rewrite Hd. simpl.
  destruct (Z.eqb_spec ts 0); [lia|].
  assert (Hc : 0 <= Qceiling (d / inject_Z ts)).
  { change 0 with (Qceiling 0). apply Qceiling_resp_le.
    apply Qle_shift_div_l.
    - unfold Qlt. simpl. lia.
    - now rewrite Qmult_0_l. }
  destruct (Z.eqb_spec (Qceiling (d / inject_Z ts)) 0); eexists; split;
    try reflexivity; lia.
Qed.

Lemma max_release_nonzero (ts : Z) (r : Release.t) (q : Q) (N : Z) :
  1 <= N ->
  Release.num_elements r = None \/ Release.num_per_timestep r = None ->
  Release.get_num_release_time_steps ts r = inr N ->
  Release.LE_timestep_ratio ts r = inr q -> (1 <= q)%Q ->
  exists m, Release.max_release N r = inr m /\ m <> 0.
Proof.
  intros HN Hone Hsteps. unfold Release.LE_timestep_ratio, Release.max_release.
  rewrite Hsteps.
  destruct (Release.num_elements r) as [n|], (Release.num_per_timestep r) as [p|];
    simpl; try discriminate.
  - destruct Hone; discriminate.
  - intros [= <-] Hge. exists n. split; [reflexivity|].
    intros ->. revert Hge. unfold Qle, Qdiv, Qmult. simpl. lia.
  - intros [= <-] Hge. exists (p * N). split; [reflexivity|].
    unfold Qle in Hge. simpl in Hge. nia.
Qed.

Lemma release_timeseries_total (N m ts : Z) (r : Release.t) (d : Q) (s e : datetime) :
  1 <= N ->
  Release.release_duration r = inr d ->
  Release.release_time r = Some s ->
  Release.end_release_time r = Some e ->
  exists series, Release.release_timeseries N m ts r = inr series.
Proof.
  intros HN Hd Hs He.
  unfold Release.release_timeseries, Release.sample_times, Release.need_datetime, rbind.
  rewrite Hd, Hs, He.
  destruct (N =? 1).
  - destruct (Qeq_bool d 0); eexists; reflexivity.
  - destruct (range (N + 1)) eqn:Hr.
    + exfalso. apply (range_nonempty (N + 1)); [lia|exact Hr].
    + destruct (Qeq_bool d 0); eexists; reflexivity.
Qed.

(** With a positive time step, release times in order, one of the two
    counts and enough elements, preparing a run succeeds. *)
Lemma prepare_succeeds (ts : Z) (r : Release.t) (q : Q) (s : datetime) :
  0 < ts ->
  Release.release_time r = Some s ->
  (forall e, Release._end_release_time r = Some e -> s <= e) ->
  Release.num_elements r = None \/ Release.num_per_timestep r = None ->
  Release.LE_timestep_ratio ts r = inr q -> (1 <= q)%Q ->
  exists r', Release.prepare_for_model_run ts r = (r', inr tt).
Proof.
  intros Hts Hs He Hone Hq Hge.
  destruct (duration_nonneg r s Hs He) as (d & e & Hd & Hpos & Hert).
  destruct (steps_positive ts r d Hts Hd Hpos) as (N & HN & H1).
  destruct (max_release_nonzero ts r q N H1 Hone HN Hq Hge) as (m & Hm & Hm0).
  destruct (release_timeseries_total N m ts r d s e H1 Hd Hs Hert) as (series & Hser).
  exists (after_prepare series m (rewound r)).
  rewrite prepare_unfold.
  apply (prepare_after_rewind_run ts _ q N m series); try assumption.
  - now rewrite (rewound_pure (Release.LE_timestep_ratio ts)) by reflexivity.
  - now rewrite (rewound_pure (Release.get_num_release_time_steps ts)) by reflexivity.
  - now rewrite (rewound_pure (Release.max_release N)) by reflexivity.
  - now rewrite (rewound_pure (Release.release_timeseries N m ts)) by reflexivity.
Qed.

(** *** Rounding to binary64 *)

Section Binary64Properties.

Local Notation "'u64'" := Binary64.unit_roundoff.

Lemma pow2_pos e : (0 < Binary64.pow2 e)%Q.
Proof. unfold Binary64.pow2. apply Qpower_0_lt. reflexivity. Qed.

Lemma pow2_add a b : (Binary64.pow2 (a + b) == Binary64.pow2 a * Binary64.pow2 b)%Q.
Proof. unfold Binary64.pow2. apply Qpower_plus. discriminate. Qed.



(** Rounding to an integer moves a number by at most one half. *)
Lemma nearest_even_error (x : Q) :
  (Qabs (inject_Z (Binary64.nearest_even x) - x) <= 1 # 2)%Q.
Proof.
  unfold Binary64.nearest_even.
  pose proof (Qfloor_le x) as Hlo. pose proof (Qlt_floor x) as Hhi.
  rewrite inject_Z_plus in Hhi. change (inject_Z 1) with 1%Q in Hhi.
  apply Qabs_Qle_condition.
  destruct (Qcompare_spec (x - inject_Z (Qfloor x)) (1 # 2)) as [He|Hl|Hg].
  - destruct (Z.even (Qfloor x)); rewrite ?inject_Z_plus;
      change (inject_Z 1) with 1%Q; split; lra.
  - split; lra.
  - rewrite inject_Z_plus. change (inject_Z 1) with 1%Q. split; lra.
Qed.



Lemma Qdiv_Z_le (a b c : Z) (d : positive) :
  0 < b -> a * Zpos d <= c * b -> (inject_Z a / inject_Z b <= c # d)%Q.
Proof.
  intros Hb H. apply Qle_shift_div_r.
  - unfold Qlt. simpl. lia.
  - unfold Qle. simpl. lia.
Qed.

Lemma Qdiv_Z_lt (a b c : Z) (d : positive) :
  0 < b -> c * b < a * Zpos d -> (c # d < inject_Z a / inject_Z b)%Q.
Proof.
  intros Hb H. apply Qlt_shift_div_l.
  - unfold Qlt. simpl. lia.
  - unfold Qlt. simpl. lia.
Qed.

Lemma pow2_sub_Z (a b : Z) :
  0 <= a -> 0 <= b -> (Binary64.pow2 (a - b) == inject_Z (2 ^ a) / inject_Z (2 ^ b))%Q.
Proof.
  intros Ha Hb. unfold Binary64.pow2. rewrite Qpower_minus by discriminate.
  rewrite <- !(Zpower_Qpower 2) by assumption. reflexivity.
Qed.

(** [2^e <= |x| < 2^(e+1)] for the exponent [e] of [x <> 0]. *)
Lemma exponent_spec (x : Q) :
  ~ (x == 0)%Q ->
  (Binary64.pow2 (Binary64.exponent x) <= Qabs x
   /\ Qabs x < Binary64.pow2 (Binary64.exponent x + 1))%Q.
Proof.
  intros Hx. unfold Binary64.exponent.
  set (a := Z.log2 (Z.abs (Qnum x))). set (b := Z.log2 (Zpos (Qden x))).
  assert (Hn : 0 < Z.abs (Qnum x)).
  { destruct x as [n d]. unfold Qeq in Hx. simpl in *. lia. }
  destruct (Z.log2_spec _ Hn) as [Ha1 Ha2]. fold a in Ha1, Ha2.
  destruct (Z.log2_spec (Zpos (Qden x)) (Pos2Z.is_pos _)) as [Hb1 Hb2].
  fold b in Hb1, Hb2.
  assert (Ha0 : 0 <= a) by apply Z.log2_nonneg.
  assert (Hb0 : 0 <= b) by apply Z.log2_nonneg.
  assert (HA : 0 < 2 ^ a) by (apply Z.pow_pos_nonneg; lia).
  assert (HB : 0 < 2 ^ b) by (apply Z.pow_pos_nonneg; lia).
  assert (Habs : Qabs x = Z.abs (Qnum x) # Qden x) by (destruct x; reflexivity).
  assert (Hup : (Qabs x < Binary64.pow2 (a - b + 1))%Q).
  { replace (a - b + 1) with (Z.succ a - b) by lia.
    rewrite pow2_sub_Z by lia. rewrite Habs. apply Qdiv_Z_lt; [lia|]. nia. }
  assert (Hlow : (Binary64.pow2 (a - b - 1) <= Qabs x)%Q).
  { replace (a - b - 1) with (a - Z.succ b) by lia.
    rewrite pow2_sub_Z by lia. rewrite Habs. apply Qdiv_Z_le.
    - apply Z.pow_pos_nonneg; lia.
    - nia. }
  destruct (Qle_bool (Binary64.pow2 (a - b)) (Qabs x)) eqn:E.
  - split; [now apply Qle_bool_iff|exact Hup].
  - split; [exact Hlow|].
    replace (a - b - 1 + 1) with (a - b) by lia.
    apply Qnot_le_lt. intros H. apply Qle_bool_iff in H. congruence.
Qed.

(** The relative error of one rounding is at most [2^-53]. *)
Lemma round_error (x : Q) : (Qabs (Binary64.round x - x) <= Qabs x * u64)%Q.
Proof.
  unfold Binary64.round. destruct (Qeq_bool x 0) eqn:E.
  - apply Qeq_bool_iff in E. rewrite E. vm_compute. discriminate.
  - assert (Hx : ~ (x == 0)%Q).
    { intros H. apply Qeq_bool_iff in H. congruence. }
    cbv zeta.
    set (e := Binary64.exponent x - 52). set (P := Binary64.pow2 e).
    assert (HP : (0 < P)%Q) by apply pow2_pos.
    set (n := Binary64.nearest_even (x / P)).
    assert (Heq : (inject_Z n * P - x == (inject_Z n - x / P) * P)%Q).
    { field. intros H. rewrite H in HP. now apply Qlt_irrefl in HP. }
    rewrite Heq, Qabs_Qmult, (Qabs_pos P) by (now apply Qlt_le_weak).
    pose proof (nearest_even_error (x / P)) as Herr. fold n in Herr.
    destruct (exponent_spec x Hx) as [Hlo _].
    assert (HPe : (P == Binary64.pow2 (Binary64.exponent x) * (1 # 4503599627370496))%Q).
    { unfold P, e.
      replace (Binary64.exponent x - 52) with (Binary64.exponent x + (-52)) by lia.
      rewrite pow2_add. reflexivity. }
    pose proof (pow2_pos (Binary64.exponent x)) as Hpe.
    apply Qle_trans with ((1 # 2) * P)%Q.
    + apply Qmult_le_compat_r; [exact Herr|now apply Qlt_le_weak].
    + rewrite HPe. unfold Binary64.unit_roundoff.
      setoid_replace
        ((1 # 2) * (Binary64.pow2 (Binary64.exponent x) * (1 # 4503599627370496)))%Q
        with (Binary64.pow2 (Binary64.exponent x) * (1 # 9007199254740992))%Q by ring.
      apply Qmult_le_compat_r; [exact Hlo|discriminate].
Qed.

Lemma round_bounds (x : Q) :
  (0 <= x)%Q -> (x * (1 - u64) <= Binary64.round x /\ Binary64.round x <= x * (1 + u64))%Q.
Proof.
  intros Hx. pose proof (round_error x) as H.
  rewrite (Qabs_pos x Hx) in H. apply Qabs_Qle_condition in H.
  unfold Binary64.unit_roundoff in *. split; lra.
Qed.

(** The double nearest to one tenth, [0x1.999999999999ap-4]. *)
Lemma round_one_tenth :
  (Binary64.round (1 # 10) == 3602879701896397 # 36028797018963968)%Q.
Proof. vm_compute. reflexivity. Qed.

Lemma round_nonneg (x : Q) : (0 <= x)%Q -> (0 <= Binary64.round x)%Q.
Proof.
  intros Hx. destruct (round_bounds x Hx) as [H _].
  apply Qle_trans with (x * (1 - u64))%Q; [|exact H].
  apply Qmult_le_0_compat; [exact Hx|]. unfold Binary64.unit_roundoff. lra.
Qed.





End Binary64Properties.

(** *** The samples of the series *)












(** C6 at work: one element over two time steps is refused, ten are not. *)
Lemma C6_witness :
  snd (Release.prepare_for_model_run 1800
         (Release.mk cls_Release (Some 0) (Some (timedelta_seconds 3600)) (Some 1) None 0
            None false 0 None None))
  = inl (ValueError Release.msg_not_enough_LEs)
  /\ ~ raises_ValueError (snd (Release.prepare_for_model_run 1800 (scenario 0))).
Proof.
  split.
  - apply (proj1 (C6_ratio_check 1800
                    (Release.mk cls_Release (Some 0) (Some (timedelta_seconds 3600)) (Some 1)
                       None 0%Q None false 0%Q None None)
                    (1 * inject_Z 1 / inject_Z 2)%Q eq_refl)).
    reflexivity.
  - apply (proj2 (C6_ratio_check 1800 (scenario 0) (1 * inject_Z 10 / inject_Z 2)%Q eq_refl)).
    discriminate.
Defined.

(** C8 at work on the scenario. *)
Lemma C8_witness :
  exists r2,
    Release.prepare_for_model_run 1800 (fst (Release.prepare_for_model_run 1800 (scenario 0)))
    = (r2, inr tt)
    /\ Release._release_ts r2
       = Release._release_ts (fst (Release.prepare_for_model_run 1800 (scenario 0)))
    /\ Release._mass_per_le r2
       = Release._mass_per_le (fst (Release.prepare_for_model_run 1800 (scenario 0)))
    /\ Release._prepared r2
       = Release._prepared (fst (Release.prepare_for_model_run 1800 (scenario 0)))
    /\ (Release._pos_ts (scenario 0) = None ->
        r2 = fst (Release.prepare_for_model_run 1800 (scenario 0))).
Proof.
  apply (C8_prepare_idempotent 1800 (scenario 0)). reflexivity.
Defined.

(** ** Initial positions of new elements *)

Lemma length_tile {A : Type} (rows : list A) (qt : nat) :
  length (Np.tile rows qt) = (qt * length rows)%nat.
Proof.
  unfold Np.tile. induction qt as [|qt IH]; simpl; [reflexivity|].
  now rewrite length_app, IH.
Qed.

(** The rows [initialize_LEs] builds number [to_rel] only when [to_rel] is
    the number of custom positions: the quotient and the remainder are
    taken of the number of positions by [to_rel], not the other way
    round. *)
Lemma initialize_LEs_asserts (rand : nat -> nat) (to_rel : Z)
  (data : Release.ElementBatch) (current_time : datetime) (time_step : Z)
  (r : Release.t) (locs : list position) :
  Release.custom_positions r = Some locs -> locs <> [] ->
  0 < to_rel -> to_rel <> Z.of_nat (length locs) ->
  Release.initialize_LEs rand to_rel data current_time time_step r = inl AssertionError.
Proof.
  intros Hlocs Hne Hpos Hdiff. unfold Release.initialize_LEs. rewrite Hlocs.
  destruct locs as [|l0 locs']; [contradiction|].
  set (locs := l0 :: locs') in *.
  destruct (Z.eqb_spec to_rel 0); [lia|].
  set (P := Z.of_nat (length locs)) in *.
  assert (HP : 0 < P) by (unfold P, locs; simpl; lia).
  assert (Hq : 0 <= P / to_rel) by (apply Z.div_pos; lia).
  assert (Hr : 0 <= P mod to_rel < to_rel) by (apply Z.mod_pos_bound; lia).
  destruct (Z.ltb_spec (P / to_rel) 0); [lia|].
  rewrite length_app, length_tile, length_map, length_seq.
  rewrite Nat2Z.inj_add, Nat2Z.inj_mul, !Z2Nat.id by lia. fold P.
  destruct (Z.eqb_spec (P / to_rel * P + P mod to_rel) to_rel) as [Heq|]; [|reflexivity].
  exfalso. pose proof (Z.div_mod P to_rel ltac:(lia)) as Hdm.
  destruct (Z.lt_trichotomy P to_rel) as [Hlt|[Heq'|Hgt]]; [|lia|].
  - rewrite Z.div_small in * by lia. rewrite Z.mod_small in * by lia. lia.
  - assert (1 <= P / to_rel) by (apply Z.div_le_lower_bound; lia). nia.
Qed.

(** C2: asked for 5 new elements, an instance with 2 custom positions
    should tile its positions twice and draw one more at random, 5 rows in
    all.  It builds [2 // 5 = 0] tiles and [2 % 5 = 2] random rows instead,
    and its own assertion on the number of rows fails, whatever the random
    source and the arrays are. *)
Theorem C2_initialize_LEs_count (rand : nat -> nat) (data : Release.ElementBatch)
  (current_time : datetime) (time_step : Z) :
  Release.initialize_LEs rand 5 data current_time time_step two_positions
  = inl AssertionError.
Proof. reflexivity. Qed.

(** ** Spatial releases *)

Section SpatialProperties.
Context {G : GeoRoutines}.
Import SpatialRelease.

Lemma Qsum_app (a b : list Q) : (Qsum (a ++ b) == Qsum a + Qsum b)%Q.
Proof.
  induction a as [|x a IH]; simpl.
  - now rewrite Qplus_0_l.
  - rewrite IH. apply Qplus_assoc.
Qed.

Lemma Qsum_map_mult (w : Q) (l : list Q) :
  (Qsum (map (Qmult w) l) == w * Qsum l)%Q.
Proof.
  induction l as [|x l IH]; simpl.
  - now rewrite Qmult_0_r.
  - rewrite IH. ring.
Qed.

Lemma Qsum_map_div {A : Type} (f : A -> Q) (total : Q) (l : list A) :
  (Qsum (map (fun x => f x / total) l) == Qsum (map f l) / total)%Q.
Proof.
  induction l as [|x l IH]; simpl.
  - unfold Qdiv. now rewrite Qmult_0_l.
  - rewrite IH. unfold Qdiv. ring.
Qed.

Lemma poly_area_weight_sum (tris : list triangle) :
  ~ (Qsum (map triangle_area tris) == 0)%Q ->
  (Qsum (poly_area_weight tris) == 1)%Q.
Proof.
  intros H. unfold poly_area_weight. rewrite Qsum_map_div.
  now field.
Qed.

Lemma length_poly_area_weight (tris : list triangle) :
  length (poly_area_weight tris) = length tris.
Proof. unfold poly_area_weight. apply length_map. Qed.

Lemma map_result_inr {A B : Type} (f : A -> B) (l : list A) :
  map_result (fun x => inr (f x)) l = inr (map f l).
Proof.
  induction l as [|x l IH]; simpl; [reflexivity|]. now rewrite IH.
Qed.

Lemma isclose_one (x : Q) : (x == 1)%Q -> Np.isclose x 1 = true.
Proof.
  intros H. unfold Np.isclose. rewrite H. reflexivity.
Qed.

(** What the per-polygon loop returns when every polygon has a weight and a
    triangulation of non-zero area. *)
Lemma scale_tris_run (polys : list polygon) (qs : list Q) :
  length qs = length polys ->
  (forall p, In p polys -> ~ (triangulated_area p == 0)%Q) ->
  exists tris ws,
    scale_tris (combine polys (map Some qs)) = inr (tris, ws)
    /\ tris = concat (map triangulate_poly polys)
    /\ length ws = length tris
    /\ (Qsum ws == Qsum qs)%Q.
Proof.
  revert qs. induction polys as [|p polys IH]; intros qs Hlen Harea.
  - destruct qs; [|discriminate]. exists [], []. repeat split.
  - destruct qs as [|w qs]; [discriminate|].
    destruct (IH qs) as (tris & ws & Hrun & Htris & Hl & Hsum).
    { simpl in Hlen. lia. }
    { intros p' Hp'. apply Harea. now right. }
    simpl. rewrite (map_result_inr (Qmult w)). simpl. rewrite Hrun. simpl.
    eexists. eexists. split; [reflexivity|]. split; [now rewrite Htris|]. split.
    + rewrite !length_app, length_map, length_poly_area_weight. now rewrite Hl.
    + rewrite Qsum_app, Qsum_map_mult, Hsum.
      rewrite poly_area_weight_sum by (apply Harea; now left). ring.
Qed.


Lemma areas_not_nan (fs : list Feature) :
  (forall f, In f fs -> geo_area_of_polygon (geometry f) <> None) ->
  existsb is_None (map geo_area_of_polygon (map geometry fs)) = false.
Proof.
  induction fs as [|f fs IH]; intros H; simpl; [reflexivity|].
  rewrite IH by (intros f' Hf'; apply H; now right).
  destruct (geo_area_of_polygon (geometry f)) eqn:E; [reflexivity|].
  exfalso. apply (H f); [now left|exact E].
Qed.

Lemma thicknesses_present (s : t) :
  features s <> [] ->
  (forall f, In f (features s) -> thickness f <> None) ->
  thicknesses s = Some (map thickness (features s)).
Proof.
  intros Hne H. unfold thicknesses.
  destruct (features s) as [|f fs]; [contradiction|]. simpl.
  destruct (thickness f) eqn:E; [reflexivity|].
  exfalso. apply (H f); [now left|exact E].
Qed.

Lemma thicknesses_absent (s : t) :
  (forall f, In f (features s) -> thickness f = None) ->
  thicknesses s = None.
Proof.
  intros H. unfold thicknesses.
  replace (forallb is_None (map thickness (features s))) with true; [reflexivity|].
  symmetry. apply forallb_forall. intros o Ho.
  apply in_map_iff in Ho. destruct Ho as (f & <- & Hf). now rewrite (H f Hf).
Qed.

Lemma volumes_run (fs : list Feature) :
  (forall f, In f fs -> geo_area_of_polygon (geometry f) <> None) ->
  (forall f, In f fs -> thickness f <> None) ->
  map_result
    (fun at_ : option Q * option Q =>
       match at_ with
       | (Some a, Some th) => inr (a * th)%Q
       | _ => inl (TypeError "unsupported operand type(s) for *: 'float' and 'NoneType'")
       end)
    (combine (map geo_area_of_polygon (map geometry fs)) (map thickness fs))
  = inr (map volume fs).
Proof.
  induction fs as [|f fs IH]; intros Ha Ht; simpl; [reflexivity|].
  rewrite IH;
    [|intros f' Hf'; apply Ha; now right|intros f' Hf'; apply Ht; now right].
  unfold volume at 2.
  destruct (geo_area_of_polygon (geometry f)) eqn:Ea;
    [|exfalso; apply (Ha f); [now left|exact Ea]].
  destruct (thickness f) eqn:Et;
    [|exfalso; apply (Ht f); [now left|exact Et]].
  reflexivity.
Qed.

(** The distribution by volume: each polygon's share of the total of
    area times thickness. *)
Lemma compute_distribution_run (s : t) :
  features s <> [] ->
  (forall f, In f (features s) -> geo_area_of_polygon (geometry f) <> None) ->
  (forall f, In f (features s) -> thickness f <> None) ->
  ~ (Qsum (map volume (features s)) == 0)%Q ->
  compute_distribution s
  = inr (map (fun f => (volume f / Qsum (map volume (features s)))%Q) (features s)).
Proof.
  intros Hne Ha Ht Htotal. unfold compute_distribution, polygons.
  rewrite (areas_not_nan _ Ha), (thicknesses_present _ Hne Ht), (volumes_run _ Ha Ht).
  simpl.
  assert (Hb : Qeq_bool (Qsum (map volume (features s))) 0 = false).
  { destruct (Qeq_bool (Qsum (map volume (features s))) 0) eqn:E; [|reflexivity].
    apply Qeq_bool_iff in E. contradiction. }
  rewrite Hb. rewrite (map_result_inr (fun v => (v / Qsum (map volume (features s)))%Q)).
  now rewrite map_map.
Qed.

Lemma distribution_sum (fs : list Feature) :
  ~ (Qsum (map volume fs) == 0)%Q ->
  (Qsum (map (fun f => (volume f / Qsum (map volume fs))%Q) fs) == 1)%Q.
Proof.
  intros H. rewrite Qsum_map_div. now field.
Qed.


Lemma compute_distribution_features (s1 s2 : t) :
  features s1 = features s2 -> compute_distribution s1 = compute_distribution s2.
Proof. unfold compute_distribution, polygons, thicknesses. now intros ->. Qed.

Lemma get_polys_as_tris_features (polys : list polygon) (ws : option (list (option Q)))
  (s1 s2 : t) :
  features s1 = features s2 ->
  get_polys_as_tris polys ws s1 = get_polys_as_tris polys ws s2.
Proof. unfold get_polys_as_tris, polygons. now intros ->. Qed.

Lemma srewound_features (s : t) : features (srewound s) = features s.
Proof. unfold srewound. destruct (Release._prepared (base s)); reflexivity. Qed.

(** [prepare_for_model_run] step by step, when every step succeeds. *)
Lemma prepare_run (ts : Z) (s : t) (b' : Release.t) (ws : option (list (option Q)))
  (res : list triangle * list Q) :
  Release.prepare_after_rewind ts (base (srewound s)) = (b', inr tt) ->
  for_each check_valid_polygon (polygons s) = inr tt ->
  (if truthy (thicknesses s)
   then exists d, compute_distribution s = inr d /\ ws = Some (map Some d)
   else ws = weights s) ->
  get_polys_as_tris (polygons s) ws s = inr res ->
  exists s',
    prepare_for_model_run ts s = (s', inr tt)
    /\ _tris s' = Some (fst res)
    /\ _weights s' = Some (snd res)
    /\ features s' = features s
    /\ Release._prepared (base s') = true.
Proof.
  intros Hbase Hvalid Hws Hres.
  unfold prepare_for_model_run. unfold bind at 1. unfold gets at 1.
  unfold bind at 1.
  replace (when (Release._prepared (base s)) rewind s) with (srewound s, inr tt : result unit)
    by (unfold srewound, when, ret; destruct (Release._prepared (base s)); reflexivity).
  pose proof (srewound_features s) as Hf.
  generalize dependent (srewound s). intros s1 Hbase Hf.
  assert (Hpolys : forall b, polygons (set_base b s1) = polygons s)
    by (intros b; unfold polygons; simpl; now rewrite Hf).
  assert (Hth : forall b, thicknesses (set_base b s1) = thicknesses s)
    by (intros b; unfold thicknesses; simpl; now rewrite Hf).
  assert (Hw : forall b, weights (set_base b s1) = weights s)
    by (intros b; unfold weights; simpl; now rewrite Hf).
  unfold triangulate_features, bind, zoom, gets, lift. rewrite Hbase.
  rewrite Hpolys, Hvalid, Hth.
  destruct (truthy (thicknesses s)).
  - destruct Hws as (d & Hd & ->).
    unfold bind, lift, ret. rewrite (compute_distribution_features _ s) by exact Hf.
    rewrite Hd. rewrite Hpolys.
    rewrite (get_polys_as_tris_features _ _ _ s) by exact Hf. rewrite Hres.
    eexists. split; [reflexivity|]. simpl. repeat split. exact Hf.
  - subst ws. unfold gets. rewrite Hw, Hpolys.
    rewrite (get_polys_as_tris_features _ _ _ s) by exact Hf. rewrite Hres.
    eexists. split; [reflexivity|]. simpl. repeat split. exact Hf.
Qed.


Lemma weights_present (s : t) (qs : list Q) :
  features s <> [] ->
  map weight (features s) = map Some qs ->
  weights s = Some (map Some qs).
Proof.
  intros Hne H. unfold weights. rewrite H.
  destruct (features s) as [|f fs]; [contradiction|].
  destruct qs as [|q qs]; [discriminate|]. reflexivity.
Qed.

Lemma weights_absent (s : t) :
  (forall f, In f (features s) -> weight f = None) ->
  weights s = None.
Proof.
  intros H. unfold weights.
  replace (forallb is_None (map weight (features s))) with true; [reflexivity|].
  symmetry. apply forallb_forall. intros o Ho.
  apply in_map_iff in Ho. destruct Ho as (f & <- & Hf). now rewrite (H f Hf).
Qed.

(** Triangulation under per-polygon weights that add up to [total]. *)
Lemma get_polys_as_tris_weighted (s : t) (qs : list Q) :
  length qs = length (polygons s) ->
  (forall f, In f (features s) -> ~ (triangulated_area (geometry f) == 0)%Q) ->
  (Qsum qs == 1)%Q ->
  exists tris ws,
    get_polys_as_tris (polygons s) (Some (map Some qs)) s = inr (tris, ws)
    /\ length ws = length tris /\ (Qsum ws == 1)%Q.
Proof.
  intros Hlen Harea Hsum. unfold get_polys_as_tris.
  rewrite length_map, Hlen, Nat.eqb_refl. simpl.
  destruct (scale_tris_run (polygons s) qs Hlen) as (tris & ws & Hrun & _ & Hl & Hs).
  { intros p Hp. unfold polygons in Hp. apply in_map_iff in Hp.
    destruct Hp as (f & <- & Hf). now apply Harea. }
  rewrite Hrun. simpl. rewrite isclose_one by (now rewrite Hs).
  exists tris, ws. repeat split; [exact Hl|now rewrite Hs].
Qed.

(** Triangulation under the default weighting by area. *)
Lemma get_polys_as_tris_default (s : t) :
  ~ (Qsum (map triangle_area (concat (map triangulate_poly (polygons s)))) == 0)%Q ->
  exists tris ws,
    get_polys_as_tris (polygons s) None s = inr (tris, ws)
    /\ length ws = length tris /\ (Qsum ws == 1)%Q.
Proof.
  intros Harea. unfold get_polys_as_tris. simpl.
  rewrite isclose_one by (now apply poly_area_weight_sum).
  eexists. eexists. split; [reflexivity|]. split.
  - apply length_poly_area_weight.
  - now apply poly_area_weight_sum.
Qed.

Lemma base_prepare_transfer (ts : Z) (s : t) :
  snd (Release.prepare_for_model_run ts (base s)) = inr tt ->
  exists b', Release.prepare_after_rewind ts (base (srewound s)) = (b', inr tt).
Proof.
  intros H.
  destruct (Release.prepare_for_model_run ts (base s)) as [b1 res] eqn:E.
  simpl in H. subst res.
  destruct (prepare_inv _ _ _ E)
    as (q & N & m & series & Hq & Hge & HN & Hm & Hs & Hm0 & _).
  exists (after_prepare series m (base (srewound s))).
  apply (prepare_after_rewind_run ts _ q N m series); try assumption.
  - rewrite <- Hq. unfold srewound. destruct (Release._prepared (base s)); reflexivity.
  - rewrite <- HN. unfold srewound. destruct (Release._prepared (base s)); reflexivity.
  - rewrite <- Hm. unfold srewound. destruct (Release._prepared (base s)); reflexivity.
  - rewrite <- Hs. unfold srewound. destruct (Release._prepared (base s)); reflexivity.
Qed.

(** The assertion of [get_polys_as_tris] alone is looser than 1e-6: with
    numpy's default tolerances a sum of 0.99999 passes it. *)
Remark isclose_default_tolerance :
  Np.isclose (99999 # 100000) 1 = true
  /\ ~ (Qabs ((99999 # 100000) - 1) <= 1 # 1000000)%Q.
Proof. split; [reflexivity|]. apply Qlt_not_le. reflexivity. Qed.

Lemma tolerance_of_sum (x : Q) : (x == 1)%Q -> (Qabs (x - 1) <= 1 # 1000000)%Q.
Proof. intros ->. discriminate. Qed.

(** C5: for a valid polygon set, in each of the three weighting modes
    (thickness-derived, explicit weights, default by area), once the
    scheduling part of [prepare_for_model_run] succeeds the whole method
    succeeds and the weights of the triangles add up to 1, within 1e-6
    (exactly, in exact arithmetic). *)
Theorem C5_triangle_weights_sum (ts : Z) (s : t) :
  valid_polygon_set s ->
  for_each check_valid_polygon (polygons s) = inr tt ->
  snd (Release.prepare_for_model_run ts (base s)) = inr tt ->
  exists s' tris ws,
    prepare_for_model_run ts s = (s', inr tt)
    /\ _tris s' = Some tris
    /\ _weights s' = Some ws
    /\ length ws = length tris
    /\ (Qabs (Qsum ws - 1) <= 1 # 1000000)%Q.
Proof.
  intros Hvalid Hcheck Hbase.
  destruct (base_prepare_transfer ts s Hbase) as (b' & Hb').
  assert (Hgoal : exists wsel tris ws,
             (if truthy (thicknesses s)
              then exists d, compute_distribution s = inr d /\ wsel = Some (map Some d)
              else wsel = weights s)
             /\ get_polys_as_tris (polygons s) wsel s = inr (tris, ws)
             /\ length ws = length tris /\ (Qsum ws == 1)%Q).
  { destruct Hvalid as [Hne Hf Htotal | qs Hne Hf Hw Hsum | Hf Harea].
    - set (d := map (fun f => (volume f / Qsum (map volume (features s)))%Q) (features s)).
      assert (Hd : compute_distribution s = inr d).
      { apply compute_distribution_run; try assumption; intros f Hin; now apply Hf. }
      destruct (get_polys_as_tris_weighted s d) as (tris & ws & Hrun & Hl & Hs).
      { unfold d, polygons. now rewrite !length_map. }
      { intros f Hin. now apply Hf. }
      { now apply distribution_sum. }
      exists (Some (map Some d)), tris, ws.
      rewrite thicknesses_present by (try assumption; intros f Hin; now apply Hf).
      destruct (features s) as [|f0 fs] eqn:Efs; [contradiction|]. simpl.
      split; [exists d; now split|]. now repeat split.
    - destruct (get_polys_as_tris_weighted s qs) as (tris & ws & Hrun & Hl & Hs).
      { unfold polygons. rewrite length_map.
        rewrite <- (length_map weight), Hw. now rewrite length_map. }
      { intros f Hin. now apply Hf. }
      { exact Hsum. }
      exists (Some (map Some qs)), tris, ws.
      rewrite thicknesses_absent by (intros f Hin; now apply Hf). simpl.
      split; [symmetry; now apply weights_present|]. now repeat split.
    - destruct (get_polys_as_tris_default s Harea) as (tris & ws & Hrun & Hl & Hs).
      exists None, tris, ws.
      rewrite thicknesses_absent by (intros f Hin; now apply Hf). simpl.
      split; [symmetry; apply weights_absent; intros f Hin; now apply Hf|].
      now repeat split. }
  destruct Hgoal as (wsel & tris & ws & Hsel & Hrun & Hl & Hs).
  destruct (prepare_run ts s b' wsel (tris, ws) Hb' Hcheck Hsel Hrun)
    as (s' & Hprep & Htris & Hweights & _).
  exists s', tris, ws. repeat split; try assumption.
  now apply tolerance_of_sum.
Qed.


Lemma polygons_erase (s : t) : polygons (erase_weights s) = polygons s.
Proof. unfold polygons, erase_weights. simpl. now rewrite map_map. Qed.

Lemma thicknesses_erase (s : t) : thicknesses (erase_weights s) = thicknesses s.
Proof. unfold thicknesses, erase_weights. simpl. now rewrite map_map. Qed.

Lemma compute_distribution_erase (s : t) :
  compute_distribution (erase_weights s) = compute_distribution s.
Proof.
  unfold compute_distribution. now rewrite polygons_erase, thicknesses_erase.
Qed.

Lemma get_polys_as_tris_erase (polys : list polygon) (ws : option (list (option Q))) (s : t) :
  get_polys_as_tris polys ws (erase_weights s) = get_polys_as_tris polys ws s.
Proof. unfold get_polys_as_tris. now rewrite polygons_erase. Qed.

Lemma triangulate_ignores_weights (s : t) :
  truthy (thicknesses s) = true ->
  triangulate_features (erase_weights s)
  = (erase_weights (fst (triangulate_features s)), snd (triangulate_features s)).
Proof.
  intros Hth. unfold triangulate_features, bind, gets, lift, ret, modify.
  rewrite polygons_erase, thicknesses_erase, Hth, compute_distribution_erase.
  destruct (for_each check_valid_polygon (polygons s)) as [e|[]]; [reflexivity|].
  destruct (compute_distribution s) as [e|d]; [reflexivity|].
  rewrite ?polygons_erase, get_polys_as_tris_erase.
  destruct (get_polys_as_tris (polygons s) (Some (map Some d)) s) as [e|res];
    reflexivity.
Qed.

(** With thicknesses on the features, explicit weights play no part in
    [prepare_for_model_run]: erasing them changes neither the outcome nor
    anything else of the instance it leaves. *)
Lemma prepare_ignores_weights (ts : Z) (s : t) :
  truthy (thicknesses s) = true ->
  prepare_for_model_run ts (erase_weights s)
  = (erase_weights (fst (prepare_for_model_run ts s)), snd (prepare_for_model_run ts s)).
Proof.
  intros Hth.
  unfold prepare_for_model_run. unfold bind at 1 4 7. unfold gets at 1 2 3.
  change (Release._prepared (base (erase_weights s))) with (Release._prepared (base s)).
  unfold bind at 1 3 5.
  replace (when (Release._prepared (base s)) rewind (erase_weights s))
    with (erase_weights (srewound s), inr tt : result unit)
    by (unfold srewound, when, ret; destruct (Release._prepared (base s)); reflexivity).
  replace (when (Release._prepared (base s)) rewind s) with (srewound s, inr tt : result unit)
    by (unfold srewound, when, ret; destruct (Release._prepared (base s)); reflexivity).
  assert (Hth1 : truthy (thicknesses (srewound s)) = true).
  { unfold thicknesses. rewrite srewound_features. exact Hth. }
  clear Hth. generalize dependent (srewound s). clear s. intros s1 Hth1.
  unfold bind, zoom.
  change (base (erase_weights s1)) with (base s1).
  destruct (Release.prepare_after_rewind ts (base s1)) as [b' [e|[]]]; [reflexivity|].
  change (set_base b' (erase_weights s1)) with (erase_weights (set_base b' s1)).
  apply triangulate_ignores_weights. exact Hth1.
Qed.


(** The triangles of a polygon set and their weights, each polygon
    carrying the weight [share f]: a triangle weighs its polygon's weight
    times its part of the polygon's triangulated area. *)
Lemma scale_tris_features (fs : list Feature) (share : Feature -> Q) :
  scale_tris (combine (map geometry fs) (map Some (map share fs)))
  = inr (concat (map triangulate_poly (map geometry fs)),
         flat_map
           (fun f => map (fun tri => (share f
                                      * (triangle_area tri / triangulated_area (geometry f)))%Q)
                         (triangulate_poly (geometry f)))
           fs).
Proof.
  induction fs as [|f fs IH]; [reflexivity|].
  cbn [map combine scale_tris flat_map concat].
  rewrite (map_result_inr (Qmult (share f))). cbn [rbind]. rewrite IH. cbn [rbind fst snd].
  unfold poly_area_weight, triangulated_area.
  now rewrite (map_map _ (Qmult (share f))).
Qed.

(** In the thickness mode [prepare_for_model_run] weighs the triangles by
    the volume of their polygons, whatever weights the features carry. *)
Lemma prepare_by_thickness (ts : Z) (s : t) :
  features s <> [] ->
  (forall f, In f (features s) ->
             thickness f <> None
             /\ geo_area_of_polygon (geometry f) <> None
             /\ ~ (triangulated_area (geometry f) == 0)%Q) ->
  ~ (Qsum (map volume (features s)) == 0)%Q ->
  for_each check_valid_polygon (polygons s) = inr tt ->
  snd (Release.prepare_for_model_run ts (base s)) = inr tt ->
  exists s',
    prepare_for_model_run ts s = (s', inr tt)
    /\ _tris s' = Some (concat (map triangulate_poly (polygons s)))
    /\ _weights s'
       = Some (flat_map
                 (fun f => map (fun tri =>
                                  (volume f / Qsum (map volume (features s))
                                   * (triangle_area tri / triangulated_area (geometry f)))%Q)
                               (triangulate_poly (geometry f)))
                 (features s)).
Proof.
  intros Hne Hf Htotal Hcheck Hbase.
  destruct (base_prepare_transfer ts s Hbase) as (b' & Hb').
  set (share := fun f => (volume f / Qsum (map volume (features s)))%Q).
  assert (Hd : compute_distribution s = inr (map share (features s))).
  { apply compute_distribution_run; try assumption; intros f Hin; now apply Hf. }
  destruct (get_polys_as_tris_weighted s (map share (features s)))
    as (tris & ws & Hrun & _ & _).
  { unfold polygons. now rewrite !length_map. }
  { intros f Hin. now apply Hf. }
  { now apply distribution_sum. }
  assert (Hres : tris = concat (map triangulate_poly (polygons s))
                 /\ ws = flat_map
                           (fun f => map (fun tri =>
                                            (share f * (triangle_area tri
                                                        / triangulated_area (geometry f)))%Q)
                                         (triangulate_poly (geometry f)))
                           (features s)).
  { revert Hrun. unfold get_polys_as_tris.
    unfold polygons at 1 2. rewrite !length_map, Nat.eqb_refl. cbn [negb].
    rewrite scale_tris_features. cbn [rbind snd].
    destruct (Np.isclose _ 1); [|discriminate].
    intros [= <- <-]. now split. }
  destruct Hres as [-> ->].
  assert (Hsel : if truthy (thicknesses s)
                 then exists d, compute_distribution s = inr d
                                /\ Some (map Some (map share (features s))) = Some (map Some d)
                 else Some (map Some (map share (features s))) = weights s).
  { rewrite thicknesses_present by (try assumption; intros f Hin; now apply Hf).
    destruct (features s) as [|f0 fs] eqn:Efs; [contradiction|]. cbn [truthy map].
    exists (map share (f0 :: fs)). now split. }
  destruct (prepare_run ts s b' _ _ Hb' Hcheck Hsel Hrun)
    as (s' & Hprep & Htris & Hweights & _).
  exists s'. split; [exact Hprep|]. split; assumption.
Qed.

(** C7: on polygons that carry thicknesses, [compute_distribution] gives
    each polygon the weight area times thickness over the total volume, the
    weights adding up to 1; two polygons of equal area and thicknesses in
    ratio 2:1 get weights in ratio 2:1; and [prepare_for_model_run] uses
    these weights whatever explicit weights the features carry: each
    triangle gets its polygon's share of the volume times its part of the
    polygon's area, and erasing the explicit weights changes nothing. *)
Theorem C7_thickness_weights :
  (forall s : t,
     features s <> [] ->
     (forall f, In f (features s) -> geo_area_of_polygon (geometry f) <> None) ->
     (forall f, In f (features s) -> thickness f <> None) ->
     ~ (Qsum (map volume (features s)) == 0)%Q ->
     exists ws,
       compute_distribution s = inr ws
       /\ ws = map (fun f => (volume f / Qsum (map volume (features s)))%Q) (features s)
       /\ (Qsum ws == 1)%Q)
  /\ (forall (s : t) f1 f2 a1 a2 t1 t2,
        features s = [f1; f2] ->
        geo_area_of_polygon (geometry f1) = Some a1 ->
        geo_area_of_polygon (geometry f2) = Some a2 ->
        thickness f1 = Some t1 -> thickness f2 = Some t2 ->
        (a1 == a2)%Q -> (t1 == 2 * t2)%Q -> ~ (a2 * t2 == 0)%Q ->
        exists w1 w2, compute_distribution s = inr [w1; w2] /\ (w1 == 2 * w2)%Q)
  /\ (forall ts (s : t),
        truthy (thicknesses s) = true ->
        prepare_for_model_run ts (erase_weights s)
        = (erase_weights (fst (prepare_for_model_run ts s)),
           snd (prepare_for_model_run ts s)))
  /\ (forall ts (s : t),
        features s <> [] ->
        (forall f, In f (features s) ->
                   thickness f <> None
                   /\ geo_area_of_polygon (geometry f) <> None
                   /\ ~ (triangulated_area (geometry f) == 0)%Q) ->
        ~ (Qsum (map volume (features s)) == 0)%Q ->
        for_each check_valid_polygon (polygons s) = inr tt ->
        snd (Release.prepare_for_model_run ts (base s)) = inr tt ->
        exists s',
          prepare_for_model_run ts s = (s', inr tt)
          /\ _tris s' = Some (concat (map triangulate_poly (polygons s)))
          /\ _weights s'
             = Some (flat_map
                       (fun f =>
                          map (fun tri =>
                                 (volume f / Qsum (map volume (features s))
                                  * (triangle_area tri / triangulated_area (geometry f)))%Q)
                              (triangulate_poly (geometry f)))
                       (features s))).
Proof.
  split; [|split; [|split]].
  - intros s Hne Ha Ht Htotal. eexists. split; [|split; [reflexivity|]].
    + now apply compute_distribution_run.
    + now apply distribution_sum.
  - intros s f1 f2 a1 a2 t1 t2 Hfs Ha1 Ha2 Ht1 Ht2 Ha Ht Hnz.
    assert (Hv1 : volume f1 = (a1 * t1)%Q) by (unfold volume; now rewrite Ha1, Ht1).
    assert (Hv2 : volume f2 = (a2 * t2)%Q) by (unfold volume; now rewrite Ha2, Ht2).
    assert (Htotal : ~ (Qsum (map volume (features s)) == 0)%Q).
    { rewrite Hfs. simpl. rewrite Hv1, Hv2, Ha, Ht. intros H. apply Hnz.
      setoid_replace (a2 * t2)%Q with ((a2 * (2 * t2) + (a2 * t2 + 0)) * (1 # 3))%Q by ring.
      rewrite H. reflexivity. }
    rewrite compute_distribution_run; try assumption.
    + rewrite Hfs. simpl. eexists. eexists. split; [reflexivity|].
      rewrite Hv1, Hv2, Ha, Ht. unfold Qdiv. ring.
    + rewrite Hfs. discriminate.
    + rewrite Hfs. intros f [<-|[<-|[]]]; congruence.
    + rewrite Hfs. intros f [<-|[<-|[]]]; congruence.
  - exact prepare_ignores_weights.
  - exact prepare_by_thickness.
Qed.

End SpatialProperties.

(** C7 at work on the two slicks, which carry explicit weights of one half
    each: of their three triangles each gets one third, the first slick
    being twice as thick as the second. *)
Lemma C7_witness :
  (exists ws,
     @SpatialRelease.compute_distribution area_lists two_slicks = inr ws
     /\ ws = map (fun f => (volume f / Qsum (map volume (SpatialRelease.features two_slicks)))%Q)
               (SpatialRelease.features two_slicks)
     /\ (Qsum ws == 1)%Q)
  /\ (exists w1 w2,
        @SpatialRelease.compute_distribution area_lists two_slicks = inr [w1; w2]
        /\ (w1 == 2 * w2)%Q)
  /\ SpatialRelease.prepare_for_model_run 900 (erase_weights two_slicks)
     = (erase_weights (fst (SpatialRelease.prepare_for_model_run 900 two_slicks)),
        snd (SpatialRelease.prepare_for_model_run 900 two_slicks))
  /\ (exists s' w1 w2 w3,
        SpatialRelease.prepare_for_model_run 900 two_slicks = (s', inr tt)
        /\ SpatialRelease._weights s' = Some [w1; w2; w3]
        /\ (w1 == 1 # 3)%Q /\ (w2 == 1 # 3)%Q /\ (w3 == 1 # 3)%Q).
Proof.
  split; [|split; [|split]].
  - apply (proj1 (@C7_thickness_weights area_lists) two_slicks).
    + discriminate.
    + intros f _. discriminate.
    + intros f [<-|[<-|[]]]; discriminate.
    + discriminate.
  - apply (proj1 (proj2 (@C7_thickness_weights area_lists)) two_slicks _ _
             (Qsum [1%Q; 1%Q]) (Qsum [2%Q]) 2%Q 1%Q eq_refl eq_refl eq_refl eq_refl eq_refl);
      [reflexivity|reflexivity|discriminate].
  - apply (proj1 (proj2 (proj2 (@C7_thickness_weights area_lists))) 900 two_slicks).
    reflexivity.
  - destruct (proj2 (proj2 (proj2 (@C7_thickness_weights area_lists))) 900 two_slicks)
      as (s' & Hprep & _ & Hw).
    + discriminate.
    + intros f [<-|[<-|[]]]; repeat split; discriminate.
    + discriminate.
    + reflexivity.
    + reflexivity.
    + exists s'. eexists. eexists. eexists. split; [exact Hprep|].
      split; [exact Hw|]. repeat split; reflexivity.
Defined.

(** C5 at work on the two slicks. *)
Lemma C5_witness :
  exists s' tris ws,
    SpatialRelease.prepare_for_model_run 900 two_slicks = (s', inr tt)
    /\ SpatialRelease._tris s' = Some tris
    /\ SpatialRelease._weights s' = Some ws
    /\ length ws = length tris
    /\ (Qabs (Qsum ws - 1) <= 1 # 1000000)%Q.
Proof.
  apply (@C5_triangle_weights_sum area_lists 900 two_slicks).
  - apply valid_by_thickness.
    + discriminate.
    + intros f [<-|[<-|[]]]; repeat split; discriminate.
    + discriminate.
  - reflexivity.
  - reflexivity.
Defined.

(** * Further properties

    What the code guarantees besides: what its methods keep, how they
    fail, and what the other classes and the functions of the module do. *)

(** ** What preparing and rewinding keep *)

Lemma prepare_keeps_config (ts : Z) (r : Release.t) :
  config (fst (Release.prepare_for_model_run ts r)) = config r.
Proof.
  unfold Release.prepare_for_model_run, Release.prepare_after_rewind,
    Release.generate_release_timeseries, Release.rewind.
  run_monad.
  repeat (destruct_scrutinee; simpl; try reflexivity).
Qed.

Lemma rewind_keeps_config (r : Release.t) : config (fst (Release.rewind r)) = config r.
Proof. reflexivity. Qed.

Lemma rewind_of_config (a b : Release.t) :
  config a = config b -> fst (Release.rewind a) = fst (Release.rewind b).
Proof.
  destruct a, b. unfold config. simpl. intros [= -> -> -> -> -> -> ->]. reflexivity.
Qed.

(** X1: [prepare_for_model_run] changes none of the configured attributes,
    whether it returns or raises; [rewind] after it leaves the instance that
    [rewind] alone leaves, and rewinding twice is rewinding once. *)
Theorem X1_rewind_undoes_prepare (ts : Z) (r : Release.t) :
  config (fst (Release.prepare_for_model_run ts r)) = config r
  /\ fst (Release.rewind (fst (Release.prepare_for_model_run ts r)))
     = fst (Release.rewind r)
  /\ fst (Release.rewind (fst (Release.rewind r))) = fst (Release.rewind r).
Proof.
  split; [apply prepare_keeps_config|]. split.
  - apply rewind_of_config, prepare_keeps_config.
  - reflexivity.
Qed.

Lemma failed_prepare_unprepared (ts : Z) (r : Release.t) (e : exception) :
  snd (Release.prepare_for_model_run ts r) = inl e ->
  Release._prepared (fst (Release.prepare_for_model_run ts r)) = false.
Proof.
  unfold Release.prepare_for_model_run, Release.prepare_after_rewind,
    Release.generate_release_timeseries, Release.rewind.
  run_monad.
  repeat (destruct_scrutinee; simpl; try (intros _; reflexivity); try discriminate);
    intros _; assumption.
Qed.

(** X2: when [prepare_for_model_run] raises, whatever the exception, the
    instance is left unprepared, and [num_elements_after_time] answers 0 at
    every time. *)
Theorem X2_failed_prepare (ts : Z) (r : Release.t) (e : exception) :
  snd (Release.prepare_for_model_run ts r) = inl e ->
  Release._prepared (fst (Release.prepare_for_model_run ts r)) = false
  /\ forall t dt,
       Release.num_elements_after_time t dt (fst (Release.prepare_for_model_run ts r))
       = inr 0.
Proof.
  intros H. pose proof (failed_prepare_unprepared ts r e H) as Hp.
  split; [exact Hp|]. intros t dt. unfold Release.num_elements_after_time.
  now rewrite Hp.
Qed.

Lemma counts_consistent_config (a b : Release.t) :
  config a = config b -> counts_consistent b -> counts_consistent a.
Proof.
  unfold config, counts_consistent, Release.num_elements, Release.num_per_timestep.
  intros [= _ _ _ -> -> _ _]. trivial.
Qed.

Lemma run_call_counts_consistent (c : call) (r : Release.t) :
  counts_consistent r -> counts_consistent (fst (run_call c r)).
Proof.
  intros H. destruct c; cbn [run_call]; try exact H.
  - unfold Release.end_release_time_setter. run_monad.
    repeat (destruct_scrutinee; simpl; try exact H).
  - unfold Release.num_elements_setter. run_monad.
    destruct H as [Hex Hpos].
    unfold counts_consistent, Release.num_elements, Release.num_per_timestep in *.
    repeat (destruct_scrutinee; simpl);
      (split; [tauto|]); try assumption; try discriminate; intros k [= <-]; lia.
  - unfold Release.num_per_timestep_setter. run_monad.
    destruct H as [Hex Hpos].
    unfold counts_consistent, Release.num_elements, Release.num_per_timestep in *.
    destruct v; simpl; split; try tauto; try discriminate; exact Hpos.
  - eapply counts_consistent_config; [|exact H]. apply prepare_keeps_config.
Qed.

Lemma run_calls_counts_consistent (cs : list call) (r : Release.t) :
  counts_consistent r -> counts_consistent (run_calls cs r).
Proof.
  revert r. induction cs as [|c cs IH]; intros r H; simpl; [exact H|].
  apply IH. now apply run_call_counts_consistent.
Qed.

Lemma init_counts_consistent (now : datetime) (rt : option datetime) (n m : option Z)
  (e : option datetime) (cp : option (list position)) (rm : option pyfloat) (r : Release.t) :
  Release.new now rt n m e cp rm = inr r -> counts_consistent r.
Proof.
  unfold Release.new, Release.__init__, Release.end_release_time_setter,
    Release.num_elements_setter, Release.rewind, Release.asdatetime,
    Release.release_mass_setter.
  run_monad.
  repeat (destruct_scrutinee; simpl; try discriminate);
    intros [= <-]; unfold counts_consistent; simpl;
    (split; [tauto|]); try discriminate; intros k [= <-]; lia.
Qed.

(** X3: the setter of [num_elements] refuses a negative number and leaves
    the instance as it was; and after construction, whatever calls follow
    (failed ones included), [num_elements] and [num_per_timestep] are never
    both set and [num_elements] is never negative. *)
Theorem X3_counts_invariant :
  (forall v r, v < 0 ->
     exists msg, Release.num_elements_setter (Some v) r = (r, inl (ValueError msg)))
  /\ (forall now rt n m e cp rm r cs,
        Release.new now rt n m e cp rm = inr r ->
        counts_consistent (run_calls cs r)).
Proof.
  split.
  - intros v r Hv. unfold Release.num_elements_setter. run_monad.
    apply Z.ltb_lt in Hv. rewrite Hv. eexists. reflexivity.
  - intros now rt n m e cp rm r cs Hnew.
    apply run_calls_counts_consistent. exact (init_counts_consistent _ _ _ _ _ _ _ _ Hnew).
Qed.

Lemma init_times_in_order (now : datetime) (rt : option datetime) (n m : option Z)
  (e : option datetime) (cp : option (list position)) (rm : option pyfloat) (r : Release.t) :
  Release.new now rt n m e cp rm = inr r -> times_in_order r.
Proof.
  unfold Release.new, Release.__init__, Release.end_release_time_setter,
    Release.num_elements_setter, Release.rewind, Release.asdatetime,
    Release.release_mass_setter.
  run_monad.
  repeat (destruct_scrutinee; simpl; try discriminate);
    intros [= <-]; unfold times_in_order; simpl;
    eexists; (split; [reflexivity|]); try discriminate;
    intros e' [= <-]; apply Z.ltb_ge; assumption.
Qed.

Lemma steps_cover (ts : Z) (r : Release.t) (d : Q) :
  0 < ts -> Release.release_duration r = inr d -> (0 <= d)%Q ->
  exists N,
    Release.get_num_release_time_steps ts r = inr N
    /\ 1 <= N
    /\ (d <= inject_Z (N * ts))%Q
    /\ ((0 < d)%Q -> (inject_Z ((N - 1) * ts) < d)%Q).
Proof.
  intros Hts Hd Hpos. unfold Release.get_num_release_time_steps. rewrite Hd. simpl.
  destruct (Z.eqb_spec ts 0); [lia|].
  assert (Hts' : (0 < inject_Z ts)%Q) by (unfold Qlt; simpl; lia).
  set (c := Qceiling (d / inject_Z ts)).
  assert (Hup : (d <= inject_Z c * inject_Z ts)%Q).
  { setoid_replace d with (d / inject_Z ts * inject_Z ts)%Q at 1
      by (field; intros H0; rewrite H0 in Hts'; discriminate).
    apply Qmult_le_compat_r; [apply Qle_ceiling|now apply Qlt_le_weak]. }
  assert (Hlow : (inject_Z (c - 1) * inject_Z ts < d)%Q).
  { setoid_replace d with (d / inject_Z ts * inject_Z ts)%Q
      by (field; intros H0; rewrite H0 in Hts'; discriminate).
    apply Qmult_lt_compat_r; [exact Hts'|apply Qceiling_lt]. }
  assert (Hc : 0 <= c).
  { unfold c. change 0 with (Qceiling 0). apply Qceiling_resp_le.
    apply Qle_shift_div_l; [exact Hts'|now rewrite Qmult_0_l]. }
  destruct (Z.eqb_spec c 0) as [H0|Hn0].
  - exists 1. split; [reflexivity|]. split; [lia|]. split.
    + rewrite H0 in Hup. rewrite Qmult_0_l in Hup.
      apply Qle_trans with 0%Q; [exact Hup|].
      rewrite Z.mul_1_l. now apply Qlt_le_weak.
    + intros Hd0. exact Hd0.
  - exists c. split; [reflexivity|]. split; [lia|]. split.
    + now rewrite inject_Z_mult.
    + intros _. now rewrite inject_Z_mult.
Qed.

(** X4: for a positive time step and a duration [d >= 0],
    [get_num_release_time_steps] returns the least [N >= 1] such that [N]
    steps cover the duration; a time step of 0 is a [ZeroDivisionError]. *)
Theorem X4_steps_cover_duration :
  (forall ts r d,
     0 < ts -> Release.release_duration r = inr d -> (0 <= d)%Q ->
     exists N,
       Release.get_num_release_time_steps ts r = inr N
       /\ 1 <= N
       /\ (d <= inject_Z (N * ts))%Q
       /\ ((0 < d)%Q -> (inject_Z ((N - 1) * ts) < d)%Q))
  /\ (forall r d, Release.release_duration r = inr d ->
                  Release.get_num_release_time_steps 0 r = inl ZeroDivisionError).
Proof.
  split; [exact steps_cover|].
  intros r d Hd. unfold Release.get_num_release_time_steps. now rewrite Hd.
Qed.

(** X5: after a successful [prepare_for_model_run] the mass per element
    times the number of elements to release is the release mass; that
    number is [num_elements] when no rate per time step is set.  (A
    release mass that is NaN gives a mass per element that is NaN.) *)
Theorem X5_mass_conservation (ts : Z) (r r' : Release.t) :
  Release.prepare_for_model_run ts r = (r', inr tt) ->
  exists N m,
    Release.get_num_release_time_steps ts r = inr N
    /\ Release.max_release N r = inr m
    /\ (Release.num_per_timestep r = None -> Release.num_elements r = Some m)
    /\ match Release.release_mass r with
       | Fin rm =>
           exists mle, Release._mass_per_le r' = Fin mle /\ (mle * inject_Z m == rm)%Q
       | NaN => Release._mass_per_le r' = NaN
       end.
Proof.
  intros H.
  destruct (prepare_inv _ _ _ H)
    as (q & N & m & series & Hq & Hge & HN & Hm & Hs & Hm0 & ->).
  exists N, m. split; [exact HN|]. split; [exact Hm|]. split.
  - intros Hnone. revert Hm. unfold Release.max_release. rewrite Hnone.
    destruct (Release.num_elements r); [now intros [= ->]|discriminate].
  - assert (Hmass : Release._mass_per_le (after_prepare series m (rewound r))
                    = Float.div (Float.mul (Release.release_mass r) 1) (inject_Z m)).
    { unfold after_prepare, rewound.
      destruct (Release._prepared r); simpl;
        destruct (is_cls_Release (Release.klass r)); reflexivity. }
    rewrite Hmass. destruct (Release.release_mass r) as [rm|]; simpl; [|reflexivity].
    eexists. split; [reflexivity|].
    field. intros H0. unfold Qeq in H0. simpl in H0. lia.
Qed.

Lemma prepare_starved (ts : Z) (r : Release.t) (q : Q) :
  Release.LE_timestep_ratio ts r = inr q -> (q < 1)%Q ->
  Release.prepare_for_model_run ts r
  = (rewound r, inl (ValueError Release.msg_not_enough_LEs)).
Proof.
  intros Hq Hlt. rewrite prepare_unfold.
  rewrite <- (rewound_pure (Release.LE_timestep_ratio ts)) in Hq by reflexivity.
  unfold Release.prepare_after_rewind. run_monad. rewrite Hq.
  apply Qlt_bool_iff in Hlt. now rewrite Hlt.
Qed.

(** X6: on a Release as its constructor leaves it, and for a positive time
    step, the ratio of elements to time steps is defined;
    [prepare_for_model_run] returns when the ratio is at least 1, and
    otherwise raises the [ValueError] of the ratio check and leaves the
    instance exactly as it was. *)
Theorem X6_constructed_prepare (now : datetime) (rt : option datetime) (n m : option Z)
  (e : option datetime) (cp : option (list position)) (rm : option pyfloat)
  (r : Release.t) (ts : Z) :
  Release.new now rt n m e cp rm = inr r -> 0 < ts ->
  exists q,
    Release.LE_timestep_ratio ts r = inr q
    /\ ((1 <= q)%Q -> exists r', Release.prepare_for_model_run ts r = (r', inr tt))
    /\ ((q < 1)%Q ->
        Release.prepare_for_model_run ts r
        = (r, inl (ValueError Release.msg_not_enough_LEs))).
Proof.
  intros Hnew Hts.
  destruct (init_times_in_order _ _ _ _ _ _ _ _ Hnew) as (s & Hs & He).
  destruct (init_counts_consistent _ _ _ _ _ _ _ _ Hnew) as [Hone _].
  destruct (duration_nonneg r s Hs He) as (d & e' & Hd & Hpos & _).
  destruct (steps_positive ts r d Hts Hd Hpos) as (N & HN & _).
  assert (Hq : exists q, Release.LE_timestep_ratio ts r = inr q).
  { unfold Release.LE_timestep_ratio. rewrite HN.
    destruct (Release.num_elements r) as [k|] eqn:Ek.
    - eexists. reflexivity.
    - destruct (Release.num_per_timestep r) as [k|] eqn:Ep; [eexists; reflexivity|].
      exfalso. revert Hnew Ek Ep.
      unfold Release.new, Release.__init__, Release.end_release_time_setter,
        Release.num_elements_setter, Release.rewind, Release.asdatetime,
        Release.release_mass_setter.
      run_monad.
      repeat (destruct_scrutinee; simpl; try discriminate);
        intros [= <-]; simpl; discriminate. }
  destruct Hq as (q & Hq). exists q. split; [exact Hq|]. split.
  - intros Hge. now apply (prepare_succeeds ts r q s).
  - intros Hlt. rewrite (prepare_starved ts r q Hq Hlt). f_equal.
    unfold rewound.
    replace (Release._prepared r) with false; [reflexivity|].
    revert Hnew.
    unfold Release.new, Release.__init__, Release.end_release_time_setter,
      Release.num_elements_setter, Release.rewind, Release.asdatetime,
      Release.release_mass_setter.
    run_monad.
    repeat (destruct_scrutinee; simpl; try discriminate); now intros [= <-].
Qed.

(** ** The number of elements over time *)

Lemma interp_bounds (pts : list (datetime * Z)) (t : datetime) (lo hi : Z) :
  pts <> [] ->
  (forall p, In p pts -> lo <= snd p <= hi) ->
  (inject_Z lo <= Ts.interp pts t <= inject_Z hi)%Q.
Proof.
  induction pts as [|[t0 v0] rest IH]; intros Hne Hb; [contradiction|].
  assert (H0 : lo <= v0 <= hi) by (apply (Hb (t0, v0)); now left).
  assert (Hv0 : (inject_Z lo <= inject_Z v0 <= inject_Z hi)%Q)
    by (rewrite <- !Zle_Qle; exact H0).
  simpl. destruct (Z.leb_spec t t0) as [|Hgt]; [exact Hv0|].
  destruct rest as [|[t1 v1] rest']; [exact Hv0|].
  destruct (Z.ltb_spec t t1) as [Hlt|Hge].
  - assert (H1 : lo <= v1 <= hi) by (apply (Hb (t1, v1)); right; now left).
    assert (Hv1 : (inject_Z lo <= inject_Z v1 <= inject_Z hi)%Q)
      by (rewrite <- !Zle_Qle; exact H1).
    set (f := (inject_Z (t - t0) / inject_Z (t1 - t0))%Q).
    assert (Hf : (0 <= f <= 1)%Q).
    { unfold f. split.
      - apply Qle_shift_div_l; [unfold Qlt; simpl; lia|].
        rewrite Qmult_0_l. unfold Qle. simpl. lia.
      - apply Qle_shift_div_r; [unfold Qlt; simpl; lia|].
        rewrite Qmult_1_l. rewrite <- Zle_Qle. lia. }
    replace (v1 - v0) with (v1 + - v0) by lia.
    rewrite inject_Z_plus, inject_Z_opp.
    destruct Hv0, Hv1, Hf. split; nra.
  - apply IH; [discriminate|]. intros p Hp. apply Hb. now right.
Qed.

Lemma interp_last (front : list (datetime * Z)) (e : datetime) (v : Z) (t : datetime) :
  (forall p, In p front -> fst p < t) -> e <= t ->
  Ts.interp (front ++ [(e, v)]) t = inject_Z v.
Proof.
  induction front as [|[t0 v0] rest IH]; intros Hfront He.
  - simpl. destruct (t <=? e); reflexivity.
  - assert (H0 : t0 < t) by (apply (Hfront (t0, v0)); now left).
    cbn [app Ts.interp]. destruct (Z.leb_spec t t0); [lia|].
    assert (Hrest : Ts.interp (rest ++ [(e, v)]) t = inject_Z v).
    { apply IH; [|exact He]. intros p Hp. apply Hfront. now right. }
    destruct (rest ++ [(e, v)]) as [|[t1 v1] l] eqn:El.
    + destruct rest; discriminate.
    + assert (H1 : t1 <= t).
      { destruct rest as [|[t1' v1'] rest'].
        - injection El as <- _ _. exact He.
        - injection El as <- _ _. apply Z.lt_le_incl. apply (Hfront (t1', v1')).
          right. now left. }
      destruct (Z.ltb_spec t t1); [lia|]. exact Hrest.
Qed.

Lemma range_bounds (n i : Z) : In i (range n) -> 0 <= i < n.
Proof.
  unfold range. rewrite in_map_iff. intros (k & <- & Hk).
  apply in_seq in Hk. lia.
Qed.

Lemma combine_app_same {A B : Type} (l1 l2 : list A) (k1 k2 : list B) :
  length l1 = length k1 ->
  combine (l1 ++ l2) (k1 ++ k2) = combine l1 k1 ++ combine l2 k2.
Proof.
  revert k1. induction l1 as [|a l1 IH]; intros [|b k1] H; try discriminate.
  - reflexivity.
  - simpl. f_equal. apply IH. simpl in H. lia.
Qed.

Lemma Qceiling_between (x : Q) (lo hi : Z) :
  (inject_Z lo <= x <= inject_Z hi)%Q -> lo <= Qceiling x <= hi.
Proof.
  intros [Hlo Hhi]. split.
  - rewrite <- (Qceiling_Z lo). now apply Qceiling_resp_le.
  - rewrite <- (Qceiling_Z hi). now apply Qceiling_resp_le.
Qed.

Lemma max_release_positive (ts : Z) (r : Release.t) (q : Q) (N m : Z) :
  1 <= N ->
  Release.num_elements r = None \/ Release.num_per_timestep r = None ->
  Release.get_num_release_time_steps ts r = inr N ->
  Release.LE_timestep_ratio ts r = inr q -> (1 <= q)%Q ->
  Release.max_release N r = inr m -> 1 <= m.
Proof.
  intros HN Hone Hsteps. unfold Release.LE_timestep_ratio, Release.max_release.
  rewrite Hsteps.
  destruct (Release.num_elements r) as [n|], (Release.num_per_timestep r) as [p|];
    simpl; try discriminate.
  - destruct Hone; discriminate.
  - intros [= <-] Hge [= <-].
    assert (H : (inject_Z N <= inject_Z n)%Q).
    { apply Qle_trans with (1 * inject_Z N)%Q; [rewrite Qmult_1_l; apply Qle_refl|].
      setoid_replace (inject_Z n) with (1 * inject_Z n / inject_Z N * inject_Z N)%Q
        by (field; intros H0; unfold Qeq in H0; simpl in H0; lia).
      apply Qmult_le_compat_r; [exact Hge|]. unfold Qle. simpl. lia. }
    rewrite <- Zle_Qle in H. lia.
  - intros [= <-] Hge [= <-]. unfold Qle in Hge. simpl in Hge. nia.
Qed.

Lemma series_values_bounded (N m : Z) (v : Z) :
  1 <= N -> 0 <= m ->
  In v (map (fun i => Z.quot (i * m) N) (range (N + 1))) -> 0 <= v <= m.
Proof.
  intros HN Hm Hin. apply in_map_iff in Hin. destruct Hin as (i & <- & Hi).
  apply range_bounds in Hi. split.
  - apply Z.quot_pos; nia.
  - replace m with (Z.quot (N * m) N) at 2 by (rewrite Z.mul_comm; apply Z.quot_mul; lia).
    apply Z.quot_le_mono; nia.
Qed.

(** Every sample time but the last lies before the end of the release. *)
Lemma sample_times_before_end (ts N : Z) (s e i : Z) (d : Q) :
  d = total_seconds (e - s) ->
  (inject_Z ((N - 1) * ts) < d)%Q -> 0 < ts ->
  0 <= i < N -> s + timedelta_seconds (ts * i) < e.
Proof.
  intros -> Hlt Hts Hi. unfold total_seconds, Qlt in Hlt. simpl in Hlt.
  unfold timedelta_seconds. nia.
Qed.

Lemma after_prepare_fields (series : TimeseriesData) (m : Z) (r : Release.t) :
  Release.klass r = cls_Release ->
  Release._prepared (after_prepare series m (rewound r)) = true
  /\ Release.release_time (after_prepare series m (rewound r)) = Release.release_time r
  /\ Release._release_ts (after_prepare series m (rewound r)) = Some series.
Proof.
  intros Hk. unfold after_prepare, rewound.
  destruct (Release._prepared r); simpl; rewrite Hk; simpl; repeat split.
Qed.

Lemma duration_of_times (r : Release.t) (d : Q) (s e : datetime) :
  Release.release_duration r = inr d ->
  Release.release_time r = Some s -> Release.end_release_time r = Some e ->
  d = total_seconds (e - s).
Proof.
  unfold Release.release_duration. intros H Hs He. rewrite He, Hs in H.
  now injection H as <-.
Qed.

Lemma release_count_over_time (ts : Z) (r r' : Release.t) :
  Release.prepare_for_model_run ts r = (r', inr tt) ->
  Release.klass r = cls_Release ->
  Release.num_elements r = None \/ Release.num_per_timestep r = None ->
  exists N m s e,
    Release.get_num_release_time_steps ts r = inr N
    /\ Release.max_release N r = inr m
    /\ Release.release_time r = Some s
    /\ Release.end_release_time r = Some e
    /\ 1 <= m
    /\ (forall t dt,
          exists k, Release.num_elements_after_time t dt r' = inr k
                    /\ 0 <= k <= m /\ (t < s -> k = 0))
    /\ (0 < ts -> s <= e ->
        forall t dt, s <= t -> e <= t + timedelta_seconds dt ->
                     Release.num_elements_after_time t dt r' = inr m).
Proof.
  intros H Hk Hone.
  destruct (prepare_inv _ _ _ H)
    as (q & N & m & series & Hq & Hge & HN & Hm & Hs & Hm0 & ->).
  assert (H1 : 1 <= N).
  { apply (release_timeseries_steps _ _ _ _ _ Hs). exact (steps_nonzero _ _ _ HN). }
  destruct (release_timeseries_inv _ _ _ _ _ H1 Hs)
    as (d & s & e & Hd & Hrt & Hert & Hzero & Hpos).
  pose proof (max_release_positive ts r q N m H1 Hone HN Hq Hge Hm) as Hmpos.
  destruct (after_prepare_fields series m r Hk) as (Hprep & Hrt' & Hts').
  exists N, m, s, e. repeat (split; [assumption|]).
  assert (Hdata : forall v, In v (ts_data series) -> 0 <= v <= m).
  { intros v Hv. destruct (Qeq_dec d 0) as [Hd0|Hd0].
    - rewrite (Hzero Hd0 (duration_zero_steps _ _ _ _ Hd Hd0 HN)) in Hv.
      simpl in Hv. destruct Hv as [<-|[<-|[]]]; lia.
    - rewrite (Hpos Hd0) in Hv. simpl in Hv.
      apply (series_values_bounded N m v); [exact H1|lia|exact Hv]. }
  assert (Hne : combine (ts_time series) (ts_data series) <> []).
  { destruct (Qeq_dec d 0) as [Hd0|Hd0].
    - rewrite (Hzero Hd0 (duration_zero_steps _ _ _ _ Hd Hd0 HN)). discriminate.
    - rewrite (Hpos Hd0). simpl. rewrite range_succ by lia.
      rewrite map_app. simpl.
      rewrite combine_app_same by (now rewrite !length_map).
      intros Hnil. apply app_eq_nil in Hnil. destruct Hnil as [_ Hnil]. discriminate. }
  split.
  - intros t dt. unfold Release.num_elements_after_time.
    rewrite Hprep, Hrt', Hrt, Hts'. simpl.
    destruct (Z.ltb_spec t s) as [Hlt|Hnlt].
    + exists 0. split; [reflexivity|]. split; [lia|reflexivity].
    + eexists. split; [reflexivity|]. split; [|lia].
      apply Qceiling_between. unfold Ts.at_. apply interp_bounds; [exact Hne|].
      intros p Hp. apply Hdata. destruct p as [tp vp]. simpl.
      exact (in_combine_r _ _ _ _ Hp).
  - intros Hts Hse t dt Hst Het. unfold Release.num_elements_after_time.
    rewrite Hprep, Hrt', Hrt, Hts'. simpl.
    destruct (Z.ltb_spec t s) as [Hlt|_]; [lia|]. f_equal.
    destruct (Qeq_dec d 0) as [Hd0|Hd0].
    + assert (Hb : m <= Qceiling (Ts.at_ series (t + timedelta_seconds dt)) <= m);
        [|lia].
      apply Qceiling_between. unfold Ts.at_. apply interp_bounds; [exact Hne|].
      intros p Hp. destruct p as [tp vp]. simpl.
      apply in_combine_r in Hp.
      rewrite (Hzero Hd0 (duration_zero_steps _ _ _ _ Hd Hd0 HN)) in Hp.
      simpl in Hp. destruct Hp as [<-|[<-|[]]]; lia.
    + rewrite <- (Qceiling_Z m). f_equal. unfold Ts.at_. rewrite (Hpos Hd0). simpl.
      rewrite (range_succ N) by lia. rewrite map_app. simpl.
      rewrite combine_app_same by (now rewrite !length_map). simpl.
      replace (Z.quot (N * m) N) with m by (rewrite Z.mul_comm; symmetry; apply Z.quot_mul; lia).
      apply interp_last; [|exact Het].
      intros [tp vp] Hp. simpl. apply in_combine_l in Hp.
      apply in_map_iff in Hp. destruct Hp as (i & <- & Hi). apply range_bounds in Hi.
      assert (Hdpos : (0 <= d)%Q).
      { rewrite (duration_of_times r d s e Hd Hrt Hert).
        unfold total_seconds, Qle. simpl. lia. }
      destruct (steps_cover ts r d Hts Hd Hdpos) as (N' & HN' & _ & _ & Hlow).
      rewrite HN in HN'. injection HN' as <-.
      assert (Hd1 : (0 < d)%Q).
      { destruct (Qlt_le_dec 0 d) as [|Hle]; [assumption|].
        exfalso. apply Hd0. now apply Qle_antisym. }
      assert (Hbefore : s + timedelta_seconds (ts * i) < e).
      { apply (sample_times_before_end ts N s e i d); try assumption.
        - exact (duration_of_times r d s e Hd Hrt Hert).
        - now apply Hlow. }
      lia.
Qed.





Lemma map_snd_combine {A B : Type} (l : list A) (k : list B) :
  length l = length k -> map snd (combine l k) = k.
Proof.
  revert k. induction l as [|a l IH]; intros [|b k] H; try discriminate; simpl.
  - reflexivity.
  - f_equal. apply IH. simpl in H. lia.
Qed.


(** ** Custom positions and grids *)

Lemma initialize_LEs_no_positions (rand : nat -> nat) (to_rel : Z)
  (data : Release.ElementBatch) (current_time : datetime) (time_step : Z) (r : Release.t) :
  Release.custom_positions r = None \/ Release.custom_positions r = Some [] ->
  exists msg,
    Release.initialize_LEs rand to_rel data current_time time_step r
    = inl (ValueError msg).
Proof.
  intros [H|H]; unfold Release.initialize_LEs; rewrite H; eexists; reflexivity.
Qed.

Lemma initialize_LEs_raises (rand : nat -> nat) (to_rel : Z)
  (data : Release.ElementBatch) (current_time : datetime) (time_step : Z)
  (r : Release.t) (locs : list position) :
  Release.custom_positions r = Some locs ->
  to_rel <> Z.of_nat (length locs) ->
  exists e, Release.initialize_LEs rand to_rel data current_time time_step r = inl e.
Proof.
  intros Hlocs Hdiff.
  destruct locs as [|l0 locs'] eqn:El.
  { unfold Release.initialize_LEs. rewrite Hlocs. eexists. reflexivity. }
  rewrite <- El in *.
  assert (Hne : locs <> []) by (rewrite El; discriminate).
  destruct (Z.lt_trichotomy to_rel 0) as [Hneg|[->|Hpos]].
  - unfold Release.initialize_LEs. rewrite Hlocs, El. rewrite <- El.
    destruct (Z.eqb_spec to_rel 0); [lia|].
    assert (HP : 0 < Z.of_nat (length locs)) by (rewrite El; simpl; lia).
    assert (Hq : Z.of_nat (length locs) / to_rel < 0).
    { pose proof (Z.div_mod (Z.of_nat (length locs)) to_rel ltac:(lia)) as Hdm.
      pose proof (Z.mod_neg_bound (Z.of_nat (length locs)) to_rel Hneg) as Hb.
      nia. }
    apply Z.ltb_lt in Hq. rewrite Hq. eexists. reflexivity.
  - unfold Release.initialize_LEs. rewrite Hlocs, El. eexists. reflexivity.
  - eexists. exact (initialize_LEs_asserts rand to_rel data current_time time_step r locs
                      Hlocs Hne Hpos Hdiff).
Qed.

(** X9: [initialize_LEs] raises a [ValueError] when there are no custom
    positions, and it raises, writing nothing, whenever [to_rel] is not the
    number of custom positions (zero and negative numbers included). *)
Theorem X9_initialize_LEs_edges :
  (forall rand to_rel data current_time time_step r,
     Release.custom_positions r = None \/ Release.custom_positions r = Some [] ->
     exists msg,
       Release.initialize_LEs rand to_rel data current_time time_step r
       = inl (ValueError msg))
  /\ (forall rand to_rel data current_time time_step r locs,
        Release.custom_positions r = Some locs ->
        to_rel <> Z.of_nat (length locs) ->
        exists e,
          Release.initialize_LEs rand to_rel data current_time time_step r = inl e).
Proof.
  split; [exact initialize_LEs_no_positions|exact initialize_LEs_raises].
Qed.

Lemma length_linspace (a b : Q) (n : Z) :
  0 <= n -> length (Np.linspace a b n) = Z.to_nat n.
Proof.
  intros Hn. unfold Np.linspace.
  destruct (Z.leb_spec n 0); [replace n with 0 by lia; reflexivity|].
  destruct (Z.eqb_spec n 1) as [->|]; [reflexivity|].
  rewrite length_app, length_map. unfold range. rewrite length_map, length_seq.
  simpl. lia.
Qed.

Lemma length_grid {A B C : Type} (f : A -> B -> C) (xs : list A) (ys : list B) :
  length (flat_map (fun x => map (f x) ys) xs) = (length xs * length ys)%nat.
Proof.
  induction xs as [|x xs IH]; simpl; [reflexivity|].
  now rewrite length_app, length_map, IH.
Qed.

Lemma grid_z_zero (lon lat : list Q) (p : position) :
  In p (flat_map (fun la => map (fun lo => (lo, la, 0%Q)) lon) lat) -> snd p = 0%Q.
Proof.
  intros H. apply in_flat_map in H. destruct H as (la & _ & H).
  apply in_map_iff in H. destruct H as (lo & <- & _). reflexivity.
Qed.

Lemma new_instantaneous (now T : datetime) (n : Z) (locs : option (list position)) :
  0 <= n ->
  Release.new now (Some T) (Some n) None None locs (Some (Fin 0))
  = inr (Release.mk cls_Release (Some T) None (Some n) None 0 locs false 0 None None).
Proof.
  intros Hn. apply new_inr. run_init.
  destruct (Z.ltb_spec n 0); [lia|]. reflexivity.
Qed.

(** An instantaneous release of [n >= 1] elements: preparing it succeeds,
    and from the release time on all [n] elements are due. *)
Lemma instantaneous_prepare (T : datetime) (n ts : Z) (locs : option (list position)) :
  1 <= n -> 0 < ts ->
  exists r',
    Release.prepare_for_model_run ts
      (Release.mk cls_Release (Some T) None (Some n) None 0 locs false 0 None None)
    = (r', inr tt)
    /\ Release.custom_positions r' = locs
    /\ forall t dt, T <= t -> 0 <= dt ->
                    Release.num_elements_after_time t dt r' = inr n.
Proof.
  intros Hn Hts.
  set (r := Release.mk cls_Release (Some T) None (Some n) None 0 locs false 0 None None).
  assert (Hq : Release.LE_timestep_ratio ts r = inr (1 * inject_Z n / inject_Z 1)%Q).
  { unfold Release.LE_timestep_ratio, Release.get_num_release_time_steps. simpl.
    rewrite Z.sub_diag. destruct (Z.eqb_spec ts 0); [lia|].
    destruct ts; try lia. reflexivity. }
  assert (Hprep : exists r', Release.prepare_for_model_run ts r = (r', inr tt)).
  { apply (prepare_succeeds ts r (1 * inject_Z n / inject_Z 1)%Q T Hts eq_refl).
    - intros e [=].
    - now right.
    - exact Hq.
    - setoid_replace (1 * inject_Z n / inject_Z 1)%Q with (inject_Z n)
        by (field; discriminate).
      change 1%Q with (inject_Z 1). rewrite <- Zle_Qle. lia. }
  destruct Hprep as (r' & Hprep).
  - exists r'. split; [exact Hprep|]. split.
    + pose proof (prepare_keeps_config ts r) as Hc. rewrite Hprep in Hc.
      unfold config in Hc. simpl in Hc. now injection Hc.
    + destruct (release_count_over_time ts r r' Hprep eq_refl (or_intror eq_refl))
        as (N & m & s & e & HN & Hm & Hs & He & _ & _ & Hall).
      simpl in Hs, He. injection Hs as <-. injection He as <-.
      unfold Release.max_release in Hm. simpl in Hm. injection Hm as <-.
      intros t dt Ht Hdt. apply Hall; try lia. unfold timedelta_seconds. lia.
Qed.

(** X10: for a resolution [n >= 0], [GridRelease] builds a Release of
    [n * n] elements with [n * n] custom positions, all at [z = 0], and no
    rate per time step; for [n >= 1] and a positive time step preparing it
    succeeds, keeps the positions, and all [n * n] elements are due from the
    release time on. *)
Theorem X10_GridRelease (now T : datetime) (bounds : (Q * Q) * (Q * Q))
  (resolution : Z) :
  0 <= resolution ->
  exists r locs,
    GridRelease now (Some T) bounds resolution = inr r
    /\ Release.num_elements r = Some (resolution * resolution)
    /\ Release.num_per_timestep r = None
    /\ Release.custom_positions r = Some locs
    /\ Z.of_nat (length locs) = resolution * resolution
    /\ (forall p, In p locs -> snd p = 0%Q)
    /\ (1 <= resolution -> forall ts, 0 < ts ->
        exists r',
          Release.prepare_for_model_run ts r = (r', inr tt)
          /\ Release.custom_positions r' = Some locs
          /\ (forall t dt, T <= t -> 0 <= dt ->
                Release.num_elements_after_time t dt r'
                = inr (resolution * resolution))).
Proof.
  intros Hres. unfold GridRelease.
  destruct (Z.ltb_spec resolution 0); [lia|].
  set (lon := Np.linspace (fst (fst bounds)) (fst (snd bounds)) resolution).
  set (lat := Np.linspace (snd (fst bounds)) (snd (snd bounds)) resolution).
  set (locs := flat_map (fun la => map (fun lo => (lo, la, 0%Q)) lon) lat).
  assert (Hlen : Z.of_nat (length locs) = resolution * resolution).
  { unfold locs. rewrite length_grid. unfold lon, lat.
    rewrite !length_linspace by lia. lia. }
  cbv zeta. rewrite new_instantaneous by lia.
  eexists. exists locs. split; [reflexivity|]. simpl.
  split; [now rewrite Hlen|]. split; [reflexivity|]. split; [reflexivity|].
  split; [exact Hlen|].
  split; [intros p Hp; exact (grid_z_zero lon lat p Hp)|].
  intros Hres1 ts Hts.
  destruct (instantaneous_prepare T (Z.of_nat (length locs)) ts (Some locs))
    as (r' & Hprep & Hlocs & Hcount); [nia|exact Hts|].
  exists r'. split; [exact Hprep|]. split; [exact Hlocs|].
  intros t dt Ht Hdt. rewrite <- Hlen. now apply Hcount.
Qed.

(** ** Construction of spatial releases *)

Section SpatialInitProperties.
Context {G : GeoRoutines}.
Variable load_shapefile : string -> result (list SpatialRelease.Feature).
Import SpatialRelease.

(** X11: [SpatialRelease.__init__] raises a [ValueError] when given both a
    file name and features, when given neither of them nor polygons, when
    given weights together with thicknesses, and when given weights that
    are not as many as the polygons; and when features are given, the
    polygons, weights and thicknesses passed along are ignored. *)
Theorem X11_spatial_init_validation :
  (forall f fc polys ws ths now rt n m e cp rm,
     exists msg,
       SpatialReleaseInit.new load_shapefile (Some f) (Some fc) polys ws ths now rt n m e cp rm = inl (ValueError msg))
  /\ (forall ws ths now rt n m e cp rm,
        exists msg, SpatialReleaseInit.new load_shapefile None None None ws ths now rt n m e cp rm = inl (ValueError msg))
  /\ (forall polys ws ths now rt n m e cp rm,
        exists msg,
          SpatialReleaseInit.new load_shapefile None None (Some polys) (Some ws) (Some ths) now rt n m e cp rm
          = inl (ValueError msg))
  /\ (forall polys ws now rt n m e cp rm,
        length ws <> length polys ->
        exists msg,
          SpatialReleaseInit.new load_shapefile None None (Some polys) (Some ws) None now rt n m e cp rm
          = inl (ValueError msg))
  /\ (forall fc polys ws ths now rt n m e cp rm,
        SpatialReleaseInit.new load_shapefile None (Some fc) polys ws ths now rt n m e cp rm
        = SpatialReleaseInit.new load_shapefile None (Some fc) None None None now rt n m e cp rm).
Proof.
  split; [|split; [|split; [|split]]]; intros.
  - eexists. reflexivity.
  - eexists. reflexivity.
  - eexists. reflexivity.
  - unfold SpatialReleaseInit.new, SpatialReleaseInit.__init__. run_monad.
    apply Nat.eqb_neq in H. rewrite H. simpl. eexists. reflexivity.
  - reflexivity.
Qed.

Lemma zip_weight_fields (feats : list Feature) (ws : list Q) :
  length ws = length feats ->
  map geometry (SpatialReleaseInit.zip_weight feats ws) = map geometry feats
  /\ map thickness (SpatialReleaseInit.zip_weight feats ws) = map thickness feats
  /\ map weight (SpatialReleaseInit.zip_weight feats ws) = map Some ws.
Proof.
  revert ws. induction feats as [|f feats IH]; intros [|w ws] H; try discriminate.
  - repeat split.
  - simpl in H. destruct (IH ws) as (Hg & Ht & Hw); [lia|].
    simpl. rewrite Hg, Ht, Hw. repeat split.
Qed.

Lemma zip_thickness_fields (feats : list Feature) (ths : list Q) :
  (length ths <= length feats)%nat ->
  map geometry (SpatialReleaseInit.zip_thickness feats ths) = map geometry feats
  /\ map weight (SpatialReleaseInit.zip_thickness feats ths) = map weight feats
  /\ map thickness (SpatialReleaseInit.zip_thickness feats ths)
     = map Some ths ++ skipn (length ths) (map thickness feats).
Proof.
  revert ths. induction feats as [|f feats IH]; intros [|t ths] H; simpl in *; try lia.
  - repeat split.
  - repeat split.
  - destruct (IH ths) as (Hg & Hw & Ht); [lia|].
    rewrite Hg, Hw, Ht. repeat split.
Qed.

Lemma skipn_map_const {A B : Type} (c : B) (l : list A) (k : nat) :
  skipn k (map (fun _ => c) l) = repeat c (length l - k).
Proof.
  revert k. induction l as [|a l IH]; intros [|k]; simpl; try reflexivity.
  - f_equal. specialize (IH 0%nat). simpl in IH. now rewrite Nat.sub_0_r in IH.
  - apply IH.
Qed.

Lemma kwargs_thicknesses (polys : list polygon) (ths : list Q) :
  (length ths <= length polys)%nat ->
  map thickness
    (SpatialReleaseInit.zip_thickness (map (fun p => mkFeature p None None) polys) ths)
  = map Some ths ++ repeat None (length polys - length ths).
Proof.
  intros Hlen.
  destruct (zip_thickness_fields (map (fun p => mkFeature p None None) polys) ths)
    as (_ & _ & Ht); [now rewrite length_map|].
  rewrite Ht, map_map. f_equal.
  exact (skipn_map_const (@None Q) polys (length ths)).
Qed.

(** What a successful construction from keyword arguments leaves. *)
Lemma new_from_kwargs (polys : list polygon) (ws ths : option (list Q))
  (now : datetime) (rt : option datetime) (n m : option Z) (e : option datetime)
  (cp : option (list position)) (rm : option pyfloat) (b : Release.t) :
  (forall w, ws = Some w -> ths = None /\ length w = length polys) ->
  Release.__init__ now rt n m e cp rm (Release.blank cls_SpatialRelease) = (b, inr tt) ->
  exists s,
    SpatialReleaseInit.new load_shapefile None None (Some polys) ws ths now rt n m e cp rm = inr s
    /\ features s = SpatialReleaseInit.gen_fc_from_kwargs polys ws ths
    /\ _tris s = None /\ _weights s = None
    /\ Release._prepared (base s) = false
    /\ config (base s) = config b.
Proof.
  intros Hws Hb.
  unfold SpatialReleaseInit.new, SpatialReleaseInit.__init__.
  assert (Hcheck :
            match ws with
            | Some w =>
                match ths with
                | Some _ =>
                    raise (ValueError "Cannot use both thicknesses and weights in SpatialRelease")
                | None =>
                    when (negb (length w =? length polys)%nat)
                      (raise (ValueError "Weights must be equal in length to provided Polygons"))
                end
            | None => ret tt
            end SpatialReleaseInit.blank
            = (SpatialReleaseInit.blank, inr tt)).
  { destruct ws as [w|]; [|reflexivity].
    destruct (Hws w eq_refl) as [-> Hl]. rewrite Hl, Nat.eqb_refl. reflexivity. }
  unfold bind at 1 2. rewrite Hcheck.
  unfold bind, modify, zoom, rewind. simpl. rewrite Hb. simpl.
  eexists. split; [reflexivity|]. simpl. repeat split.
Qed.

(** X12: a SpatialRelease built from polygons and as many weights gives
    them back through its [polygons] and [weights] properties, with no
    thicknesses; built from polygons and thicknesses, it gives back the
    polygons and the thicknesses, [None] standing for the thickness of each
    polygon beyond the thicknesses given, and no weights. *)
Theorem X12_spatial_init_round_trip :
  (forall polys ws now rt n m e cp rm b,
     ws <> [] -> length ws = length polys ->
     Release.__init__ now rt n m e cp rm (Release.blank cls_SpatialRelease) = (b, inr tt) ->
     exists s,
       SpatialReleaseInit.new load_shapefile None None (Some polys) (Some ws) None now rt n m e cp rm = inr s
       /\ polygons s = polys
       /\ weights s = Some (map Some ws)
       /\ thicknesses s = None)
  /\ (forall polys ths now rt n m e cp rm b,
        ths <> [] -> (length ths <= length polys)%nat ->
        Release.__init__ now rt n m e cp rm (Release.blank cls_SpatialRelease) = (b, inr tt) ->
        exists s,
          SpatialReleaseInit.new load_shapefile None None (Some polys) None (Some ths) now rt n m e cp rm = inr s
          /\ polygons s = polys
          /\ weights s = None
          /\ thicknesses s
             = Some (map Some ths ++ repeat None (length polys - length ths))).
Proof.
  split.
  - intros polys ws now rt n m e cp rm b Hne Hlen Hb.
    destruct (new_from_kwargs polys (Some ws) None now rt n m e cp rm b) as
      (s & Hnew & Hf & _); [intros w [= <-]; now split|exact Hb|].
    exists s. split; [exact Hnew|].
    unfold SpatialReleaseInit.gen_fc_from_kwargs in Hf. simpl in Hf.
    destruct ws as [|w0 ws']; [contradiction|]. cbv beta iota in Hf.
    destruct (zip_weight_fields (map (fun p => mkFeature p None None) polys) (w0 :: ws'))
      as (Hg & Ht & Hw); [now rewrite length_map|].
    unfold polygons, weights, thicknesses. rewrite Hf, Hg, Ht, Hw.
    rewrite !map_map. simpl. split; [apply map_id|]. split; [reflexivity|].
    replace (forallb is_None (map (fun _ : polygon => None) polys)) with true;
      [reflexivity|].
    symmetry. apply forallb_forall. intros x Hx. apply in_map_iff in Hx.
    now destruct Hx as (_ & <- & _).
  - intros polys ths now rt n m e cp rm b Hne Hlen Hb.
    destruct (new_from_kwargs polys None (Some ths) now rt n m e cp rm b) as
      (s & Hnew & Hf & _); [intros w [=]|exact Hb|].
    exists s. split; [exact Hnew|].
    assert (Hfc : features s
                  = SpatialReleaseInit.zip_thickness
                      (map (fun p => mkFeature p None None) polys) ths).
    { rewrite Hf. unfold SpatialReleaseInit.gen_fc_from_kwargs.
      destruct ths; [contradiction|reflexivity]. }
    destruct (zip_thickness_fields (map (fun p => mkFeature p None None) polys) ths)
      as (Hg & Hw & _); [now rewrite length_map|].
    unfold polygons, weights, thicknesses.
    rewrite Hfc, Hg, Hw, kwargs_thicknesses by exact Hlen.
    rewrite !map_map. split; [apply map_id|]. split.
    + replace (forallb is_None (map (fun x => weight (mkFeature x None None)) polys))
        with true; [reflexivity|].
      symmetry. apply forallb_forall. intros x Hx. apply in_map_iff in Hx.
      destruct Hx as (y & Hy & _). now rewrite <- Hy.
    + destruct ths; [contradiction|reflexivity].
Qed.

End SpatialInitProperties.

(** ** Preparing spatial releases *)

Section SpatialRunProperties.
Context {G : GeoRoutines}.
Import SpatialRelease.

(** [prepare_for_model_run] of a spatial release, by its two halves. *)
Lemma spatial_prepare_unfold (ts : Z) (s : t) :
  prepare_for_model_run ts s
  = (let (b', res) := Release.prepare_after_rewind ts (base (srewound s)) in
     match res with
     | inl e => (set_base b' (srewound s), inl e)
     | inr _ => triangulate_features (set_base b' (srewound s))
     end).
Proof.
  unfold prepare_for_model_run. unfold bind at 1. unfold gets at 1.
  unfold bind at 1.
  replace (when (Release._prepared (base s)) rewind s) with (srewound s, inr tt : result unit)
    by (unfold srewound, when, ret; destruct (Release._prepared (base s)); reflexivity).
  unfold bind, zoom.
  destruct (Release.prepare_after_rewind ts (base (srewound s))) as [b' [e|[]]];
    reflexivity.
Qed.

Lemma srewound_unprepared (s : t) : Release._prepared (base (srewound s)) = false.
Proof.
  unfold srewound. destruct (Release._prepared (base s)) eqn:E; [reflexivity|exact E].
Qed.

Lemma prepare_after_rewind_prepared (ts : Z) (b : Release.t) :
  Release.klass b <> cls_Release ->
  Release._prepared (fst (Release.prepare_after_rewind ts b)) = Release._prepared b.
Proof.
  intros Hk. unfold Release.prepare_after_rewind, Release.generate_release_timeseries.
  run_monad.
  repeat (destruct_scrutinee; simpl; try reflexivity).
  destruct (Release.klass b); [contradiction|discriminate|discriminate].
Qed.

(** A failed triangulation changes nothing. *)
Lemma triangulate_error_state (s : t) (e : exception) :
  snd (triangulate_features s) = inl e -> fst (triangulate_features s) = s.
Proof.
  unfold triangulate_features. run_monad.
  repeat (destruct_scrutinee; simpl; try reflexivity; try discriminate).
Qed.

Lemma spatial_failed_prepare (ts : Z) (s : t) (e : exception) :
  Release.klass (base s) <> cls_Release ->
  snd (prepare_for_model_run ts s) = inl e ->
  Release._prepared (base (fst (prepare_for_model_run ts s))) = false.
Proof.
  intros Hk. rewrite spatial_prepare_unfold.
  assert (Hk1 : Release.klass (base (srewound s)) <> cls_Release).
  { unfold srewound. destruct (Release._prepared (base s)); exact Hk. }
  pose proof (prepare_after_rewind_prepared ts (base (srewound s)) Hk1) as Hp.
  rewrite srewound_unprepared in Hp.
  destruct (Release.prepare_after_rewind ts (base (srewound s))) as [b' [e'|[]]];
    simpl in Hp.
  - intros _. exact Hp.
  - intros He. rewrite (triangulate_error_state _ e He). exact Hp.
Qed.

(** X14: when [prepare_for_model_run] of a spatial release raises, the
    instance is left unprepared with its features untouched, and
    [num_elements_after_time] answers 0 at every time. *)
Theorem X14_spatial_failed_prepare (ts : Z) (s : t) (e : exception) :
  Release.klass (base s) <> cls_Release ->
  snd (prepare_for_model_run ts s) = inl e ->
  Release._prepared (base (fst (prepare_for_model_run ts s))) = false
  /\ features (fst (prepare_for_model_run ts s)) = features s
  /\ forall t0 dt,
       Release.num_elements_after_time t0 dt (base (fst (prepare_for_model_run ts s)))
       = inr 0.
Proof.
  intros Hk He. pose proof (spatial_failed_prepare ts s e Hk He) as Hp.
  split; [exact Hp|]. split.
  - revert He. rewrite spatial_prepare_unfold.
    destruct (Release.prepare_after_rewind ts (base (srewound s))) as [b' [e'|[]]].
    + intros _. simpl. apply srewound_features.
    + intros He. rewrite (triangulate_error_state _ e He). simpl. apply srewound_features.
  - intros t0 dt. unfold Release.num_elements_after_time. now rewrite Hp.
Qed.

Lemma compute_distribution_nan (s : t) (f : Feature) :
  In f (features s) -> geo_area_of_polygon (geometry f) = None ->
  exists msg, compute_distribution s = inl (ValueError msg).
Proof.
  intros Hin Hnan. unfold compute_distribution.
  replace (existsb is_None (map geo_area_of_polygon (polygons s))) with true;
    [eexists; reflexivity|].
  symmetry. apply existsb_exists. exists None. split; [|reflexivity].
  unfold polygons. rewrite map_map. apply in_map_iff. exists f. now split.
Qed.

Lemma volumes_missing_thickness (fs : list Feature) (f : Feature) :
  (forall f', In f' fs -> geo_area_of_polygon (geometry f') <> None) ->
  In f fs -> thickness f = None ->
  exists msg,
    map_result
      (fun at_ : option Q * option Q =>
         match at_ with
         | (Some a, Some th) => inr (a * th)%Q
         | _ => inl (TypeError "unsupported operand type(s) for *: 'float' and 'NoneType'")
         end)
      (combine (map geo_area_of_polygon (map geometry fs)) (map thickness fs))
    = inl (TypeError msg).
Proof.
  induction fs as [|f0 fs IH]; intros Ha Hin Hth; [destruct Hin|].
  simpl. destruct (geo_area_of_polygon (geometry f0)) as [a|] eqn:Ea;
    [|exfalso; apply (Ha f0); [now left|exact Ea]].
  destruct (thickness f0) as [th|] eqn:Et; simpl; [|eexists; reflexivity].
  destruct Hin as [->|Hin]; [congruence|].
  destruct (IH (fun f' H => Ha f' (or_intror H)) Hin Hth) as (msg & ->).
  simpl. eexists. reflexivity.
Qed.

Lemma compute_distribution_missing_thickness (s : t) (f : Feature) :
  truthy (thicknesses s) = true ->
  (forall f', In f' (features s) -> geo_area_of_polygon (geometry f') <> None) ->
  In f (features s) -> thickness f = None ->
  exists msg, compute_distribution s = inl (TypeError msg).
Proof.
  intros Hth Ha Hin Hnone. unfold compute_distribution, polygons.
  rewrite (areas_not_nan _ Ha).
  unfold thicknesses in *.
  destruct (forallb is_None (map thickness (features s))); [discriminate|].
  destruct (volumes_missing_thickness (features s) f Ha Hin Hnone) as (msg & ->).
  eexists. reflexivity.
Qed.

(** When the distribution by volume cannot be computed, preparing the run
    raises what [compute_distribution] raises. *)
Lemma prepare_distribution_error (ts : Z) (s : t) (e : exception) :
  snd (Release.prepare_for_model_run ts (base s)) = inr tt ->
  for_each check_valid_polygon (polygons s) = inr tt ->
  truthy (thicknesses s) = true ->
  compute_distribution s = inl e ->
  snd (prepare_for_model_run ts s) = inl e.
Proof.
  intros Hbase Hvalid Hth Hd.
  destruct (base_prepare_transfer ts s Hbase) as (b' & Hb').
  rewrite spatial_prepare_unfold, Hb'.
  pose proof (srewound_features s) as Hf.
  unfold triangulate_features. unfold bind, gets, lift, ret.
  replace (polygons (set_base b' (srewound s))) with (polygons s)
    by (unfold polygons; simpl; now rewrite Hf).
  rewrite Hvalid.
  replace (thicknesses (set_base b' (srewound s))) with (thicknesses s)
    by (unfold thicknesses; simpl; now rewrite Hf).
  rewrite Hth.
  rewrite (compute_distribution_features _ s) by exact Hf.
  rewrite Hd. reflexivity.
Qed.

(** X13: in the thickness mode of [prepare_for_model_run], once the method
    of the base class has succeeded on valid polygons, a polygon whose area
    is NaN makes the call raise a [ValueError], and, the areas being
    numbers, a polygon without thickness makes it raise a [TypeError]. *)
Theorem X13_thickness_mode_errors (ts : Z) (s : t) (f : Feature) :
  snd (Release.prepare_for_model_run ts (base s)) = inr tt ->
  for_each check_valid_polygon (polygons s) = inr tt ->
  truthy (thicknesses s) = true ->
  In f (features s) ->
  (geo_area_of_polygon (geometry f) = None ->
   exists msg, snd (prepare_for_model_run ts s) = inl (ValueError msg))
  /\ ((forall f', In f' (features s) -> geo_area_of_polygon (geometry f') <> None) ->
      thickness f = None ->
      exists msg, snd (prepare_for_model_run ts s) = inl (TypeError msg)).
Proof.
  intros Hbase Hvalid Hth Hin. split.
  - intros Hnan. destruct (compute_distribution_nan s f Hin Hnan) as (msg & Hd).
    exists msg. now apply prepare_distribution_error.
  - intros Ha Hnone.
    destruct (compute_distribution_missing_thickness s f Hth Ha Hin Hnone) as (msg & Hd).
    exists msg. now apply prepare_distribution_error.
Qed.

(** The triangulation reads the features only: what it leaves, when it
    succeeds, does not depend on the triangles and weights held before. *)
Lemma triangulate_features_fresh (s s1 : t) (tr : option (list triangle))
  (w : option (list Q)) :
  triangulate_features s = (s1, inr tt) ->
  triangulate_features (mk (base s) (features s) tr w) = (s1, inr tt).
Proof.
  set (s' := mk (base s) (features s) tr w).
  assert (Hg : forall ws, get_polys_as_tris (polygons s) ws s'
                          = get_polys_as_tris (polygons s) ws s)
    by (intros ws; now apply get_polys_as_tris_features).
  unfold triangulate_features, bind, gets, lift, modify, ret. cbv beta match.
  change (polygons s') with (polygons s).
  change (thicknesses s') with (thicknesses s).
  destruct (for_each check_valid_polygon (polygons s)); [discriminate|].
  cbv beta match.
  destruct (truthy (thicknesses s)); cbv beta match.
  - change (compute_distribution s') with (compute_distribution s).
    destruct (compute_distribution s) as [|d]; [discriminate|]. cbv beta match.
    change (polygons s') with (polygons s). rewrite Hg.
    destruct (get_polys_as_tris (polygons s) (Some (map Some d)) s); [discriminate|].
    cbv beta match. intros [= <-]. reflexivity.
  - change (polygons s') with (polygons s). change (weights s') with (weights s).
    rewrite Hg.
    destruct (get_polys_as_tris (polygons s) (weights s) s); [discriminate|].
    cbv beta match. intros [= <-]. reflexivity.
Qed.

Lemma triangulate_features_shape (s s1 : t) :
  triangulate_features s = (s1, inr tt) ->
  base s1 = Release.set_prepared true (base s) /\ features s1 = features s.
Proof.
  unfold triangulate_features. run_monad.
  repeat (destruct_scrutinee; simpl; try discriminate); intros [= <-]; split; reflexivity.
Qed.

(** X21: a second [prepare_for_model_run(ts)] on a spatial release, right
    after a successful first one, succeeds and leaves exactly the same
    instance: same release series, mass per element, triangles and
    weights. *)
Theorem X21_spatial_prepare_idempotent (ts : Z) (s s1 : t) :
  prepare_for_model_run ts s = (s1, inr tt) ->
  prepare_for_model_run ts s1 = (s1, inr tt).
Proof.
  rewrite !spatial_prepare_unfold.
  destruct (Release.prepare_after_rewind ts (base (srewound s))) as [b' [e|[]]] eqn:E;
    [discriminate|].
  intros H.
  destruct (prepare_after_rewind_inv _ _ _ E)
    as (q & N & m & series & Hq & Hge & HN & Hm & Hs & Hm0 & Hb').
  assert (Hs1 : s1 = mk (Release.set_prepared true b') (features s) (_tris s1) (_weights s1)).
  { destruct (triangulate_features_shape _ _ H) as [Hb Hf]. simpl in Hb, Hf.
    rewrite srewound_features in Hf. destruct s1 as [b1 f1 t1 w1]. simpl in *.
    now subst. }
  assert (Hr : srewound s1
               = mk (Release.set_release_ts None
                       (Release.set_mass_per_le 0 (Release.set_prepared false b')))
                    (features s) None None).
  { rewrite Hs1. reflexivity. }
  assert (Hb1 : Release.prepare_after_rewind ts (base (srewound s1)) = (b', inr tt)).
  { rewrite Hr. simpl.
    rewrite (prepare_after_rewind_run ts _ q N m series); try assumption.
    - f_equal. rewrite Hb'. unfold after_prepare. simpl.
      pose proof (srewound_unprepared s) as Hu.
      destruct (base (srewound s)) as [k rt e n npt rm cp p mle rts pts].
      simpl in *. subst p. destruct k; reflexivity.
    - rewrite <- Hq, Hb'. unfold after_prepare.
      destruct (is_cls_Release (Release.klass (base (srewound s)))); reflexivity.
    - rewrite <- HN, Hb'. unfold after_prepare.
      destruct (is_cls_Release (Release.klass (base (srewound s)))); reflexivity.
    - rewrite <- Hm, Hb'. unfold after_prepare.
      destruct (is_cls_Release (Release.klass (base (srewound s)))); reflexivity.
    - rewrite <- Hs, Hb'. unfold after_prepare.
      destruct (is_cls_Release (Release.klass (base (srewound s)))); reflexivity. }
  rewrite Hb1. rewrite Hr. simpl.
  apply (triangulate_features_fresh (set_base b' (srewound s)) s1 None None) in H.
  simpl in H. rewrite srewound_features in H. exact H.
Qed.

End SpatialRunProperties.

(** ** Point and line releases *)

Ltac run_pointline :=
  unfold PointLineRelease.prepare_for_model_run,
    PointLineRelease.generate_release_timeseries, PointLineRelease.rewind,
    Release.prepare_after_rewind, Release.generate_release_timeseries, zoom;
  run_monad.

Lemma pointline_prepare_rewound (ts : Z) (s : PointLineRelease.t) :
  PointLineRelease.prepare_for_model_run ts s
  = PointLineRelease.prepare_for_model_run ts
      (PointLineRelease.set_base (rewound (PointLineRelease.base s)) s).
Proof.
  unfold rewound.
  destruct (Release._prepared (PointLineRelease.base s)) eqn:E.
  - unfold PointLineRelease.prepare_for_model_run.
    match goal with
    | |- bind (gets ?f) ?k ?a = bind (gets ?f) ?k ?b => change (k (f a) a = k (f b) b)
    end.
    cbv beta. rewrite E. reflexivity.
  - destruct s; reflexivity.
Qed.

(** The position series [generate_release_timeseries] attaches to the
    sample times of a release series. *)
Lemma pointline_prepare_unprepared (ts : Z) (s : PointLineRelease.t) :
  Release._prepared (PointLineRelease.base s) = false ->
  snd (PointLineRelease.prepare_for_model_run ts s)
  = snd (Release.prepare_after_rewind ts (PointLineRelease.base s))
  /\ forall q N m series,
       Release.LE_timestep_ratio ts (PointLineRelease.base s) = inr q ->
       (1 <= q)%Q ->
       Release.get_num_release_time_steps ts (PointLineRelease.base s) = inr N ->
       Release.max_release N (PointLineRelease.base s) = inr m ->
       Release.release_timeseries N m ts (PointLineRelease.base s) = inr series ->
       m <> 0 ->
       let sp := PointLineRelease.start_position s in
       let ep := PointLineRelease.end_position s in
       PointLineRelease.prepare_for_model_run ts s
       = (PointLineRelease.mk
            (Release.set_prepared true
               (Release.set_mass_per_le
                  (Float.div (Float.mul (Release.release_mass (PointLineRelease.base s)) 1)
                     (inject_Z m))
                  (Release.set_pos_ts
                     (Some (combine (ts_time series)
                              (zip3 (Np.linspace (fst (fst sp)) (fst (fst ep)) (N + 1))
                                    (Np.linspace (snd (fst sp)) (snd (fst ep)) (N + 1))
                                    (Np.linspace (snd sp) (snd ep) (N + 1)))))
                     (Release.set_release_ts (Some series) (PointLineRelease.base s)))))
            (PointLineRelease._start_position s) (PointLineRelease._end_position s),
          inr tt).
Proof.
  intros Hp. split.
  - run_pointline. rewrite Hp. simpl.
    repeat (destruct_scrutinee; simpl; try reflexivity; try discriminate).
  - intros q N m series Hq Hge HN Hm Hs Hm0 sp ep.
    apply Qlt_bool_false_iff in Hge. apply Z.eqb_neq in Hm0.
    run_pointline. rewrite Hp. simpl. rewrite Hq, Hge. simpl. rewrite HN. simpl.
    rewrite Hm. simpl. rewrite Hs. simpl. rewrite Hm0. simpl.
    destruct (Release.klass (PointLineRelease.base s)); reflexivity.
Qed.

Lemma rewound_unprepared (r : Release.t) : Release._prepared (rewound r) = false.
Proof. unfold rewound. destruct (Release._prepared r) eqn:E; [reflexivity|exact E]. Qed.

Lemma pointline_prepare_inv (ts : Z) (s s' : PointLineRelease.t) :
  PointLineRelease.prepare_for_model_run ts s = (s', inr tt) ->
  exists q N m series,
    Release.LE_timestep_ratio ts (PointLineRelease.base s) = inr q /\ (1 <= q)%Q
    /\ Release.get_num_release_time_steps ts (PointLineRelease.base s) = inr N
    /\ Release.max_release N (PointLineRelease.base s) = inr m
    /\ Release.release_timeseries N m ts (PointLineRelease.base s) = inr series
    /\ m <> 0
    /\ s' = PointLineRelease.mk
              (Release.set_prepared true
                 (Release.set_mass_per_le
                    (Float.div (Float.mul (Release.release_mass (PointLineRelease.base s)) 1)
                       (inject_Z m))
                    (Release.set_pos_ts
                       (Some (combine (ts_time series)
                                (zip3 (Np.linspace (fst (fst (PointLineRelease.start_position s)))
                                         (fst (fst (PointLineRelease.end_position s))) (N + 1))
                                      (Np.linspace (snd (fst (PointLineRelease.start_position s)))
                                         (snd (fst (PointLineRelease.end_position s))) (N + 1))
                                      (Np.linspace (snd (PointLineRelease.start_position s))
                                         (snd (PointLineRelease.end_position s)) (N + 1)))))
                       (Release.set_release_ts (Some series)
                          (rewound (PointLineRelease.base s))))))
              (PointLineRelease._start_position s) (PointLineRelease._end_position s).
Proof.
  rewrite pointline_prepare_rewound. intros H.
  set (s0 := PointLineRelease.set_base (rewound (PointLineRelease.base s)) s) in *.
  assert (Hp : Release._prepared (PointLineRelease.base s0) = false)
    by apply rewound_unprepared.
  destruct (pointline_prepare_unprepared ts s0 Hp) as [Hsnd Hrun].
  rewrite H in Hsnd. simpl in Hsnd.
  destruct (Release.prepare_after_rewind ts (rewound (PointLineRelease.base s)))
    as [b' res] eqn:E.
  simpl in Hsnd. subst res.
  destruct (prepare_after_rewind_inv _ _ _ E)
    as (q & N & m & series & Hq & Hge & HN & Hm & Hs & Hm0 & _).
  specialize (Hrun q N m series Hq Hge HN Hm Hs Hm0). simpl in Hrun.
  rewrite Hrun in H. injection H as <-.
  rewrite (rewound_pure (Release.LE_timestep_ratio ts)) in Hq by reflexivity.
  rewrite (rewound_pure (Release.get_num_release_time_steps ts)) in HN by reflexivity.
  rewrite (rewound_pure (Release.max_release N)) in Hm by reflexivity.
  rewrite (rewound_pure (Release.release_timeseries N m ts)) in Hs by reflexivity.
  exists q, N, m, series. repeat split; try assumption.
  rewrite (rewound_pure Release.release_mass) by reflexivity. reflexivity.
Qed.

(** X16: [prepare_for_model_run] of a PointLineRelease returns or raises
    exactly as the method of the base class does on the same attributes;
    when it returns, the instance is marked prepared, its positions and
    configuration are unchanged, and its release series and mass per
    element are those the method of the base class computes. *)
Theorem X16_pointline_prepare (ts : Z) (s : PointLineRelease.t) :
  snd (PointLineRelease.prepare_for_model_run ts s)
  = snd (Release.prepare_for_model_run ts (PointLineRelease.base s))
  /\ forall s',
       PointLineRelease.prepare_for_model_run ts s = (s', inr tt) ->
       Release._prepared (PointLineRelease.base s') = true
       /\ PointLineRelease._start_position s' = PointLineRelease._start_position s
       /\ PointLineRelease._end_position s' = PointLineRelease._end_position s
       /\ config (PointLineRelease.base s') = config (PointLineRelease.base s)
       /\ exists b',
            Release.prepare_for_model_run ts (PointLineRelease.base s) = (b', inr tt)
            /\ Release._release_ts (PointLineRelease.base s') = Release._release_ts b'
            /\ Release._mass_per_le (PointLineRelease.base s') = Release._mass_per_le b'.
Proof.
  split.
  - rewrite pointline_prepare_rewound, prepare_unfold.
    apply (pointline_prepare_unprepared ts
             (PointLineRelease.set_base (rewound (PointLineRelease.base s)) s)).
    apply rewound_unprepared.
  - intros s' H.
    destruct (pointline_prepare_inv _ _ _ H)
      as (q & N & m & series & Hq & Hge & HN & Hm & Hs & Hm0 & ->).
    simpl. repeat split.
    + unfold config, rewound. simpl.
      destruct (Release._prepared (PointLineRelease.base s)); reflexivity.
    + exists (after_prepare series m (rewound (PointLineRelease.base s))). split.
      * rewrite prepare_unfold.
        apply (prepare_after_rewind_run ts _ q N m series); try assumption.
        -- now rewrite (rewound_pure (Release.LE_timestep_ratio ts)) by reflexivity.
        -- now rewrite (rewound_pure (Release.get_num_release_time_steps ts)) by reflexivity.
        -- now rewrite (rewound_pure (Release.max_release N)) by reflexivity.
        -- now rewrite (rewound_pure (Release.release_timeseries N m ts)) by reflexivity.
      * unfold after_prepare.
        rewrite (rewound_pure Release.release_mass) by reflexivity.
        destruct (is_cls_Release (Release.klass (rewound (PointLineRelease.base s))));
          split; reflexivity.
Qed.

Lemma linspace_head (a b : Q) (n : Z) :
  1 <= n -> exists x rest, Np.linspace a b n = x :: rest /\ (x == a)%Q.
Proof.
  intros Hn. unfold Np.linspace.
  destruct (Z.leb_spec n 0); [lia|].
  destruct (Z.eqb_spec n 1) as [->|Hne].
  - exists a, []. split; reflexivity.
  - unfold range. destruct (Z.to_nat (n - 1)) as [|k] eqn:Ek; [lia|].
    simpl. eexists. eexists. split; [reflexivity|]. ring.
Qed.

Lemma linspace_last (a b : Q) (n : Z) :
  2 <= n ->
  exists front, Np.linspace a b n = front ++ [b] /\ length front = Z.to_nat (n - 1).
Proof.
  intros Hn. unfold Np.linspace.
  destruct (Z.leb_spec n 0); [lia|].
  destruct (Z.eqb_spec n 1); [lia|].
  eexists. split; [reflexivity|].
  unfold range. now rewrite !length_map, length_seq.
Qed.

Lemma linspace_const (a b : Q) (n : Z) (x : Q) :
  (b == a)%Q -> In x (Np.linspace a b n) -> (x == a)%Q.
Proof.
  intros Hab. unfold Np.linspace.
  destruct (n <=? 0); [intros []|].
  destruct (n =? 1); [intros [<-|[]]; reflexivity|].
  intros H. apply in_app_or in H. destruct H as [H|[<-|[]]]; [|exact Hab].
  apply in_map_iff in H. destruct H as (i & <- & _).
  rewrite Hab. unfold Qminus. rewrite Qplus_opp_r.
  unfold Qdiv. rewrite Qmult_0_l, Qmult_0_r. apply Qplus_0_l.
Qed.

Lemma length_zip3 (xs ys zs : list Q) (n : nat) :
  length xs = n -> length ys = n -> length zs = n -> length (zip3 xs ys zs) = n.
Proof.
  intros Hx Hy Hz. unfold zip3. rewrite length_map, !length_combine. lia.
Qed.

Lemma zip3_app (xs ys zs : list Q) (x y z : Q) :
  length xs = length ys -> length ys = length zs ->
  zip3 (xs ++ [x]) (ys ++ [y]) (zs ++ [z]) = zip3 xs ys zs ++ [(x, y, z)].
Proof.
  intros Hxy Hyz. unfold zip3.
  rewrite (combine_app_same xs [x] ys [y]) by exact Hxy.
  rewrite (combine_app_same (combine xs ys) _ zs [z])
    by (rewrite length_combine; lia).
  now rewrite map_app.
Qed.

Lemma zip3_in (xs ys zs : list Q) (p : position) :
  In p (zip3 xs ys zs) -> In (fst (fst p)) xs /\ In (snd (fst p)) ys /\ In (snd p) zs.
Proof.
  unfold zip3. intros H. apply in_map_iff in H. destruct H as ([[x y] z] & <- & H).
  simpl. pose proof (in_combine_l _ _ _ _ H) as Hxy.
  split; [exact (in_combine_l _ _ _ _ Hxy)|].
  split; [exact (in_combine_r _ _ _ _ Hxy)|exact (in_combine_r _ _ _ _ H)].
Qed.

Lemma linspace_shape (a b : Q) (n : Z) :
  2 <= n ->
  exists x mid,
    Np.linspace a b n = x :: mid ++ [b] /\ (x == a)%Q /\ length mid = Z.to_nat (n - 2).
Proof.
  intros Hn.
  destruct (linspace_head a b n) as (x & rest & Hx & Hxa); [lia|].
  destruct (linspace_last a b n Hn) as (front & Hf & Hlen).
  destruct front as [|y mid]; [simpl in Hlen; lia|].
  exists x, mid. rewrite Hx in Hf. injection Hf as -> ->.
  rewrite Hx. repeat split; [exact Hxa|]. simpl in Hlen. lia.
Qed.

Lemma map_fst_combine {A B : Type} (l : list A) (k : list B) :
  length l = length k -> map fst (combine l k) = l.
Proof.
  revert k. induction l as [|a l IH]; intros [|b k] H; try discriminate; [reflexivity|].
  simpl. f_equal. apply IH. simpl in H. lia.
Qed.

Lemma series_times_shape (N m ts : Z) (r : Release.t) (series : TimeseriesData) :
  Release.get_num_release_time_steps ts r = inr N ->
  Release.release_timeseries N m ts r = inr series ->
  1 <= N
  /\ exists s mid tn,
       Release.release_time r = Some s
       /\ ts_time series = s :: mid ++ [tn]
       /\ length mid = Z.to_nat (N - 1).
Proof.
  intros HN Hs.
  assert (H1 : 1 <= N).
  { apply (release_timeseries_steps _ _ _ _ _ Hs). exact (steps_nonzero _ _ _ HN). }
  split; [exact H1|].
  destruct (release_timeseries_inv _ _ _ _ _ H1 Hs)
    as (d & s & e & Hd & Hrt & Hert & Hzero & Hpos).
  exists s.
  destruct (Qeq_dec d 0) as [H0|H0].
  - pose proof (duration_zero_steps _ _ _ _ Hd H0 HN) as ->.
    rewrite (Hzero H0 eq_refl). exists [], (e + timedelta_seconds 1).
    repeat split. exact Hrt.
  - rewrite (Hpos H0). simpl.
    unfold range. destruct (Z.to_nat N) as [|k] eqn:Ek; [lia|].
    simpl. exists (map (fun i => s + timedelta_seconds (ts * i)) (map Z.of_nat (seq 1 k))), e.
    repeat split.
    + exact Hrt.
    + unfold timedelta_seconds. now rewrite Z.mul_0_r, Z.add_0_r.
    + rewrite !length_map, length_seq. lia.
Qed.

Lemma position_eqb_iff (a b : position) :
  position_eqb a b = true
  <-> (fst (fst a) == fst (fst b))%Q /\ (snd (fst a) == snd (fst b))%Q /\ (snd a == snd b)%Q.
Proof.
  unfold position_eqb. rewrite !andb_true_iff, !Qeq_bool_iff. tauto.
Qed.

(** X17: after a successful prepare of a PointLineRelease the position
    series has one key frame per sample time of the release series, [N + 1]
    in all; the first is at the release time and at the start position, the
    last at the end position; and every key frame of a point source is at
    the start position. *)
Theorem X17_pointline_position_series (ts : Z) (s s' : PointLineRelease.t) :
  PointLineRelease.prepare_for_model_run ts s = (s', inr tt) ->
  exists N series frames,
    Release.get_num_release_time_steps ts (PointLineRelease.base s) = inr N
    /\ Release._release_ts (PointLineRelease.base s') = Some series
    /\ Release._pos_ts (PointLineRelease.base s') = Some frames
    /\ map fst frames = ts_time series
    /\ Z.of_nat (length frames) = N + 1
    /\ (exists t0 p0,
          hd_error frames = Some (t0, p0)
          /\ Release.release_time (PointLineRelease.base s) = Some t0
          /\ position_eqb p0 (PointLineRelease.start_position s) = true)
    /\ (forall d, snd (last frames d) = PointLineRelease.end_position s)
    /\ (PointLineRelease.is_pointsource s = true ->
        forall f, In f frames ->
                  position_eqb (snd f) (PointLineRelease.start_position s) = true).
Proof.
  intros H.
  destruct (pointline_prepare_inv _ _ _ H)
    as (q & N & m & series & Hq & Hge & HN & Hm & Hs & Hm0 & ->).
  destruct (series_times_shape _ _ _ _ _ HN Hs) as (H1 & t0 & tmid & tn & Hrt & Ht & Hlen).
  set (sp := PointLineRelease.start_position s).
  set (ep := PointLineRelease.end_position s).
  exists N, series. eexists. split; [exact HN|]. split; [reflexivity|].
  split; [reflexivity|].
  destruct (linspace_shape (fst (fst sp)) (fst (fst ep)) (N + 1)) as (x1 & m1 & E1 & X1 & L1);
    [lia|].
  destruct (linspace_shape (snd (fst sp)) (snd (fst ep)) (N + 1)) as (x2 & m2 & E2 & X2 & L2);
    [lia|].
  destruct (linspace_shape (snd sp) (snd ep) (N + 1)) as (x3 & m3 & E3 & X3 & L3); [lia|].
  replace (N + 1 - 2) with (N - 1) in L1, L2, L3 by lia.
  assert (Hz : zip3 (Np.linspace (fst (fst sp)) (fst (fst ep)) (N + 1))
                 (Np.linspace (snd (fst sp)) (snd (fst ep)) (N + 1))
                 (Np.linspace (snd sp) (snd ep) (N + 1))
               = (x1, x2, x3) :: zip3 m1 m2 m3 ++ [ep]).
  { rewrite E1, E2, E3.
    change (zip3 (x1 :: m1 ++ [fst (fst ep)]) (x2 :: m2 ++ [snd (fst ep)])
              (x3 :: m3 ++ [snd ep]))
      with ((x1, x2, x3)
              :: zip3 (m1 ++ [fst (fst ep)]) (m2 ++ [snd (fst ep)]) (m3 ++ [snd ep])).
    rewrite zip3_app by lia. now destruct ep as [[a b] c]. }
  assert (Hzl : length (zip3 m1 m2 m3) = Z.to_nat (N - 1)) by now apply length_zip3.
  assert (Hf : combine (ts_time series)
                 (zip3 (Np.linspace (fst (fst sp)) (fst (fst ep)) (N + 1))
                    (Np.linspace (snd (fst sp)) (snd (fst ep)) (N + 1))
                    (Np.linspace (snd sp) (snd ep) (N + 1)))
               = (t0, (x1, x2, x3)) :: combine tmid (zip3 m1 m2 m3) ++ [(tn, ep)]).
  { rewrite Hz, Ht. simpl. f_equal.
    rewrite (combine_app_same tmid [tn] (zip3 m1 m2 m3) [ep]) by lia. reflexivity. }
  repeat split.
  - apply map_fst_combine. rewrite Hz, Ht. simpl.
    rewrite !length_app. simpl. lia.
  - rewrite Hf. simpl. rewrite length_app, length_combine. simpl. lia.
  - exists t0, (x1, x2, x3). rewrite Hf. repeat split; [exact Hrt|].
    apply position_eqb_iff. simpl. now repeat split.
  - intros d. rewrite Hf.
    change ((t0, (x1, x2, x3)) :: combine tmid (zip3 m1 m2 m3) ++ [(tn, ep)])
      with (((t0, (x1, x2, x3)) :: combine tmid (zip3 m1 m2 m3)) ++ [(tn, ep)]).
    now rewrite last_last.
  - intros Hpoint f Hin.
    unfold PointLineRelease.is_pointsource in Hpoint.
    apply position_eqb_iff in Hpoint. destruct Hpoint as (P1 & P2 & P3).
    destruct f as [tf pf]. apply in_combine_r in Hin.
    apply zip3_in in Hin. destruct Hin as (I1 & I2 & I3).
    apply position_eqb_iff. simpl. repeat split.
    + exact (linspace_const _ _ _ _ P1 I1).
    + exact (linspace_const _ _ _ _ P2 I2).
    + exact (linspace_const _ _ _ _ P3 I3).
Qed.

(** X15: [PointLineRelease.__init__] never passes [num_per_timestep] on:
    every instance it builds has no rate per time step and has the
    [num_elements] given, or 1000; so it accepts both counts together,
    where [Release] raises a [TypeError].  Without a start position
    construction fails. *)
Theorem X15_pointline_init :
  (forall now rt sp n m e ep rm cp s,
     PointLineRelease.new now rt sp n m e ep rm cp = inr s ->
     Release.num_per_timestep (PointLineRelease.base s) = None
     /\ Release.num_elements (PointLineRelease.base s)
        = Some (match n with Some k => k | None => 1000 end)
     /\ sp = Some (PointLineRelease.start_position s)
     /\ PointLineRelease._end_position s = ep
     /\ Release._prepared (PointLineRelease.base s) = false
     /\ Release._pos_ts (PointLineRelease.base s) = None)
  /\ (forall now rt p n m ep rm cp,
        0 <= n ->
        (exists s, PointLineRelease.new now rt (Some p) (Some n) (Some m) None ep rm cp
                   = inr s)
        /\ exists msg, Release.new now rt (Some n) (Some m) None cp rm
                       = inl (TypeError msg))
  /\ (forall now rt n m e ep rm cp,
        exists err, PointLineRelease.new now rt None n m e ep rm cp = inl err).
Proof.
  split; [|split].
  - intros now rt sp n m e ep rm cp s.
    unfold PointLineRelease.new. run_init.
    repeat (destruct_scrutinee; simpl; try discriminate);
      intros [= <-]; simpl; repeat split.
  - intros now rt p n m ep rm cp Hn. apply Z.ltb_ge in Hn. split.
    + unfold PointLineRelease.new. run_init. rewrite Hn. simpl.
      destruct rt; simpl; eexists; reflexivity.
    + eexists. apply init_both_counts_rejected.
  - intros now rt n m e ep rm cp. unfold PointLineRelease.new.
    destruct (Release.__init__ now rt n None e cp rm (Release.blank cls_PointLineRelease))
      as [b [err|[]]]; eexists; reflexivity.
Qed.

Section PointLineProperties.

Variable pos_at : list (datetime * position) -> datetime -> position.

Lemma pointline_initialize_LEs_run (to_rel : Z) (data : Release.ElementBatch)
  (t : datetime) (dt : Z) (s : PointLineRelease.t)
  (frames : list (datetime * position)) (n : nat) :
  Release._pos_ts (PointLineRelease.base s) = Some frames ->
  length (Release.positions data) = n ->
  length (Release.mass data) = n ->
  length (Release.init_mass data) = n ->
  1 <= to_rel <= Z.of_nat n ->
  let a := pos_at frames t in
  let b := pos_at frames (t + timedelta_seconds (if dt =? 0 then 1 else dt)) in
  let rows := zip3 (Np.linspace (fst (fst a)) (fst (fst b)) to_rel)
                (Np.linspace (snd (fst a)) (snd (fst b)) to_rel)
                (Np.linspace (snd a) (snd b) to_rel) in
  PointLineRelease.initialize_LEs pos_at to_rel data t dt s
  = inr (Release.mkBatch
           (firstn (n - Z.to_nat to_rel) (Release.positions data) ++ rows)
           (firstn (n - Z.to_nat to_rel) (Release.mass data)
              ++ repeat (Release._mass_per_le (PointLineRelease.base s)) (Z.to_nat to_rel))
           (firstn (n - Z.to_nat to_rel) (Release.init_mass data)
              ++ repeat (Release._mass_per_le (PointLineRelease.base s)) (Z.to_nat to_rel)))
  /\ length rows = Z.to_nat to_rel.
Proof.
  intros Hpos Hp Hm Hi Hrel a b rows.
  assert (Hlen : length rows = Z.to_nat to_rel).
  { apply length_zip3; apply length_linspace; lia. }
  split; [|exact Hlen].
  unfold PointLineRelease.initialize_LEs. rewrite Hpos. cbv zeta. fold a b rows.
  destruct (Z.ltb_spec to_rel 0); [lia|].
  unfold Release.assign_rows, Release.assign_scalar, Release.slice_start.
  destruct (Z.ltb_spec 0 to_rel); [|lia].
  rewrite Hp, Hm, Hi, Hlen.
  replace (n - (n - Z.to_nat to_rel))%nat with (Z.to_nat to_rel) by lia.
  rewrite Nat.eqb_refl. reflexivity.
Qed.

(** X18: [initialize_LEs] of a PointLineRelease raises an [AttributeError]
    when the instance has no position series, treats a time step of 0 as
    one of 1 second, and raises a [ValueError] for a negative [to_rel] and
    for [to_rel = 0] on arrays that are not empty.  For
    [1 <= to_rel <= n] on arrays of [n] rows it returns: the rows before
    the last [to_rel] are kept, the masses of the new rows are the mass per
    element, and the new positions start at the position of the source at
    the current time, end (for two or more of them) at its position one
    time step later, and all coincide with it if the source has not
    moved. *)
Theorem X18_pointline_initialize_LEs :
  (forall to_rel data t dt s,
     Release._pos_ts (PointLineRelease.base s) = None ->
     PointLineRelease.initialize_LEs pos_at to_rel data t dt s = inl AttributeError)
  /\ (forall to_rel data t s,
        PointLineRelease.initialize_LEs pos_at to_rel data t 0 s
        = PointLineRelease.initialize_LEs pos_at to_rel data t 1 s)
  /\ (forall to_rel data t dt s frames,
        Release._pos_ts (PointLineRelease.base s) = Some frames ->
        to_rel < 0 \/ (to_rel = 0 /\ Release.positions data <> []) ->
        exists msg,
          PointLineRelease.initialize_LEs pos_at to_rel data t dt s = inl (ValueError msg))
  /\ (forall to_rel data t dt s frames n,
        Release._pos_ts (PointLineRelease.base s) = Some frames ->
        length (Release.positions data) = n ->
        length (Release.mass data) = n ->
        length (Release.init_mass data) = n ->
        1 <= to_rel <= Z.of_nat n ->
        let a := pos_at frames t in
        let b := pos_at frames (t + timedelta_seconds (if dt =? 0 then 1 else dt)) in
        exists rows,
          PointLineRelease.initialize_LEs pos_at to_rel data t dt s
          = inr (Release.mkBatch
                   (firstn (n - Z.to_nat to_rel) (Release.positions data) ++ rows)
                   (firstn (n - Z.to_nat to_rel) (Release.mass data)
                      ++ repeat (Release._mass_per_le (PointLineRelease.base s))
                           (Z.to_nat to_rel))
                   (firstn (n - Z.to_nat to_rel) (Release.init_mass data)
                      ++ repeat (Release._mass_per_le (PointLineRelease.base s))
                           (Z.to_nat to_rel)))
          /\ length rows = Z.to_nat to_rel
          /\ (exists p0 rest, rows = p0 :: rest /\ position_eqb p0 a = true)
          /\ (2 <= to_rel -> forall d, last rows d = b)
          /\ (position_eqb b a = true ->
              forall p, In p rows -> position_eqb p a = true)).
Proof.
  split; [|split; [|split]].
  - intros to_rel data t dt s H. unfold PointLineRelease.initialize_LEs. now rewrite H.
  - reflexivity.
  - intros to_rel data t dt s frames Hpos Hrel.
    unfold PointLineRelease.initialize_LEs. rewrite Hpos. cbv zeta.
    destruct Hrel as [Hneg|[-> Hne]].
    + apply Z.ltb_lt in Hneg. rewrite Hneg. eexists. reflexivity.
    + simpl. unfold Release.assign_rows, Release.slice_start. simpl.
      destruct (Release.positions data) as [|p ps]; [contradiction|].
      simpl. eexists. reflexivity.
  - intros to_rel data t dt s frames n Hpos Hp Hm Hi Hrel a b.
    destruct (pointline_initialize_LEs_run to_rel data t dt s frames n Hpos Hp Hm Hi Hrel)
      as [Hrun Hlen].
    fold a b in Hrun, Hlen.
    eexists. split; [exact Hrun|]. split; [exact Hlen|]. split; [|split].
    + destruct (linspace_head (fst (fst a)) (fst (fst b)) to_rel) as (x1 & r1 & E1 & X1);
        [lia|].
      destruct (linspace_head (snd (fst a)) (snd (fst b)) to_rel) as (x2 & r2 & E2 & X2);
        [lia|].
      destruct (linspace_head (snd a) (snd b) to_rel) as (x3 & r3 & E3 & X3); [lia|].
      rewrite E1, E2, E3. exists (x1, x2, x3), (zip3 r1 r2 r3).
      split; [reflexivity|]. apply position_eqb_iff. simpl. now repeat split.
    + intros H2 d.
      destruct (linspace_last (fst (fst a)) (fst (fst b)) to_rel H2) as (f1 & E1 & L1).
      destruct (linspace_last (snd (fst a)) (snd (fst b)) to_rel H2) as (f2 & E2 & L2).
      destruct (linspace_last (snd a) (snd b) to_rel H2) as (f3 & E3 & L3).
      rewrite E1, E2, E3, zip3_app by lia. rewrite last_last.
      now destruct b as [[x y] z].
    + intros Hpoint p Hin. apply position_eqb_iff in Hpoint.
      destruct Hpoint as (P1 & P2 & P3).
      apply zip3_in in Hin. destruct Hin as (I1 & I2 & I3).
      apply position_eqb_iff. repeat split.
      * exact (linspace_const _ _ _ _ P1 I1).
      * exact (linspace_const _ _ _ _ P2 I2).
      * exact (linspace_const _ _ _ _ P3 I3).
Qed.

End PointLineProperties.

Lemma length_repeat_rows {A : Type} (rows : list (A * Z)) :
  (forall pn, In pn rows -> 0 <= snd pn) ->
  Z.of_nat (length (flat_map (fun pn => repeat (fst pn) (Z.to_nat (snd pn))) rows))
  = fold_right Z.add 0 (map snd rows).
Proof.
  induction rows as [|[p n] rows IH]; intros H; [reflexivity|].
  simpl. rewrite length_app, repeat_length, Nat2Z.inj_add, IH.
  - pose proof (H (p, n) (or_introl eq_refl)). simpl in *. lia.
  - intros pn Hin. apply H. now right.
Qed.

(** X19: [release_from_splot_data] raises an [IndexError] for a file of
    fewer than two rows.  For two rows or more it raises a [ValueError]
    when a count is negative, and otherwise builds a Release whose custom
    positions number the sum of the counts, each at [z = 0] and at the
    longitude and latitude of a row with a positive count, while its
    [num_elements] is the default 1000 whatever the counts are. *)
Theorem X19_release_from_splot_data :
  (forall now rt (pos : list position),
     (length pos < 2)%nat -> release_from_splot_data now rt pos = inl IndexError)
  /\ (forall now rt (pos : list position) p,
        (2 <= length pos)%nat ->
        In p pos -> Np.astype_int (snd p) < 0 ->
        exists msg, release_from_splot_data now rt pos = inl (ValueError msg))
  /\ (forall now rt (pos : list position),
        (2 <= length pos)%nat ->
        (forall p, In p pos -> 0 <= Np.astype_int (snd p)) ->
        exists r locs,
          release_from_splot_data now rt pos = inr r
          /\ Release.num_elements r = Some 1000
          /\ Release.num_per_timestep r = None
          /\ Release.custom_positions r = Some locs
          /\ Z.of_nat (length locs)
             = fold_right Z.add 0 (map (fun p => Np.astype_int (snd p)) pos)
          /\ forall q, In q locs ->
                       snd q = 0%Q
                       /\ exists p, In p pos /\ fst q = fst p
                                    /\ 0 < Np.astype_int (snd p)).
Proof.
  split; [|split].
  - intros now rt pos Hlen. unfold release_from_splot_data.
    apply Nat.ltb_lt in Hlen. now rewrite Hlen.
  - intros now rt pos p Hlen Hin Hneg. unfold release_from_splot_data.
    apply Nat.ltb_ge in Hlen. rewrite Hlen.
    replace (existsb (fun n => n <? 0) (map (fun p0 => Np.astype_int (snd p0)) pos))
      with true; [eexists; reflexivity|].
    symmetry. apply existsb_exists. exists (Np.astype_int (snd p)). split.
    + apply in_map_iff. now exists p.
    + now apply Z.ltb_lt.
  - intros now rt pos Hlen Hpos. unfold release_from_splot_data.
    apply Nat.ltb_ge in Hlen. rewrite Hlen.
    replace (existsb (fun n => n <? 0) (map (fun p0 => Np.astype_int (snd p0)) pos))
      with false.
    2:{ symmetry. apply not_true_is_false. intros H. apply existsb_exists in H.
        destruct H as (n & Hin & Hn). apply in_map_iff in Hin.
        destruct Hin as (p & <- & Hp). apply Z.ltb_lt in Hn.
        specialize (Hpos p Hp). lia. }
    set (rows := combine (map (fun p => (fst (fst p), snd (fst p), 0%Q)) pos)
                   (map (fun p => Np.astype_int (snd p)) pos)).
    set (locs := flat_map (fun pn => repeat (fst pn) (Z.to_nat (snd pn))) rows).
    assert (Hrows : forall pn, In pn rows ->
              exists p, In p pos /\ fst pn = (fst (fst p), snd (fst p), 0%Q)
                        /\ snd pn = Np.astype_int (snd p)).
    { unfold rows. clear. induction pos as [|p pos IH]; intros pn Hin; [destruct Hin|].
      simpl in Hin. destruct Hin as [<-|Hin].
      - exists p. repeat split. now left.
      - destruct (IH pn Hin) as (p' & Hp' & H1 & H2). exists p'. repeat split; auto.
        now right. }
    assert (Hnew : exists r, Release.new now rt None None None (Some locs) (Some (Fin 0)) = inr r
                             /\ Release.num_elements r = Some 1000
                             /\ Release.num_per_timestep r = None
                             /\ Release.custom_positions r = Some locs).
    { destruct rt; eexists;
        (split; [apply new_inr; run_init; reflexivity | repeat split]). }
    destruct Hnew as (r & Hr & Hn & Hm & Hc).
    exists r, locs. repeat split; try assumption.
    + unfold locs. rewrite length_repeat_rows.
      * unfold rows. rewrite map_snd_combine; [reflexivity|].
        now rewrite !length_map.
      * intros pn Hin. destruct (Hrows pn Hin) as (p & Hp & _ & H2).
        pose proof (Hpos p Hp) as H0. rewrite <- H2 in H0. exact H0.
    + unfold locs in H. apply in_flat_map in H. destruct H as (pn & Hin & Hq).
      apply repeat_spec in Hq. subst q.
      destruct (Hrows pn Hin) as (p & _ & -> & _). reflexivity.
    + unfold locs in H. apply in_flat_map in H. destruct H as (pn & Hin & Hq).
      assert (Hcount : 0 < snd pn).
      { destruct (Z.to_nat (snd pn)) eqn:E; [destruct Hq|lia]. }
      apply repeat_spec in Hq. subst q.
      destruct (Hrows pn Hin) as (p & Hp & H1 & H2).
      exists p. rewrite H1. rewrite <- H2.
      split; [exact Hp|]. split; [now destruct p as [[x y] z]|exact Hcount].
Qed.

(** X20: a second [prepare_for_model_run(ts)] on a PointLineRelease, right
    after a successful first one, succeeds and leaves exactly the same
    instance, position series included. *)
Theorem X20_pointline_prepare_idempotent (ts : Z) (s s1 : PointLineRelease.t) :
  PointLineRelease.prepare_for_model_run ts s = (s1, inr tt) ->
  PointLineRelease.prepare_for_model_run ts s1 = (s1, inr tt).
Proof.
  intros H.
  destruct (pointline_prepare_inv _ _ _ H)
    as (q & N & m & series & Hq & Hge & HN & Hm & Hs & Hm0 & ->).
  rewrite pointline_prepare_rewound.
  match goal with
  | |- PointLineRelease.prepare_for_model_run ts ?x = _ => set (s0 := x)
  end.
  assert (Hp : Release._prepared (PointLineRelease.base s0) = false)
    by apply rewound_unprepared.
  destruct (pointline_prepare_unprepared ts s0 Hp) as [_ Hrun].
  rewrite (Hrun q N m series).
  - unfold s0, rewound. simpl.
    destruct (Release._prepared (PointLineRelease.base s)); reflexivity.
  - rewrite <- Hq. unfold s0, rewound. simpl.
    destruct (Release._prepared (PointLineRelease.base s)); reflexivity.
  - exact Hge.
  - rewrite <- HN. unfold s0, rewound. simpl.
    destruct (Release._prepared (PointLineRelease.base s)); reflexivity.
  - rewrite <- Hm. unfold s0, rewound. simpl.
    destruct (Release._prepared (PointLineRelease.base s)); reflexivity.
  - rewrite <- Hs. unfold s0, rewound. simpl.
    destruct (Release._prepared (PointLineRelease.base s)); reflexivity.
  - exact Hm0.
Qed.

(** ** The properties at work *)

(** X2 at work: one element for an hour of 900 s time steps. *)
Lemma X2_witness :
  Release._prepared (fst (Release.prepare_for_model_run 900 starved_release)) = false
  /\ forall t dt,
       Release.num_elements_after_time t dt
         (fst (Release.prepare_for_model_run 900 starved_release))
       = inr 0.
Proof.
  apply (X2_failed_prepare 900 starved_release (ValueError Release.msg_not_enough_LEs)).
  reflexivity.
Defined.

(** X3 at work: a negative count, and three calls on the scenario. *)
Lemma X3_witness :
  (exists msg, Release.num_elements_setter (Some (-1)) (scenario 0)
               = (scenario 0, inl (ValueError msg)))
  /\ counts_consistent
       (run_calls [assign_num_per_timestep (Some 5); call_prepare_for_model_run 900;
                   assign_num_elements None] (scenario 0)).
Proof.
  split.
  - apply (proj1 X3_counts_invariant (-1) (scenario 0)). lia.
  - apply (proj2 X3_counts_invariant 0 (Some 0) (Some 10) None
             (Some (timedelta_seconds 3600)) None (Some (Fin 0)) (scenario 0)).
    reflexivity.
Defined.

(** X4 at work: 5000 s in steps of 1800 s. *)
Lemma X4_witness :
  exists N,
    Release.get_num_release_time_steps 1800 uneven_release = inr N
    /\ 1 <= N
    /\ (total_seconds (timedelta_seconds 5000) <= inject_Z (N * 1800))%Q
    /\ ((0 < total_seconds (timedelta_seconds 5000))%Q ->
        (inject_Z ((N - 1) * 1800) < total_seconds (timedelta_seconds 5000))%Q).
Proof.
  apply (proj1 X4_steps_cover_duration 1800 uneven_release
           (total_seconds (timedelta_seconds 5000))).
  - lia.
  - reflexivity.
  - unfold Qle. simpl. lia.
Defined.

(** X5 at work: 30 kg over twelve elements. *)
Lemma X5_witness :
  exists N m,
    Release.get_num_release_time_steps 1800 oil_release = inr N
    /\ Release.max_release N oil_release = inr m
    /\ (Release.num_per_timestep oil_release = None ->
        Release.num_elements oil_release = Some m)
    /\ exists mle,
         Release._mass_per_le (fst (Release.prepare_for_model_run 1800 oil_release))
         = Fin mle
         /\ (mle * inject_Z m == 30)%Q.
Proof.
  apply (X5_mass_conservation 1800 oil_release). reflexivity.
Defined.

(** X6 at work: the scenario as its constructor builds it. *)
Lemma X6_witness :
  exists q,
    Release.LE_timestep_ratio 1800 (scenario 0) = inr q
    /\ ((1 <= q)%Q ->
        exists r', Release.prepare_for_model_run 1800 (scenario 0) = (r', inr tt))
    /\ ((q < 1)%Q ->
        Release.prepare_for_model_run 1800 (scenario 0)
        = (scenario 0, inl (ValueError Release.msg_not_enough_LEs))).
Proof.
  apply (X6_constructed_prepare 0 (Some 0) (Some 10) None (Some (timedelta_seconds 3600))
           None (Some (Fin 0)) (scenario 0) 1800).
  - reflexivity.
  - lia.
Defined.



(** X9 at work: three elements asked of two positions. *)
Lemma X9_witness :
  exists e,
    Release.initialize_LEs (fun i => i) 3 three_rows 0 900 two_positions = inl e.
Proof.
  apply (proj2 X9_initialize_LEs_edges (fun i => i) 3 three_rows 0 900 two_positions
           [(0, 0, 0)%Q; (1, 1, 0)%Q]).
  - reflexivity.
  - simpl. lia.
Defined.

(** X10 at work: a grid of 3 by 3 over the unit square. *)
Lemma X10_witness :
  exists r locs,
    GridRelease 0 (Some 0) ((0, 0), (1, 1))%Q 3 = inr r
    /\ Release.num_elements r = Some (3 * 3)
    /\ Release.num_per_timestep r = None
    /\ Release.custom_positions r = Some locs
    /\ Z.of_nat (length locs) = 3 * 3
    /\ (forall p, In p locs -> snd p = 0%Q)
    /\ (1 <= 3 -> forall ts, 0 < ts ->
        exists r',
          Release.prepare_for_model_run ts r = (r', inr tt)
          /\ Release.custom_positions r' = Some locs
          /\ (forall t dt, 0 <= t -> 0 <= dt ->
                Release.num_elements_after_time t dt r' = inr (3 * 3))).
Proof.
  apply (X10_GridRelease 0 0 ((0, 0), (1, 1))%Q 3). lia.
Defined.

(** X11 at work: one weight for two polygons. *)
Lemma X11_witness :
  exists msg,
    @SpatialReleaseInit.new area_lists no_shapefile None None
      (Some [[1; 1]%Q; [2]%Q]) (Some [1%Q]) None 0 (Some 0) None None None None None
    = inl (ValueError msg).
Proof.
  apply (proj1 (proj2 (proj2 (proj2 (@X11_spatial_init_validation area_lists no_shapefile))))).
  simpl. lia.
Defined.

(** X12 at work: two polygons with two weights, and with one thickness. *)
Lemma X12_witness :
  (exists s,
     @SpatialReleaseInit.new area_lists no_shapefile None None
       (Some [[1; 1]%Q; [2]%Q]) (Some [1 # 2; 1 # 2]%Q) None 0 (Some 0) None None None
       None None = inr s
     /\ SpatialRelease.polygons s = [[1; 1]%Q; [2]%Q]
     /\ SpatialRelease.weights s = Some (map Some [1 # 2; 1 # 2]%Q)
     /\ SpatialRelease.thicknesses s = None)
  /\ (exists s,
        @SpatialReleaseInit.new area_lists no_shapefile None None
          (Some [[1; 1]%Q; [2]%Q]) None (Some [2%Q]) 0 (Some 0) None None None None None
        = inr s
        /\ SpatialRelease.polygons s = [[1; 1]%Q; [2]%Q]
        /\ SpatialRelease.weights s = None
        /\ SpatialRelease.thicknesses s = Some (map Some [2%Q] ++ repeat None (2 - 1))).
Proof.
  split.
  - apply (proj1 (@X12_spatial_init_round_trip area_lists no_shapefile)
             [[1; 1]%Q; [2]%Q] [1 # 2; 1 # 2]%Q 0 (Some 0) None None None None None
             (fst (Release.__init__ 0 (Some 0) None None None None None
                     (Release.blank cls_SpatialRelease)))).
    + discriminate.
    + reflexivity.
    + reflexivity.
  - apply (proj2 (@X12_spatial_init_round_trip area_lists no_shapefile)
             [[1; 1]%Q; [2]%Q] [2%Q] 0 (Some 0) None None None None None
             (fst (Release.__init__ 0 (Some 0) None None None None None
                     (Release.blank cls_SpatialRelease)))).
    + discriminate.
    + simpl. lia.
    + reflexivity.
Defined.

(** X13 at work: a slick without area, and a slick without thickness. *)
Lemma X13_witness :
  (exists msg,
     snd (SpatialRelease.prepare_for_model_run 900 empty_slick) = inl (ValueError msg))
  /\ (exists msg,
        snd (SpatialRelease.prepare_for_model_run 900 patchy_slicks) = inl (TypeError msg)).
Proof.
  split.
  - apply (proj1 (@X13_thickness_mode_errors degenerate_areas 900 empty_slick
                    (SpatialRelease.mkFeature ([] : @polygon degenerate_areas) None
                       (Some 1%Q))
                    eq_refl eq_refl eq_refl (or_intror (or_introl eq_refl)))).
    reflexivity.
  - apply (proj2 (@X13_thickness_mode_errors area_lists 900 patchy_slicks
                    (SpatialRelease.mkFeature ([2]%Q : @polygon area_lists) None None)
                    eq_refl eq_refl eq_refl (or_intror (or_introl eq_refl)))).
    + intros f' Hf'. discriminate.
    + reflexivity.
Defined.

(** X14 at work: the slick without thickness. *)
Lemma X14_witness :
  Release._prepared
    (SpatialRelease.base (fst (SpatialRelease.prepare_for_model_run 900 patchy_slicks)))
  = false
  /\ SpatialRelease.features (fst (SpatialRelease.prepare_for_model_run 900 patchy_slicks))
     = SpatialRelease.features patchy_slicks
  /\ forall t0 dt,
       Release.num_elements_after_time t0 dt
         (SpatialRelease.base (fst (SpatialRelease.prepare_for_model_run 900 patchy_slicks)))
       = inr 0.
Proof.
  apply (@X14_spatial_failed_prepare area_lists 900 patchy_slicks
           (TypeError "unsupported operand type(s) for *: 'float' and 'NoneType'")).
  - discriminate.
  - reflexivity.
Defined.

(** X15 at work: both counts given. *)
Lemma X15_witness :
  exists s,
    PointLineRelease.new 0 (Some 0) (Some (0, 0, 0)%Q) (Some 12) (Some 5) None
      (Some (2, 4, 0)%Q) (Some (Fin 30)) None = inr s.
Proof.
  apply (proj1 (proj2 X15_pointline_init) 0 (Some 0) (0, 0, 0)%Q 12 5 (Some (2, 4, 0)%Q)
           (Some (Fin 30)) None).
  lia.
Defined.

(** X16 at work: the moving source, in two time steps. *)
Lemma X16_witness :
  Release._prepared
    (PointLineRelease.base (fst (PointLineRelease.prepare_for_model_run 1800 line_release)))
  = true.
Proof.
  apply (proj2 (X16_pointline_prepare 1800 line_release)
           (fst (PointLineRelease.prepare_for_model_run 1800 line_release))).
  reflexivity.
Defined.

(** X17 at work: the moving source, in two time steps. *)
Lemma X17_witness :
  exists N series frames,
    Release.get_num_release_time_steps 1800 (PointLineRelease.base line_release) = inr N
    /\ Release._release_ts
         (PointLineRelease.base
            (fst (PointLineRelease.prepare_for_model_run 1800 line_release)))
       = Some series
    /\ Release._pos_ts
         (PointLineRelease.base
            (fst (PointLineRelease.prepare_for_model_run 1800 line_release)))
       = Some frames
    /\ map fst frames = ts_time series
    /\ Z.of_nat (length frames) = N + 1.
Proof.
  destruct (X17_pointline_position_series 1800 line_release
              (fst (PointLineRelease.prepare_for_model_run 1800 line_release)) eq_refl)
    as (N & series & frames & H1 & H2 & H3 & H4 & H5 & _).
  exists N, series, frames. repeat split; assumption.
Defined.

(** X18 at work: two new elements in a container of three. *)
Lemma X18_witness :
  exists out,
    PointLineRelease.initialize_LEs first_frame 2 three_rows 0 900
      (fst (PointLineRelease.prepare_for_model_run 1800 line_release)) = inr out
    /\ length (Release.positions out) = 3%nat.
Proof.
  destruct (proj2 (proj2 (proj2 (X18_pointline_initialize_LEs first_frame)))
              2 three_rows 0 900
              (fst (PointLineRelease.prepare_for_model_run 1800 line_release))
              _ 3%nat eq_refl eq_refl eq_refl eq_refl ltac:(simpl; lia))
    as (rows & Hrun & Hlen & _).
  eexists. split; [exact Hrun|]. simpl in Hlen |- *. rewrite Hlen. reflexivity.
Defined.

(** X19 at work: three splots of 2, 0 and 2.5 (that is 2) elements, and a
    file of a single row. *)
Lemma X19_witness :
  release_from_splot_data 0 (Some 0) [(1, 2, 2)%Q] = inl IndexError
  /\ exists r locs,
       release_from_splot_data 0 (Some 0) [(1, 2, 2)%Q; (3, 4, 0)%Q; (5, 6, 5 # 2)%Q]
       = inr r
       /\ Release.num_elements r = Some 1000
       /\ Release.custom_positions r = Some locs
       /\ Z.of_nat (length locs) = 4.
Proof.
  split.
  - apply (proj1 X19_release_from_splot_data 0 (Some 0) [(1, 2, 2)%Q]). simpl. lia.
  - destruct (proj2 (proj2 X19_release_from_splot_data) 0 (Some 0)
                [(1, 2, 2)%Q; (3, 4, 0)%Q; (5, 6, 5 # 2)%Q])
      as (r & locs & H1 & H2 & _ & H4 & H5 & _).
    + simpl. lia.
    + intros p [<-|[<-|[<-|[]]]]; vm_compute; discriminate.
    + exists r, locs. repeat split; assumption.
Defined.

(** X20 at work: the moving source, prepared twice. *)
Lemma X20_witness :
  PointLineRelease.prepare_for_model_run 1800
    (fst (PointLineRelease.prepare_for_model_run 1800 line_release))
  = (fst (PointLineRelease.prepare_for_model_run 1800 line_release), inr tt).
Proof.
  apply (X20_pointline_prepare_idempotent 1800 line_release). reflexivity.
Defined.

(** X21 at work: the two slicks, prepared twice. *)
Lemma X21_witness :
  SpatialRelease.prepare_for_model_run 900
    (fst (SpatialRelease.prepare_for_model_run 900 two_slicks))
  = (fst (SpatialRelease.prepare_for_model_run 900 two_slicks), inr tt).
Proof.
  apply (@X21_spatial_prepare_idempotent area_lists 900 two_slicks). reflexivity.
Defined.
